(** * Analytics dashboard (src/main.py): TTL cache, timestamp normalizer,
      column resolver and aggregation

    A shallow embedding of the Python back end of [src/main.py] (the
    allowed origins, [_parse_timestamp], [_df_to_records], [_get_cached]
    and the endpoints that read through it) and of the JavaScript helpers
    embedded in its dashboard page ([normalizeKey], [findColumn],
    [uniqueCount], [countMatch], [groupCounts] and the emptiness test of
    [renderChart]), followed by the properties proved about them.

    Conventions of the embedding.
    - A Python call that may raise returns a [result]; the exception is a
      value of [exn].
    - The clock ([time.time()]) is read by the caller and passed as [now];
      instants of time are exact rationals (seconds), so the rounding of
      float subtraction is not represented.
    - A DataFrame is column-major, as in pandas: a list of named series, each
      a series of Python objects or a [datetime64] series.  A column built
      from the rows of the record source goes through the dtype inference of
      pandas ([infer_objects]): a column of numbers and nulls that holds a
      float or a null becomes a [float64] column, whose integers are floats
      and whose nulls are NaN.
    - What differs between versions of pandas is a parameter
      ([pandas_library]): the texts that [to_datetime] reads as instants, and
      whether a column of strings has the [str] dtype (pandas 3), whose
      missing value is NaN, or the [object] dtype (pandas 2).
    - Strings are sequences of 8-bit code units.  For the JavaScript helpers
      this covers code units below 256, where [toLowerCase] never produces an
      ASCII letter from a non-ASCII one.
    - A JavaScript object is the finite map of its own properties, and a
      name it has no property for reads what [Object.prototype] has for it
      ([inherited_names]): a function, kept as the text it turns into.
    - A JavaScript number is an integer that a double holds exactly; the
      fractions are not represented. *)

From Stdlib Require Import ZArith QArith List String Ascii Decimal DecimalPos
  DecimalString Sorted Lia.
From stdpp Require Import gmap strings list.

Local Open Scope string_scope.
Local Open Scope Z_scope.

(** ** Python: exceptions and fallible calls *)

Inductive exn : Type :=
  | KeyError (key : string)
  | AttributeError (name : string)
  | IndexError
  | ZeroDivisionError
  | DateParseError (text : string)
  | OutOfBoundsDatetime
  | TypeError
  | SourceUnavailable (reason : string).

Inductive result (A : Type) : Type :=
  | Ok (a : A)
  | Raise (e : exn).
Arguments Ok {A} a.
Arguments Raise {A} e.

#[global] Instance result_ret : MRet result := fun A a => Ok a.
#[global] Instance result_bind : MBind result := fun A B f m =>
  match m with
  | Ok a => f a
  | Raise e => Raise e
  end.
#[global] Instance result_fmap : FMap result := fun A B f m =>
  match m with
  | Ok a => Ok (f a)
  | Raise e => Raise e
  end.

Definition is_Ok {A} (r : result A) : bool :=
  match r with Ok _ => true | Raise _ => false end.

(** ** Structured instants (the elements of a [datetime64[ns]] series) *)

Record instant : Type := mk_instant {
  year : Z; month : Z; day : Z;
  hour : Z; minute : Z; second : Z;
  nanosecond : Z
}.

#[global] Instance instant_eq_dec : EqDecision instant.
Proof. solve_decision. Defined.

Definition is_leap (y : Z) : bool :=
  (y mod 4 =? 0) && (negb (y mod 100 =? 0) || (y mod 400 =? 0)).

Definition days_in_month (y m : Z) : Z :=
  match m with
  | 1 | 3 | 5 | 7 | 8 | 10 | 12 => 31
  | 4 | 6 | 9 | 11 => 30
  | 2 => if is_leap y then 29 else 28
  | _ => 0
  end.

(** The instants a [datetime64[ns]] series can hold: a calendar date in the
    whole years inside the nanosecond range (1678 .. 2261), a time of day
    and a sub-second part in nanoseconds. *)
Definition valid_instant (t : instant) : bool :=
  (1678 <=? year t) && (year t <=? 2261)
  && (1 <=? month t) && (month t <=? 12)
  && (1 <=? day t) && (day t <=? days_in_month (year t) (month t))
  && (0 <=? hour t) && (hour t <=? 23)
  && (0 <=? minute t) && (minute t <=? 59)
  && (0 <=? second t) && (second t <=? 59)
  && (0 <=? nanosecond t) && (nanosecond t <=? 999999999).

(** The instant with its sub-second part dropped. *)
Definition floor_second (t : instant) : instant :=
  mk_instant (year t) (month t) (day t) (hour t) (minute t) (second t) 0.

(** The calendar date of an instant ([.dt.date]). *)
Definition date : Type := Z * Z * Z.
Definition date_of (t : instant) : date := (year t, month t, day t).

(** *** Decimal digits *)

Definition digit_char (d : Z) : ascii :=
  match d with
  | 0 => "0" | 1 => "1" | 2 => "2" | 3 => "3" | 4 => "4"
  | 5 => "5" | 6 => "6" | 7 => "7" | 8 => "8" | _ => "9"
  end%char.

Definition digit_val (c : ascii) : option Z :=
  (if Ascii.eqb c "0" then Some 0 else if Ascii.eqb c "1" then Some 1
   else if Ascii.eqb c "2" then Some 2 else if Ascii.eqb c "3" then Some 3
   else if Ascii.eqb c "4" then Some 4 else if Ascii.eqb c "5" then Some 5
   else if Ascii.eqb c "6" then Some 6 else if Ascii.eqb c "7" then Some 7
   else if Ascii.eqb c "8" then Some 8 else if Ascii.eqb c "9" then Some 9
   else None)%char.

Definition pad2 (n : Z) : list ascii :=
  [digit_char (n / 10 mod 10); digit_char (n mod 10)].

Definition pad4 (n : Z) : list ascii :=
  [digit_char (n / 1000 mod 10); digit_char (n / 100 mod 10);
   digit_char (n / 10 mod 10); digit_char (n mod 10)].

(** *** [strftime("%Y-%m-%dT%H:%M:%S")] (line 61) *)

Definition strftime_chars (t : instant) : list ascii :=
  pad4 (year t) ++ "-"%char :: pad2 (month t) ++ "-"%char :: pad2 (day t)
  ++ "T"%char :: pad2 (hour t) ++ ":"%char :: pad2 (minute t)
  ++ ":"%char :: pad2 (second t).

Definition strftime (t : instant) : string :=
  string_of_list_ascii (strftime_chars t).

(** *** Parsing ISO-8601 text, the fragment of [pd.to_datetime] on strings
    that is fixed by the standard:
    [YYYY-MM-DD], optionally followed by [T] or a space and [HH:MM:SS],
    optionally followed by [.] and one to nine fractional digits. *)

Fixpoint number (n : nat) (acc : Z) (cs : list ascii) : option (Z * list ascii) :=
  match n with
  | O => Some (acc, cs)
  | S n' =>
      match cs with
      | c :: cs' => d ← digit_val c; number n' (10 * acc + d) cs'
      | [] => None
      end
  end.

Definition expect (c : ascii) (cs : list ascii) : option (list ascii) :=
  match cs with
  | c' :: cs' => if Ascii.eqb c' c then Some cs' else None
  | [] => None
  end.

Definition fraction (cs : list ascii) : option Z :=
  match cs with
  | [] => Some 0
  | c :: ds =>
      if Ascii.eqb c "."%char then
        if (1 <=? length ds)%nat && (length ds <=? 9)%nat then
          '(v, rest) ← number (length ds) 0 ds;
          Some (v * 10 ^ (9 - Z.of_nat (length ds)))
        else None
      else None
  end.

Definition time_of_day (cs : list ascii) : option (Z * Z * Z * Z) :=
  match cs with
  | [] => Some (0, 0, 0, 0)
  | sep :: cs =>
      if Ascii.eqb sep "T"%char || Ascii.eqb sep " "%char then
        '(h, cs) ← number 2 0 cs;
        cs ← expect ":"%char cs;
        '(mi, cs) ← number 2 0 cs;
        cs ← expect ":"%char cs;
        '(s, cs) ← number 2 0 cs;
        ns ← fraction cs;
        Some (h, mi, s, ns)
      else None
  end.

Definition parse_iso8601 (s : string) : option instant :=
  let cs := list_ascii_of_string s in
  '(y, cs) ← number 4 0 cs;
  cs ← expect "-"%char cs;
  '(m, cs) ← number 2 0 cs;
  cs ← expect "-"%char cs;
  '(d, cs) ← number 2 0 cs;
  '(h, mi, sec, ns) ← time_of_day cs;
  let t := mk_instant y m d h mi sec ns in
  if valid_instant t then Some t else None.

(** ** Python objects in rows and columns *)

(** The scalars of a row of the record source and of a JSON record:
    [None], [float('nan')], booleans, integers, floats and strings. *)
Inductive pyobj : Type :=
  | PNone
  | PNaN
  | PBool (b : bool)
  | PInt (n : Z)
  | PFloat (q : Q)
  | PStr (s : string).

#[global] Instance Q_eq_dec : EqDecision Q.
Proof. solve_decision. Defined.
#[global] Instance pyobj_eq_dec : EqDecision pyobj.
Proof. solve_decision. Defined.

(** [pd.notnull] on a Python object. *)
Definition notnull (x : pyobj) : bool :=
  match x with
  | PNone | PNaN => false
  | _ => true
  end.

(** A row of the record source, and a record of [to_dict(orient="records")]:
    a Python [dict], in insertion order. *)
Definition record : Type := list (string * pyobj).

Definition dict_get (r : record) (k : string) : option pyobj :=
  snd <$> List.find (fun kv => String.eqb (fst kv) k) r.

(** ** DataFrames *)

Inductive series : Type :=
  | ObjectSeries (values : list pyobj)
  | DatetimeSeries (values : list (option instant)).   (* [None] is [NaT] *)

Record DataFrame : Type := mk_DataFrame {
  nrows : nat;
  columns : list (string * series)
}.

Definition column_names (df : DataFrame) : list string := (columns df).*1.

(** [pd.DataFrame(rows)] for a list of dicts: the columns are the keys in
    order of first appearance, a key missing from a row reads as NaN, and
    each column gets the dtype that the constructor infers from its
    objects. *)
Definition add_key (acc : list string) (k : string) : list string :=
  if existsb (String.eqb k) acc then acc else acc ++ [k].

Definition keys_union (rows : list record) : list string :=
  foldl (fun acc r => foldl add_key acc (r.*1)) [] rows.

Definition column_of (rows : list record) (c : string) : list pyobj :=
  List.map (fun r => default PNaN (dict_get r c)) rows.

(** What the constructor makes of the objects of one column.  A column of
    numbers and nulls becomes [float64], its integers floats and its nulls
    NaN, unless it holds integers only ([int64]) or [None] only ([object]);
    every other column keeps its objects.  The elements of a numeric column
    are kept as the Python objects that [to_dict] gives back for them. *)
Definition is_int (x : pyobj) : bool :=
  match x with PInt _ => true | _ => false end.

Definition is_None (x : pyobj) : bool :=
  match x with PNone => true | _ => false end.

Definition is_str (x : pyobj) : bool :=
  match x with PStr _ => true | _ => false end.

Definition number_or_null (x : pyobj) : bool :=
  match x with
  | PInt _ | PFloat _ | PNaN | PNone => true
  | _ => false
  end.

Definition float64_column (v : list pyobj) : bool :=
  forallb number_or_null v && negb (forallb is_int v) && negb (forallb is_None v).

Definition to_float (x : pyobj) : pyobj :=
  match x with
  | PInt n => PFloat (inject_Z n)
  | PNone => PNaN
  | _ => x
  end.

Definition infer_objects (v : list pyobj) : list pyobj :=
  if float64_column v then List.map to_float v else v.

Definition pd_DataFrame (rows : list record) : DataFrame :=
  {| nrows := length rows;
     columns := List.map (fun c => (c, ObjectSeries (infer_objects (column_of rows c))))
                         (keys_union rows) |}.

(** [df[name]] and [df[name] = s]. *)
Definition getitem (df : DataFrame) (name : string) : result series :=
  match List.find (fun cs => String.eqb (fst cs) name) (columns df) with
  | Some cs => Ok (snd cs)
  | None => Raise (KeyError name)
  end.

Definition setitem (df : DataFrame) (name : string) (s : series) : DataFrame :=
  {| nrows := nrows df;
     columns := List.map (fun cs => if String.eqb (fst cs) name
                                    then (fst cs, s) else cs) (columns df) |}.

(** ** Schema normalizer *)

Record pandas_library : Type := mk_pandas_library {
  infer_datetime : pyobj -> option (option instant);
  infer_string : bool
}.

(** A column of strings and nulls with at least one string: the columns
    that pandas 3 keeps in the [str] dtype. *)
Definition str_column (v : list pyobj) : bool :=
  forallb (fun x => is_str x || negb (notnull x)) v && existsb is_str v.

(** What [where(cond, None)] leaves in place of a null: NaN in a [float64]
    column and in a [str] column, which cannot hold [None], and [None]
    among Python objects. *)
Definition na_value (str_dtype : bool) (v : list pyobj) : pyobj :=
  if float64_column v then PNaN
  else if str_dtype && str_column v then PNaN
  else PNone.

(** The null of a column of strings. *)
Definition string_na (str_dtype : bool) : pyobj :=
  if str_dtype then PNaN else PNone.

Definition fillna (na : pyobj) (v : list pyobj) : list pyobj :=
  List.map (fun x => if notnull x then x else na) v.

Section Normalizer.

(** The pandas library that the process runs on, as far as the source does
    not fix it.
    - [infer_datetime]: what [pd.to_datetime] makes of an object that is
      neither null nor an ISO-8601 string (other textual layouts, epoch
      numbers, the texts it reads as NaT such as ["NaT"] and ["nan"]):
      [Some (Some t)] is the instant read, [Some None] is NaT, and [None]
      says that the object cannot be read.
    - [infer_string]: whether a column of strings is kept in the [str]
      dtype, as pandas 3 does, or among the Python objects, as pandas 2
      does; the missing value of the former is NaN. *)
Variable pd : pandas_library.

Definition infer_instant (x : pyobj) (text : string) : result (option instant) :=
  match infer_datetime pd x with
  | Some (Some t) =>
      if valid_instant t then Ok (Some t) else Raise OutOfBoundsDatetime
  | Some None => Ok None
  | None => Raise (DateParseError text)
  end.

(** [pd.to_datetime] on one element, with the default [errors="raise"].
    The elements are read one by one; that pandas 2 and later also refuse a
    column whose texts do not share the layout of its first text is not
    represented. *)
Definition to_datetime_obj (x : pyobj) : result (option instant) :=
  match x with
  | PNone | PNaN => Ok None
  | PStr s =>
      if String.eqb s "" then Ok None
      else match parse_iso8601 s with
           | Some t => Ok (Some t)
           | None => infer_instant x s
           end
  | _ => infer_instant x ""
  end.

Fixpoint to_datetime_list (xs : list pyobj) : result (list (option instant)) :=
  match xs with
  | [] => Ok []
  | x :: xs' =>
      t ← to_datetime_obj x;
      ts ← to_datetime_list xs';
      Ok (t :: ts)
  end.

(** [pd.to_datetime(series)]: every element is converted, the first
    element that cannot be converted raises. *)
Definition to_datetime (s : series) : result series :=
  match s with
  | DatetimeSeries v => Ok (DatetimeSeries v)
  | ObjectSeries v => DatetimeSeries <$> to_datetime_list v
  end.

(** Lines 52-55. *)
Definition _parse_timestamp (df : DataFrame) : result DataFrame :=
  if existsb (String.eqb "Timestamp") (column_names df) then
    col ← getitem df "Timestamp";
    parsed ← to_datetime col;
    Ok (setitem df "Timestamp" parsed)
  else Ok df.

(** Lines 59-61: a datetime column becomes a column of strings, NaT
    becoming NaN; any other column is kept. *)
Definition strftime_series (s : series) : list pyobj :=
  match s with
  | ObjectSeries v => v
  | DatetimeSeries v =>
      List.map (fun o => match o with
                         | Some t => PStr (strftime t)
                         | None => PNaN
                         end) v
  end.

(** Lines 59-62 on one column: a datetime column is rendered by [strftime]
    into a column of strings, and [df.where(pd.notnull(df), None)]
    replaces the nulls of every column. *)
Definition where_notnull (str_dtype : bool) (s : series) : list pyobj :=
  match s with
  | ObjectSeries v => fillna (na_value str_dtype v) v
  | DatetimeSeries _ => fillna (string_na str_dtype) (strftime_series s)
  end.

(** Line 62, [to_dict(orient="records")]. *)
Definition to_dict_records (n : nat) (cols : list (string * list pyobj))
  : list record :=
  List.map (fun i => List.map (fun cv => (fst cv, nth i (snd cv) PNaN)) cols)
           (seq 0 n).

(** Lines 57-62. *)
Definition _df_to_records (df : DataFrame) : list record :=
  to_dict_records (nrows df)
    (List.map (fun cs => (fst cs, where_notnull (infer_string pd) (snd cs)))
              (columns df)).

(** The normalizer end to end, from rows to wire records: the frame is
    built from the rows (lines 65, 69), its timestamps are parsed
    (lines 66, 70) and it is rendered (lines 161, 166). *)
Definition normalize (rows : list record) : result (list record) :=
  df ← _parse_timestamp (pd_DataFrame rows);
  Ok (_df_to_records df).

End Normalizer.

(** ** The in-memory cache (lines 72-91) *)

(** A DataFrame object on the Python heap: its identity and its content.
    The content of a cached frame is never written after it is stored
    ([_df_to_records] works on a copy), so an object is the pair of both,
    and two references denote the identical object exactly when they are
    equal. *)
Record object : Type := mk_object { id : nat; value : DataFrame }.

(** What the cache does not own: the allocator of the heap and the record
    source, of which [requests] counts the fetches made so far. *)
Record World : Type := mk_World { next_id : nat; requests : nat }.

(** One entry of [_cache]: [{"ts": ..., "data": ...}]; [data] is [None] or a
    reference to a frame. *)
Record entry : Type := mk_entry { ts : Q; data : option object }.

(** The state of the process seen by [_get_cached]: the dictionary [_cache]
    and the rest of the world.  [loader_calls] is a ghost counter of the
    calls [loader()] made at line 83. *)
Record state : Type := mk_state {
  _cache : gmap string entry;
  world : World;
  loader_calls : nat
}.

(** A loader: a call that returns a Python value ([None] or a frame) or
    raises, and acts on the world but not on [_cache]. *)
Definition Loader : Type := World -> result (option object) * World.

(** Lines 74-77. *)
Definition initial_cache : gmap string entry :=
  <["users_master" := mk_entry 0 None]>
    (<["subscriptions" := mk_entry 0 None]> ∅).

Definition initial_state : state :=
  mk_state initial_cache (mk_World 0 0) 0.

Section Cache.

(** Line 73, [int(os.getenv("CACHE_TTL_SECONDS", "600"))]. *)
Variable CACHE_TTL_SECONDS : Z.

(** Line 82, [(now - entry["ts"]) > CACHE_TTL_SECONDS]. *)
Definition expired (now : Q) (e : entry) : bool :=
  negb (Qle_bool (now - ts e) (inject_Z CACHE_TTL_SECONDS)).

(** Line 82, the whole condition. *)
Definition needs_refresh (now : Q) (e : entry) : bool :=
  match data e with
  | None => true
  | Some _ => expired now e
  end.

(** Lines 79-85; [now] is the value of [time.time()] at line 80. *)
Definition _get_cached (key : string) (loader : Loader) (now : Q) (st : state)
  : result (option object) * state :=
  match _cache st !! key with
  | None => (Raise (KeyError key), st)
  | Some e =>
      if needs_refresh now e then
        match loader (world st) with
        | (Raise x, w) =>
            (Raise x, mk_state (_cache st) w (S (loader_calls st)))
        | (Ok v, w) =>
            (Ok v, mk_state (<[key := mk_entry now v]> (_cache st)) w
                            (S (loader_calls st)))
        end
      else (Ok (data e), st)
  end.

(** The record source: the answer of a worksheet to its [n]-th request,
    the rows of [get_all_records()] or a failure. *)
Variable get_all_records : string -> nat -> result (list record).
Variable pd : pandas_library.

(** Lines 64-70: fetch the rows, build the frame, parse its timestamps. *)
Definition load_sheet (sheet : string) : Loader := fun w =>
  let w' := mk_World (next_id w) (S (requests w)) in
  match get_all_records sheet (requests w) with
  | Raise x => (Raise x, w')
  | Ok rows =>
      match _parse_timestamp pd (pd_DataFrame rows) with
      | Raise x => (Raise x, w')
      | Ok df => (Ok (Some (mk_object (next_id w) df)),
                  mk_World (S (next_id w)) (S (requests w)))
      end
  end.

Definition load_users_master : Loader := load_sheet "USERS_MASTER".
Definition load_subscriptions : Loader := load_sheet "SUBSCRIPTIONS".

(** Lines 87-91. *)
Definition get_users_master (now : Q) (st : state) :=
  _get_cached "users_master" load_users_master now st.
Definition get_subscriptions (now : Q) (st : state) :=
  _get_cached "subscriptions" load_subscriptions now st.

End Cache.

(** The record sequence of a cached value: no rows when it is absent. *)
Definition snapshot_rows (v : option object) : nat :=
  match v with
  | Some o => nrows (value o)
  | None => O
  end.

(** ** Aggregation over a frame (lines 104-156) *)

(** [df.name]: the column as an attribute. *)
Definition getattr (df : DataFrame) (name : string) : result series :=
  match List.find (fun cs => String.eqb (fst cs) name) (columns df) with
  | Some cs => Ok (snd cs)
  | None => Raise (AttributeError name)
  end.

(** Python [==] on the scalars of a column. *)
Definition numeric_value (x : pyobj) : option Q :=
  match x with
  | PBool b => Some (if b then 1%Q else 0%Q)
  | PInt n => Some (inject_Z n)
  | PFloat q => Some q
  | _ => None
  end.

Definition py_eq (x y : pyobj) : bool :=
  match x, y with
  | PStr a, PStr b => String.eqb a b
  | PNone, PNone => true
  | _, _ =>
      match numeric_value x, numeric_value y with
      | Some a, Some b => Qeq_bool a b
      | _, _ => false
      end
  end.

(** [series == "text"]: the boolean mask. *)
Definition series_eq_str (s : series) (text : string) : list bool :=
  match s with
  | ObjectSeries v => List.map (fun x => py_eq x (PStr text)) v
  | DatetimeSeries v => List.map (fun _ => false) v
  end.

Fixpoint mask_filter {A} (mask : list bool) (xs : list A) : list A :=
  match mask, xs with
  | b :: mask', x :: xs' =>
      if b then x :: mask_filter mask' xs' else mask_filter mask' xs'
  | _, _ => []
  end.

Definition series_filter (mask : list bool) (s : series) : series :=
  match s with
  | ObjectSeries v => ObjectSeries (mask_filter mask v)
  | DatetimeSeries v => DatetimeSeries (mask_filter mask v)
  end.

(** [df[mask]]. *)
Definition df_filter (df : DataFrame) (mask : list bool) : DataFrame :=
  {| nrows := length (mask_filter mask (seq 0 (nrows df)));
     columns := List.map (fun cs => (fst cs, series_filter mask (snd cs)))
                         (columns df) |}.

Fixpoint dedup_by {A} (eqb : A -> A -> bool) (xs : list A) : list A :=
  match xs with
  | [] => []
  | x :: xs' =>
      let r := dedup_by eqb xs' in
      if existsb (eqb x) r then r else x :: r
  end.

(** [series.nunique()]: the number of distinct values that are not null. *)
Definition nunique (s : series) : Z :=
  match s with
  | ObjectSeries v =>
      Z.of_nat (length (dedup_by py_eq (List.filter notnull v)))
  | DatetimeSeries v =>
      Z.of_nat (length (dedup_by (fun a b => bool_decide (a = b))
                                 (omap (fun o => o) v)))
  end.

(** A Python float that is the value of an arithmetic expression over
    integers.  The expression is kept; binary floating point is not
    evaluated. *)
Inductive pyfloat : Type :=
  | FDiv (a b : Z)                       (* [a / b], with [b] not zero *)
  | FMul (x : pyfloat) (k : Z)           (* [x * k] *)
  | FRound (x : pyfloat) (ndigits : Z).  (* [round(x, ndigits)] *)

(** [a / b] on Python integers. *)
Definition true_div (a b : Z) : result pyfloat :=
  if b =? 0 then Raise ZeroDivisionError else Ok (FDiv a b).

Record Summary : Type := mk_Summary {
  total : Z; completed : Z; verified : Z; conversion : pyfloat
}.

(** Lines 107-115, on the frame returned by [get_users_master()]. *)
Definition summary_of (df : DataFrame) : result Summary :=
  ids ← getattr df "TelegramUserID";
  let total := nunique ids in
  st ← getattr df "RegistrationStatus";
  done_ids ← getattr (df_filter df (series_eq_str st "Completed")) "TelegramUserID";
  let completed := nunique done_ids in
  ev ← getattr df "EmailVerified";
  ver_ids ← getattr (df_filter df (series_eq_str ev "Yes")) "TelegramUserID";
  let verified := nunique ver_ids in
  ratio ← true_div completed total;
  Ok (mk_Summary total completed verified (FRound (FMul ratio 100) 2)).

(** The frame behind the value returned by the cache; [None] has no
    attribute. *)
Definition frame_of (first_attr : string) (v : option object) : result DataFrame :=
  match v with
  | Some o => Ok (value o)
  | None => Raise (AttributeError first_attr)
  end.

(** *** Rows of a frame, sorting, [iloc] *)

Inductive cell : Type :=
  | CObj (x : pyobj)
  | CTime (t : option instant).

Definition cell_at (s : series) (i : nat) : cell :=
  match s with
  | ObjectSeries v => CObj (nth i v PNaN)
  | DatetimeSeries v => CTime (nth i v None)
  end.

Definition row : Type := list (string * cell).

Definition row_at (df : DataFrame) (i : nat) : row :=
  List.map (fun cs => (fst cs, cell_at (snd cs) i)) (columns df).

(** [row.name] on a row (a pandas Series indexed by the column names). *)
Definition row_getattr (r : row) (name : string) : result cell :=
  match List.find (fun kv => String.eqb (fst kv) name) r with
  | Some kv => Ok (snd kv)
  | None => Raise (AttributeError name)
  end.

(** [df.iloc[-1]]. *)
Definition iloc_last (df : DataFrame) : result row :=
  match nrows df with
  | O => Raise IndexError
  | S n => Ok (row_at df n)
  end.

Fixpoint lex_leb (xs ys : list Z) : bool :=
  match xs, ys with
  | x :: xs', y :: ys' => (x <? y) || ((x =? y) && lex_leb xs' ys')
  | _, _ => true
  end.

Definition instant_fields (t : instant) : list Z :=
  [year t; month t; day t; hour t; minute t; second t; nanosecond t].

(** The order of a datetime column: by instant, NaT last. *)
Definition key_leb (a b : option instant) : bool :=
  match a, b with
  | Some x, Some y => lex_leb (instant_fields x) (instant_fields y)
  | Some _, None => true
  | None, Some _ => false
  | None, None => true
  end.

Fixpoint insert_key (x : option instant * nat) (l : list (option instant * nat))
  : list (option instant * nat) :=
  match l with
  | [] => [x]
  | y :: l' =>
      if key_leb (fst y) (fst x) then y :: insert_key x l' else x :: l
  end.

(** The positions of the rows in ascending order of a datetime key; rows
    with equal keys keep their order (pandas' default sort does not promise
    an order among them). *)
Definition argsort_datetime (keys : list (option instant)) : list nat :=
  (foldl (fun acc x => insert_key x acc) []
         (zip keys (seq 0 (length keys)))).*2.

Definition series_take (idx : list nat) (s : series) : series :=
  match s with
  | ObjectSeries v => ObjectSeries (List.map (fun i => nth i v PNaN) idx)
  | DatetimeSeries v => DatetimeSeries (List.map (fun i => nth i v None) idx)
  end.

Definition df_take (idx : list nat) (df : DataFrame) : DataFrame :=
  {| nrows := length idx;
     columns := List.map (fun cs => (fst cs, series_take idx (snd cs)))
                         (columns df) |}.

Definition date_ltb (a b : date) : bool :=
  let '(y1, m1, d1) := a in
  let '(y2, m2, d2) := b in
  negb (lex_leb [y2; m2; d2] [y1; m1; d1]).

Fixpoint count_date (d : date) (acc : list (date * Z)) : list (date * Z) :=
  match acc with
  | [] => [(d, 1)]
  | (d', n) :: rest =>
      if bool_decide (d = d') then (d', n + 1) :: rest
      else if date_ltb d d' then (d, 1) :: acc
      else (d', n) :: count_date d rest
  end.

(** [groupby(dates).size().to_dict()]: the rows per date in ascending order
    of date, rows without a date left out. *)
Definition groupby_size (dates : list (option date)) : list (date * Z) :=
  foldl (fun acc od => match od with
                       | Some d => count_date d acc
                       | None => acc
                       end) [] dates.

Record Profile : Type := mk_Profile {
  name : cell; email : cell; status : cell; plan : cell; risk : cell
}.

Record UserData : Type := mk_UserData {
  profile : Profile;
  timeline : list (date * Z)
}.

Section Endpoints.

(** The positions that sort a column of Python objects, or the
    [TypeError] of an incomparable pair: a behaviour of pandas that the
    source does not fix. *)
Variable argsort_objects : list pyobj -> result (list nat).

(** [df.sort_values(by)]. *)
Definition sort_values (df : DataFrame) (by_ : string) : result DataFrame :=
  key ← getitem df by_;
  idx ← match key with
        | DatetimeSeries v => Ok (argsort_datetime v)
        | ObjectSeries v => argsort_objects v
        end;
  Ok (df_take idx df).

(** [series.dt.date]. *)
Definition dt_date (s : series) : result (list (option date)) :=
  match s with
  | DatetimeSeries v => Ok (List.map (fmap date_of) v)
  | ObjectSeries _ => Raise (AttributeError "dt")
  end.

(** Lines 145-156, on the frame returned by [get_users_master()]. *)
Definition user_data_of (df : DataFrame) (username : string) : result UserData :=
  names ← getattr df "TelegramUsername";
  let u := df_filter df (series_eq_str names username) in
  sorted ← sort_values u "Timestamp";
  last ← iloc_last sorted;
  p_name ← row_getattr last "FullName";
  p_email ← row_getattr last "Email";
  p_status ← row_getattr last "RegistrationStatus";
  p_plan ← row_getattr last "InvestmentPlanSelected";
  p_risk ← row_getattr last "RiskOptionSelected";
  stamps ← getattr u "Timestamp";
  dates ← dt_date stamps;
  Ok (mk_UserData (mk_Profile p_name p_email p_status p_plan p_risk)
                  (groupby_size dates)).

Variable CACHE_TTL_SECONDS : Z.
Variable get_all_records : string -> nat -> result (list record).
Variable pd : pandas_library.

(** Lines 104-115, the endpoint [/summary]. *)
Definition summary (now : Q) (st : state) : result Summary * state :=
  let '(r, st') :=
    get_users_master CACHE_TTL_SECONDS get_all_records pd now st in
  (v ← r; df ← frame_of "TelegramUserID" v; summary_of df, st').

(** Lines 142-156, the endpoint [/user/{username}]. *)
Definition user_data (username : string) (now : Q) (st : state)
  : result UserData * state :=
  let '(r, st') :=
    get_users_master CACHE_TTL_SECONDS get_all_records pd now st in
  (v ← r; df ← frame_of "TelegramUsername" v; user_data_of df username, st').

End Endpoints.

(** ** The dashboard script (lines 533-678) *)

(** The names of the properties that every JS object inherits from
    [Object.prototype].  An object of the script is the map of its own
    properties; [o[name]] reads the property of [o], and what [o] inherits
    when it has none and [name] is one of these. *)
Definition inherited_names : list string :=
  ["constructor"; "hasOwnProperty"; "isPrototypeOf"; "propertyIsEnumerable";
   "toLocaleString"; "toString"; "valueOf"; "__proto__";
   "__defineGetter__"; "__defineSetter__"; "__lookupGetter__";
   "__lookupSetter__"].

Module JS.

(** The values of a JSON record.  Numbers are the integers that a double
    holds exactly and prints in full (up to 2^53 in absolute value), whose
    string conversion is the decimal numeral; fractions and larger numbers
    are not represented. *)
Inductive value : Type :=
  | Undefined
  | Null
  | Bool (b : bool)
  | Num (n : Z)
  | Str (s : string).

(** A JSON object: its own properties in the order of [Object.keys]. *)
Definition obj : Type := list (string * value).

(** What [o[name]] is when the object [o] has no property [name] of its own
    but inherits one: a function, or for ["__proto__"] the prototype object.
    The script only ever turns such a value into a string ([String(..)],
    [.. + 1], a property key), so it is kept as that text; the text of a
    function is the engine's, the one of V8 is taken. *)
Definition inherited_text (name : string) : string :=
  if String.eqb name "__proto__" then "[object Object]"
  else "function "
       ++ (if String.eqb name "constructor" then "Object" else name)
       ++ "() { [native code] }".

(** [o[name]] where [o] has no property [name] of its own. *)
Definition inherited (name : string) : value :=
  if bool_decide (name ∈ inherited_names) then Str (inherited_text name)
  else Undefined.

(** [r[col]]. *)
Definition get (r : obj) (col : string) : value :=
  match List.find (fun kv => String.eqb (fst kv) col) r with
  | Some kv => snd kv
  | None => inherited col
  end.

(** [String(v)]. *)
Definition String_ (v : value) : string :=
  match v with
  | Undefined => "undefined"
  | Null => "null"
  | Bool true => "true"
  | Bool false => "false"
  | Num n => NilZero.string_of_int (Z.to_int n)
  | Str s => s
  end.

(** [toLowerCase] on a code unit below 256: the ASCII capitals and the
    Latin-1 capitals (U+00C0 .. U+00DE without U+00D7) move by 32. *)
Definition to_lower (c : ascii) : ascii :=
  let n := nat_of_ascii c in
  if ((65 <=? n) && (n <=? 90))%nat
     || ((192 <=? n) && (n <=? 222) && negb (n =? 215))%nat
  then ascii_of_nat (n + 32) else c.

Definition toLowerCase (s : string) : string :=
  string_of_list_ascii (List.map to_lower (list_ascii_of_string s)).

(** The class [[a-z0-9]]. *)
Definition is_a_z_0_9 (c : ascii) : bool :=
  let n := nat_of_ascii c in
  (((97 <=? n) && (n <=? 122)) || ((48 <=? n) && (n <=? 57)))%nat.

(** Lines 538-540, [String(key).toLowerCase().replace(/[^a-z0-9]/g, "")]. *)
Definition normalizeKey (key : string) : string :=
  string_of_list_ascii
    (List.filter is_a_z_0_9 (list_ascii_of_string (toLowerCase key))).

(** Line 546, [keys.forEach(k => { map[normalizeKey(k)] = k; })]. *)
Definition key_map (keys : list string) : gmap string string :=
  foldl (fun m k => <[normalizeKey k := k]> m) ∅ keys.

(** Lines 547-551; [if (hit)] holds for a string that is not empty and for
    an inherited value. *)
Fixpoint first_hit (m : gmap string string) (candidates : list string)
  : option string :=
  match candidates with
  | [] => None
  | c :: rest =>
      match m !! normalizeKey c with
      | Some hit => if String.eqb hit "" then first_hit m rest else Some hit
      | None =>
          if bool_decide (normalizeKey c ∈ inherited_names)
          then Some (inherited_text (normalizeKey c))
          else first_hit m rest
      end
  end.

(** Lines 542-552; [None] is [null]. *)
Definition findColumn (rows : list obj) (candidates : list string)
  : option string :=
  match rows with
  | [] => None
  | row0 :: _ => first_hit (key_map (row0.*1)) candidates
  end.

(** White space and line terminators of [trim], among the code units
    below 256. *)
Definition is_space (c : ascii) : bool :=
  let n := nat_of_ascii c in
  (((9 <=? n) && (n <=? 13)) || (n =? 32) || (n =? 160))%nat.

Fixpoint trim_start (cs : list ascii) : list ascii :=
  match cs with
  | c :: cs' => if is_space c then trim_start cs' else cs
  | [] => []
  end.

Definition trim (s : string) : string :=
  string_of_list_ascii
    (rev (trim_start (rev (trim_start (list_ascii_of_string s))))).

(** Line 572, [String(raw ?? "Unknown").trim() || "Unknown"]. *)
Definition group_key (raw : value) : string :=
  let v := match raw with
           | Undefined | Null => Str "Unknown"
           | _ => raw
           end in
  let k := trim (String_ v) in
  if String.eqb k "" then "Unknown" else k.

(** [(old || 0) + 1], where [old] is what [counts[key]] reads.  [||] keeps
    a value that is truthy; [+] adds numbers and appends to a string. *)
Definition plus_one (old : value) : value :=
  match old with
  | Undefined | Null | Bool false => Num 1
  | Bool true => Num 2
  | Num n => Num ((if n =? 0 then 0 else n) + 1)
  | Str s => if String.eqb s "" then Num 1 else Str (s ++ "1")
  end.

(** Line 573, [counts[key] = (counts[key] || 0) + 1], on the object [counts]
    that line 569 creates as [{}].  The read finds the property of [counts]
    or the one it inherits; the write creates or replaces the property of
    [counts], except for ["__proto__"], whose inherited setter ignores a
    number or a string. *)
Definition bump (counts : gmap string value) (key : string)
  : gmap string value :=
  let old := match counts !! key with
             | Some v => v
             | None => inherited key
             end in
  if String.eqb key "__proto__" then counts
  else <[key := plus_one old]> counts.

(** Lines 567-576; [col] is a column name or [null], and [!col] holds for
    [null] and for the empty string. *)
Definition groupCounts (rows : list obj) (col : option string)
  : option (gmap string value) :=
  match col with
  | None => None
  | Some c =>
      if String.eqb c "" then None
      else Some (foldl (fun counts r => bump counts (group_key (get r c)))
                       ∅ rows)
  end.

(** Line 653, the conversion shown by the dashboard: the text ["--"] when
    there is no user, else the percentage with one decimal. *)
Inductive conversion_text : Type :=
  | Dashes
  | Percent (completed totalUsers : Z).

Definition conversion (completed totalUsers : Z) : conversion_text :=
  if totalUsers =? 0 then Dashes else Percent completed totalUsers.

End JS.

(** ** Process configuration (lines 14-22) *)

(** White space of [str.strip()], among the code units below 256. *)
Definition py_isspace (c : ascii) : bool :=
  let n := nat_of_ascii c in
  (((9 <=? n) && (n <=? 13)) || ((28 <=? n) && (n <=? 32))
   || (n =? 133) || (n =? 160))%nat.

Fixpoint lstrip (cs : list ascii) : list ascii :=
  match cs with
  | c :: cs' => if py_isspace c then lstrip cs' else cs
  | [] => []
  end.

(** [o.strip()]. *)
Definition strip (cs : list ascii) : list ascii :=
  rev (lstrip (rev (lstrip cs))).

(** [text.split(",")]: the pieces between the commas, empty ones
    included. *)
Fixpoint split_commas (cs : list ascii) : list (list ascii) :=
  match cs with
  | [] => [[]]
  | c :: cs' =>
      match split_commas cs' with
      | piece :: pieces =>
          if Ascii.eqb c ","%char then [] :: piece :: pieces
          else (c :: piece) :: pieces
      | [] => [[c]]
      end
  end.

(** Lines 15 and 18: [os.getenv("CORS_ORIGINS", "*").split(",")] and
    [[o.strip() for o in cors_origins if o.strip()]]; the argument is the
    value of the environment variable, [None] when it is not set. *)
Definition allow_origins (env : option string) : list string :=
  let text := default "*" env in
  List.map (fun o => string_of_list_ascii (strip o))
    (List.filter (fun o => negb (bool_decide (strip o = [])))
                 (split_commas (list_ascii_of_string text))).

(** ** The remaining endpoints (lines 117-140 and 158-173) *)

Definition series_cells (s : series) : list cell :=
  match s with
  | ObjectSeries v => List.map CObj v
  | DatetimeSeries v => List.map CTime v
  end.

(** [pd.notnull] and [==] on the elements of any series. *)
Definition cell_notnull (c : cell) : bool :=
  match c with
  | CObj x => notnull x
  | CTime t => bool_decide (t <> None)
  end.

Definition cell_eq (a b : cell) : bool :=
  match a, b with
  | CObj x, CObj y => py_eq x y
  | CTime s, CTime t => bool_decide (s = t)
  | _, _ => false
  end.

(** The distinct elements in order of first appearance. *)
Fixpoint unique_from {A} (eqb : A -> A -> bool) (seen xs : list A) : list A :=
  match xs with
  | [] => []
  | x :: xs' =>
      if existsb (eqb x) seen then unique_from eqb seen xs'
      else x :: unique_from eqb (x :: seen) xs'
  end.

(** [series.dropna().unique().tolist()]. *)
Definition dropna_unique (s : series) : list cell :=
  unique_from cell_eq [] (List.filter cell_notnull (series_cells s)).

(** Line 140, on the frame returned by [get_users_master()]. *)
Definition users_list_of (df : DataFrame) : result (list cell) :=
  names ← getattr df "TelegramUsername";
  Ok (dropna_unique names).

(** The order in which [groupby] lists its groups: numbers by value, then
    strings by their code units, instants by time. *)
Definition obj_rank (x : pyobj) : Z :=
  match x with
  | PBool _ | PInt _ | PFloat _ => 0
  | PStr _ => 1
  | _ => 2
  end.

Definition obj_leb (x y : pyobj) : bool :=
  match numeric_value x, numeric_value y with
  | Some a, Some b => Qle_bool a b
  | _, _ =>
      match x, y with
      | PStr a, PStr b => String.leb a b
      | _, _ => obj_rank x <=? obj_rank y
      end
  end.

Definition cell_leb (a b : cell) : bool :=
  match a, b with
  | CObj x, CObj y => obj_leb x y
  | CTime s, CTime t => key_leb s t
  | CObj _, CTime _ => true
  | CTime _, CObj _ => false
  end.

Fixpoint insert_group (g : cell) (l : list cell) : list cell :=
  match l with
  | [] => [g]
  | h :: l' => if cell_leb g h then g :: l else h :: insert_group g l'
  end.

Definition sort_groups (l : list cell) : list cell := foldr insert_group [] l.

(** [groupby(by)[col].nunique()]: for each value of the key column that is
    not null, the number of distinct values of the other column in the rows
    that have it.  The groups are listed in the order of their keys. *)
Definition group_nunique (keys ids : series) : list (cell * Z) :=
  let ks := series_cells keys in
  List.map (fun g => (g, nunique (series_filter (List.map (cell_eq g) ks) ids)))
           (sort_groups (unique_from cell_eq [] (List.filter cell_notnull ks))).

Fixpoint insert_desc (x : cell * Z) (l : list (cell * Z)) : list (cell * Z) :=
  match l with
  | [] => [x]
  | y :: l' => if snd x <=? snd y then y :: insert_desc x l' else x :: l
  end.

(** [sort_values(ascending=False)] on the counts.  Groups with equal counts
    are left in the order of their keys, as a stable sort leaves them; the
    default sort of the library does not promise an order among them. *)
Definition sort_desc (l : list (cell * Z)) : list (cell * Z) :=
  foldl (fun acc x => insert_desc x acc) [] l.

(** Lines 119-125 and 129-135, on the frame returned by
    [get_users_master()]; [by_] is ["InvestmentPlanSelected"] in [plans] and
    ["RiskOptionSelected"] in [risks]. *)
Definition completed_by (by_ : string) (df : DataFrame) : result (list (cell * Z)) :=
  st ← getattr df "RegistrationStatus";
  let done := df_filter df (series_eq_str st "Completed") in
  keys ← getitem done by_;
  ids ← getattr done "TelegramUserID";
  Ok (sort_desc (group_nunique keys ids)).

Definition plans_of : DataFrame -> result (list (cell * Z)) :=
  completed_by "InvestmentPlanSelected".
Definition risks_of : DataFrame -> result (list (cell * Z)) :=
  completed_by "RiskOptionSelected".

(** [_df_to_records(df)] on the value returned by the cache; [None] has no
    method [copy]. *)
Definition records_of (pd : pandas_library) (v : option object)
  : result (list record) :=
  match v with
  | Some o => Ok (_df_to_records pd (value o))
  | None => Raise (AttributeError "copy")
  end.

Section MoreEndpoints.

Variable CACHE_TTL_SECONDS : Z.
Variable get_all_records : string -> nat -> result (list record).
Variable pd : pandas_library.

(** Lines 137-140, the endpoint [/users-list]. *)
Definition users_list (now : Q) (st : state) : result (list cell) * state :=
  let '(r, st') :=
    get_users_master CACHE_TTL_SECONDS get_all_records pd now st in
  (v ← r; df ← frame_of "TelegramUsername" v; users_list_of df, st').

(** Lines 117-125 and 127-135, the endpoints [/plans] and [/risks]. *)
Definition plans (now : Q) (st : state) : result (list (cell * Z)) * state :=
  let '(r, st') :=
    get_users_master CACHE_TTL_SECONDS get_all_records pd now st in
  (v ← r; df ← frame_of "RegistrationStatus" v; plans_of df, st').

Definition risks (now : Q) (st : state) : result (list (cell * Z)) * state :=
  let '(r, st') :=
    get_users_master CACHE_TTL_SECONDS get_all_records pd now st in
  (v ← r; df ← frame_of "RegistrationStatus" v; risks_of df, st').

(** Lines 158-166, the endpoints [/users-master] and [/subscriptions]. *)
Definition users_master (now : Q) (st : state) : result (list record) * state :=
  let '(r, st') :=
    get_users_master CACHE_TTL_SECONDS get_all_records pd now st in
  (v ← r; records_of pd v, st').

Definition subscriptions (now : Q) (st : state) : result (list record) * state :=
  let '(r, st') :=
    get_subscriptions CACHE_TTL_SECONDS get_all_records pd now st in
  (v ← r; records_of pd v, st').

(** Lines 168-173, the endpoint [/data]: the two datasets are read one after
    the other, each with its own reading of the clock; when the first one
    raises, the second one is not read. *)
Definition all_data (now1 now2 : Q) (st : state)
  : result (list record * list record) * state :=
  match users_master now1 st with
  | (Raise e, st1) => (Raise e, st1)
  | (Ok users, st1) =>
      match subscriptions now2 st1 with
      | (Raise e, st2) => (Raise e, st2)
      | (Ok subs, st2) => (Ok (users, subs), st2)
      end
  end.

(** A request to the cache made by an endpoint: which dataset, and the
    reading of the clock. *)
Inductive request : Type :=
  | ReadUsers (now : Q)
  | ReadSubscriptions (now : Q).

Definition serve (st : state) (rq : request) : state :=
  match rq with
  | ReadUsers now =>
      snd (get_users_master CACHE_TTL_SECONDS get_all_records pd now st)
  | ReadSubscriptions now =>
      snd (get_subscriptions CACHE_TTL_SECONDS get_all_records pd now st)
  end.

(** The state of the process after a sequence of requests. *)
Definition after (rqs : list request) : state := foldl serve initial_state rqs.

End MoreEndpoints.

(** ** The rest of the dashboard script (lines 534-625) *)

Module Dashboard.

(** Line 534. *)
Definition palette : list string :=
  ["#0ea5e9"; "#f97316"; "#10b981"; "#e11d48";
   "#6366f1"; "#f59e0b"; "#14b8a6"; "#8b5cf6"].

(** [!col] for a column name or [null]. *)
Definition unresolved (col : option string) : bool :=
  match col with
  | None => true
  | Some c => String.eqb c ""
  end.

(** [String(r[col] ?? "")]. *)
Definition text_of (r : JS.obj) (col : string) : string :=
  match JS.get r col with
  | JS.Undefined | JS.Null => ""
  | v => JS.String_ v
  end.

(** Lines 554-559. *)
Definition uniqueCount (rows : list JS.obj) (col : option string) : Z :=
  if unresolved col then Z.of_nat (length rows)
  else
    let c := default "" col in
    Z.of_nat (size (list_to_set (List.map (fun r => text_of r c) rows)
                    : gset string)).

(** Lines 561-565. *)
Definition countMatch (rows : list JS.obj) (col : option string)
  (values : list JS.value) : Z :=
  if unresolved col then 0
  else
    let c := default "" col in
    let lookup := List.map (fun v => JS.toLowerCase (JS.String_ v)) values in
    Z.of_nat (length (List.filter
      (fun r => existsb (String.eqb (JS.toLowerCase (text_of r c))) lookup)
      rows)).

(** Lines 578-580,
    [Array.from({length: n}, (_, i) => palette[i % palette.length])]. *)
Definition pickColors (n : nat) : list string :=
  List.map (fun i => nth (i mod length palette) palette "") (seq 0 n).

(** Line 585, [!counts || Object.keys(counts).length === 0]: the chart is
    replaced by its placeholder. *)
Definition chart_empty (counts : option (gmap string JS.value)) : bool :=
  match counts with
  | None => true
  | Some c => (size c =? 0)%nat
  end.

End Dashboard.
(** ** Notions used in the statements about the normalizer *)

(** The wire form of an element of a datetime column: lines 61 and 62. *)
Definition render (str_dtype : bool) (o : option instant) : pyobj :=
  match o with
  | Some t => PStr (strftime t)
  | None => string_na str_dtype
  end.

(** The wire forms of a timestamp: null, or the canonical text of a valid
    instant. *)
Definition canonical (str_dtype : bool) (x : pyobj) : Prop :=
  x = string_na str_dtype
  \/ exists t, valid_instant t = true /\ x = PStr (strftime t).

(** The columns as [_df_to_records] renders them (lines 59-62). *)
Definition rendered_columns (str_dtype : bool) (df : DataFrame)
  : list (string * list pyobj) :=
  List.map (fun cs => (fst cs, where_notnull str_dtype (snd cs))) (columns df).

(** Columns of Python objects, as [pd.DataFrame] builds them. *)
Definition object_columns (cols : list (string * list pyobj))
  : list (string * series) :=
  List.map (fun cv => (fst cv, ObjectSeries (snd cv))) cols.

(** A column that both [pd.DataFrame] and [where] leave as it is. *)
Definition settled (str_dtype : bool) (v : list pyobj) : Prop :=
  infer_objects v = v /\ where_notnull str_dtype (ObjectSeries v) = v.

(** The shape of the columns behind a list of wire records: distinct names,
    one value per record, every column settled, and in the column
    [Timestamp] only wire forms of timestamps. *)
Definition wire_columns (str_dtype : bool) (n : nat)
  (cols : list (string * list pyobj)) : Prop :=
  NoDup (cols.*1)
  /\ Forall (fun cv => length (snd cv) = n) cols
  /\ (n = O -> cols = [])
  /\ Forall (fun cv => settled str_dtype (snd cv)) cols
  /\ Forall (fun cv => fst cv = "Timestamp" -> Forall (canonical str_dtype) (snd cv))
            cols.

(** ** Scenarios used below *)

(** Two rows of the worksheet USERS_MASTER. *)
Definition sample_rows : list record :=
  [ [("TelegramUserID", PStr "u1"); ("RegistrationStatus", PStr "Completed");
     ("EmailVerified", PStr "Yes")];
    [("TelegramUserID", PStr "u2"); ("RegistrationStatus", PStr "Pending");
     ("EmailVerified", PStr "No")] ].

(** A record source that always answers, one that answers its first request
    only, and one that has a worksheet without data rows. *)
Definition steady_source : string -> nat -> result (list record) :=
  fun _ _ => Ok sample_rows.

Definition flaky_source : string -> nat -> result (list record) :=
  fun _ n => match n with
             | O => Ok sample_rows
             | S _ => Raise (SourceUnavailable "record source unavailable")
             end.

Definition empty_then_rows : string -> nat -> result (list record) :=
  fun _ n => match n with
             | O => Ok []
             | S _ => Ok sample_rows
             end.

(** A library that reads only ISO-8601 text as an instant, with strings
    kept as Python objects and with strings kept in the [str] dtype. *)
Definition iso_only : pandas_library := mk_pandas_library (fun _ => None) false.
Definition iso_only_str : pandas_library := mk_pandas_library (fun _ => None) true.

(** The frame of [sample_rows], and the objects the loader allocates for it
    first and second. *)
Definition sample_frame : DataFrame := pd_DataFrame sample_rows.
Definition first_object : object := mk_object 0 sample_frame.
Definition second_object : object := mk_object 1 sample_frame.

(** The state after the snapshot [first_object] was loaded at time 1000. *)
Definition loaded_at_1000 : state :=
  mk_state (<["users_master" := mk_entry (inject_Z 1000) (Some first_object)]>
              initial_cache)
           (mk_World 1 1) 1.

(** The state after an empty frame was loaded at time 1000. *)
Definition empty_object : object := mk_object 0 (pd_DataFrame []).
Definition empty_loaded_at_1000 : state :=
  mk_state (<["users_master" := mk_entry (inject_Z 1000) (Some empty_object)]>
              initial_cache)
           (mk_World 1 1) 1.

(** Rows with one timestamp that cannot be read, and a source that has
    them. *)
Definition rows_with_bad_timestamp : list record :=
  [ [("TelegramUserID", PStr "u1"); ("Timestamp", PStr "2024-01-01 10:00:00")];
    [("TelegramUserID", PStr "u2"); ("Timestamp", PStr "not a date")] ].

Definition bad_timestamp_source : string -> nat -> result (list record) :=
  fun _ _ => Ok rows_with_bad_timestamp.

(** A row whose timestamp has half a second, and that instant. *)
Definition rows_with_half_second : list record :=
  [ [("TelegramUserID", PStr "u1"); ("Timestamp", PStr "2024-01-01 10:00:00.5")];
    [("TelegramUserID", PStr "u2"); ("Timestamp", PStr "")] ].

Definition half_past : instant := mk_instant 2024 1 1 10 0 0 500000000.

(** Two rows with a timestamp that has half a second and an empty one, a
    number beside a null and a text beside a null. *)
Definition rows_with_nulls : list record :=
  [ [("TelegramUserID", PStr "u1"); ("Timestamp", PStr "2024-01-01 10:00:00.5");
     ("Age", PInt 7); ("Plan", PStr "Gold")];
    [("TelegramUserID", PStr "u2"); ("Timestamp", PStr "");
     ("Age", PNone); ("Plan", PNone)] ].

(** The frame that the loader builds from [rows_with_nulls]. *)
Definition frame_with_nulls : DataFrame :=
  mk_DataFrame 2
    [("TelegramUserID", ObjectSeries [PStr "u1"; PStr "u2"]);
     ("Timestamp", DatetimeSeries [Some half_past; None]);
     ("Age", ObjectSeries [PFloat 7; PNaN]);
     ("Plan", ObjectSeries [PStr "Gold"; PNone])].

(** Rows with integers, floats, booleans and strings, and a column that
    holds a string beside an integer. *)
Definition account_rows : list record :=
  [ [("TelegramUserID", PInt 1); ("Name", PStr "Ann"); ("Balance", PFloat (5 # 2));
     ("Active", PBool true); ("Note", PStr "")];
    [("TelegramUserID", PInt 2); ("Name", PStr "Bo"); ("Balance", PFloat 3);
     ("Active", PBool false); ("Note", PInt 5)] ].

(** Five rows of four users with their plans and risk options; the first
    user has two rows. *)
Definition rows_with_plans : list record :=
  [ [("TelegramUserID", PStr "u1"); ("RegistrationStatus", PStr "Completed");
     ("EmailVerified", PStr "Yes"); ("InvestmentPlanSelected", PStr "Silver");
     ("RiskOptionSelected", PStr "High")];
    [("TelegramUserID", PStr "u2"); ("RegistrationStatus", PStr "Completed");
     ("EmailVerified", PStr "No"); ("InvestmentPlanSelected", PStr "Gold");
     ("RiskOptionSelected", PStr "Low")];
    [("TelegramUserID", PStr "u3"); ("RegistrationStatus", PStr "Completed");
     ("EmailVerified", PStr "Yes"); ("InvestmentPlanSelected", PStr "Silver");
     ("RiskOptionSelected", PStr "Low")];
    [("TelegramUserID", PStr "u4"); ("RegistrationStatus", PStr "Pending");
     ("EmailVerified", PStr "No"); ("InvestmentPlanSelected", PStr "Gold");
     ("RiskOptionSelected", PStr "High")];
    [("TelegramUserID", PStr "u1"); ("RegistrationStatus", PStr "Completed");
     ("EmailVerified", PStr "Yes"); ("InvestmentPlanSelected", PStr "Silver");
     ("RiskOptionSelected", PStr "High")] ].

(** A worksheet whose only row has no user id, and its frame. *)
Definition rows_without_id : list record :=
  [ [("TelegramUserID", PNone); ("RegistrationStatus", PStr "Pending");
     ("EmailVerified", PStr "No")] ].

Definition no_id_source : string -> nat -> result (list record) :=
  fun _ _ => Ok rows_without_id.

(** Three rows of one user, and a source that has them. *)
Definition rows_of_bob : list record :=
  [ [("TelegramUsername", PStr "bob"); ("Timestamp", PStr "2024-01-02 10:00:00");
     ("FullName", PStr "Bob"); ("Email", PStr "bob@example.org");
     ("RegistrationStatus", PStr "Completed");
     ("InvestmentPlanSelected", PStr "Gold"); ("RiskOptionSelected", PStr "High")];
    [("TelegramUsername", PStr "bob"); ("Timestamp", PStr "2024-01-01 10:00:00");
     ("FullName", PStr "Bobby"); ("Email", PStr "bob@example.org");
     ("RegistrationStatus", PStr "Pending");
     ("InvestmentPlanSelected", PStr "Gold"); ("RiskOptionSelected", PStr "High")];
    [("TelegramUsername", PStr "bob"); ("Timestamp", PStr "2024-01-02 09:00:00");
     ("FullName", PStr "Bobby"); ("Email", PStr "bob@example.org");
     ("RegistrationStatus", PStr "Pending");
     ("InvestmentPlanSelected", PStr "Gold"); ("RiskOptionSelected", PStr "High")] ].

Definition bob_source : string -> nat -> result (list record) :=
  fun _ _ => Ok rows_of_bob.

(** Columns of Python objects are sorted in the order they have. *)
Definition keep_order : list pyobj -> result (list nat) :=
  fun v => Ok (seq 0 (length v)).

(** ** What the specification says of the column resolver, in its words *)

(** "Normalization rule: lowercase the name, strip every character that is
    not an ASCII letter or digit." *)
Definition spec_normalize_char (c : ascii) : option ascii :=
  let n := nat_of_ascii c in
  if ((48 <=? n) && (n <=? 57))%nat || ((97 <=? n) && (n <=? 122))%nat then Some c
  else if ((65 <=? n) && (n <=? 90))%nat then Some (ascii_of_nat (n + 32))
  else None.

Definition spec_normalize (name : string) : string :=
  string_of_list_ascii (omap spec_normalize_char (list_ascii_of_string name)).

(** "Two names are considered equivalent iff their normalized forms are
    identical." *)
Definition same_normal_form (a b : string) : bool :=
  String.eqb (spec_normalize a) (spec_normalize b).

(** The candidate has a match among the available columns. *)
Definition has_match (available : list string) (candidate : string) : bool :=
  existsb (fun k => same_normal_form k candidate) available.

(** ** What the specification says of [group_counts], in its words *)

(** Dropping the leading characters of a class, and then the trailing
    ones: the shape shared by [str.strip] and [String.prototype.trim]. *)
Fixpoint drop_leading (sp : ascii -> bool) (cs : list ascii) : list ascii :=
  match cs with
  | c :: cs' => if sp c then drop_leading sp cs' else cs
  | [] => []
  end.

Definition strip_with (sp : ascii -> bool) (cs : list ascii) : list ascii :=
  rev (drop_leading sp (rev (drop_leading sp cs))).

(** "leading/trailing whitespace stripped": the white space and line
    terminators among the code units below 256. *)
Definition whitespace_codes : list nat := [9; 10; 11; 12; 13; 32; 160]%nat.

Definition spec_strip (s : string) : string :=
  string_of_list_ascii
    (strip_with (fun c => bool_decide (nat_of_ascii c ∈ whitespace_codes))
                (list_ascii_of_string s)).

(** The value of a column in a record, absent when the record has no such
    property. *)
Definition spec_field (r : JS.obj) (col : string) : option JS.value :=
  (list_to_map r : gmap string JS.value) !! col.

#[global] Instance decimal_int_eq_dec : EqDecision Decimal.int := Decimal.int_eq_dec.

(** "each distinct stringified value of column (absent/null coerced to a
    literal Unknown, and leading/trailing whitespace stripped;
    empty-after-strip also becomes Unknown)": whether [label] is the label
    of a value.  A number is labelled by the decimal numeral that reads as
    it, a boolean by its name. *)
Definition spec_label (raw : option JS.value) (label : string) : bool :=
  match raw with
  | None | Some JS.Undefined | Some JS.Null => String.eqb label "Unknown"
  | Some (JS.Str s) =>
      String.eqb label
        (if String.eqb (spec_strip s) "" then "Unknown" else spec_strip s)
  | Some (JS.Bool b) => String.eqb label (if b then "true" else "false")
  | Some (JS.Num n) =>
      bool_decide (NilZero.int_of_string label = Some (Z.to_int n))
  end.

(** "the count of records holding that value". *)
Definition spec_count (rows : list JS.obj) (col label : string) : Z :=
  Z.of_nat (length (List.filter (fun r => spec_label (spec_field r col) label) rows)).

(** The numbers of the column are integers that a double holds exactly. *)
Definition safe_integers (rows : list JS.obj) (col : string) : Prop :=
  forall r n, r ∈ rows -> JS.get r col = JS.Num n -> Z.abs n <= 2 ^ 53.

(** ** Notions used in the proofs about [groupCounts] *)

(** The number of records that [groupCounts] puts under a label. *)
Definition label_count (rows : list JS.obj) (col label : string) : Z :=
  Z.of_nat (length (List.filter
    (fun r => bool_decide (JS.group_key (JS.get r col) = label)) rows)).

(** A count as a property of the object [counts]: absent when zero. *)
Definition as_property (n : Z) : option JS.value :=
  if n =? 0 then None else Some (JS.Num n).

(** The records of the example of the specification for [group_counts]. *)
Definition risk_rows : list JS.obj :=
  [ [("Risk", JS.Str " High ")]; [("Risk", JS.Str "")]; [("Risk", JS.Null)] ].

(** A record with the column of the example of the specification for the
    column resolver. *)
Definition plan_rows : list JS.obj :=
  [ [("Investment_Plan Selected", JS.Str "Gold")] ].

(** Records with numbers, booleans and texts in one column beside another
    column. *)
Definition ledger_rows : list JS.obj :=
  [ [("Plan", JS.Str "Gold"); ("Units", JS.Num 7)];
    [("Plan", JS.Str "Gold"); ("Units", JS.Str " 7 ")];
    [("Plan", JS.Str "Silver"); ("Units", JS.Bool true)];
    [("Plan", JS.Str "Silver"); ("Units", JS.Num (-3))];
    [("Plan", JS.Str "Silver")] ].

(** Records whose label is a name that [counts] inherits. *)
Definition inherited_label_rows : list JS.obj :=
  [ [("Risk", JS.Str "constructor")] ].

Definition proto_label_rows : list JS.obj :=
  [ [("Risk", JS.Str "__proto__")]; [("Risk", JS.Str "__proto__")] ].

(** The candidate lists of [reload] (lines 640-648). *)
Definition reload_candidates : list (list string) :=
  [ ["TelegramUserID"; "UserID"; "user_id"; "userid"];
    ["RegistrationStatus"; "Status"; "registration_status"];
    ["EmailVerified"; "Verified"; "email_verified"];
    ["InvestmentPlanSelected"; "Plan"; "plan"];
    ["RiskOptionSelected"; "Risk"; "risk"];
    ["Status"; "SubscriptionStatus"; "subscription_status"];
    ["Plan"; "PlanName"; "plan"];
    ["Interval"; "BillingInterval"; "billing_interval"; "Period"] ].

(** A record of the worksheet SUBSCRIPTIONS with two columns of the same
    normalized form. *)
Definition subscription_row : JS.obj :=
  [("Plan Name", JS.Str "Gold"); ("plan_name", JS.Str "Gold");
   ("Status", JS.Str "active")].

(** A record source whose worksheet SUBSCRIPTIONS is unavailable. *)
Definition subscriptions_down : string -> nat -> result (list record) :=
  fun sheet _ =>
    if String.eqb sheet "SUBSCRIPTIONS"
    then Raise (SourceUnavailable "record source unavailable")
    else Ok sample_rows.

(** The frame that the loader builds from [rows_of_bob]. *)
Definition bob_frame : DataFrame :=
  Eval vm_compute in
    match _parse_timestamp iso_only (pd_DataFrame rows_of_bob) with
    | Ok df => df
    | Raise _ => mk_DataFrame 0 []
    end.

(** ** Notions used in the statements about reachable states and frames *)

(** What holds of the state of the process after any sequence of requests:
    [_cache] has the two dataset keys and no other, every cached object was
    allocated before, and the loader has been called once per request sent
    to the record source. *)
Definition cache_invariant (st : state) : Prop :=
  dom (_cache st) = ({["users_master"; "subscriptions"]} : gset string)
  /\ (forall k e o, _cache st !! k = Some e -> data e = Some o ->
        (id o < next_id (world st))%nat)
  /\ loader_calls st = requests (world st).

(** A frame is rectangular when every column has one element per row. *)
Definition rectangular (df : DataFrame) : Prop :=
  Forall (fun cs => length (series_cells (snd cs)) = nrows df) (columns df).

(** What a record holds for a cell of the frame: the object itself when it
    is not null, the text of an instant, and a null for a null. *)
Definition wire_of (c : cell) (x : pyobj) : Prop :=
  match c with
  | CObj y => if notnull y then x = y else notnull x = false
  | CTime (Some t) => x = PStr (strftime t)
  | CTime None => notnull x = false
  end.

(** The column holds an integer beside a float. *)
Definition is_float (x : pyobj) : bool :=
  match x with PFloat _ => true | _ => false end.

Definition mixes_numbers (v : list pyobj) : bool :=
  existsb is_int v && existsb is_float v.

(** The column is present in the frame. *)
Definition has_column (df : DataFrame) (name : string) : Prop :=
  name ∈ column_names df.

(** Counts in descending order. *)
Definition count_desc (a b : cell * Z) : Prop := snd b <= snd a.

(** The order of calendar dates, and the number of elements of a list of
    dates that are a given date. *)
Definition date_lt (a b : date) : Prop := date_ltb a b = true.

Definition occurrences (d : date) (dates : list (option date)) : Z :=
  Z.of_nat (length (List.filter (fun o => bool_decide (o = Some d)) dates)).

(** The count listed for a date. *)
Definition lookup_date (d : date) (acc : list (date * Z)) : option Z :=
  snd <$> List.find (fun p => bool_decide (fst p = d)) acc.

(** The order in which [sort_values] puts the rows: by timestamp, a row
    without timestamp after every other. *)
Definition not_later (a b : option instant) : Prop := key_leb a b = true.


(** Neither the first nor the last character is of the class. *)
Definition clean_ends (sp : ascii -> bool) (cs : list ascii) : Prop :=
  (forall c, head cs = Some c -> sp c = false)
  /\ (forall c, last cs = Some c -> sp c = false).

(** A count as an entry of a list of counts: absent when zero. *)
Definition as_entry (n : Z) : option Z := if n =? 0 then None else Some n.

(** The sum of the counts of a [counts] object, over its properties that
    are numbers. *)
Definition count_of (v : JS.value) : Z :=
  match v with
  | JS.Num n => n
  | _ => 0
  end.

Definition total_count (counts : gmap string JS.value) : Z :=
  map_fold (fun _ v acc => count_of v + acc) 0 counts.

(** Neither the column nor the label of any record is an inherited name;
    nothing is asked of a column that is [null]. *)
Definition plain_labels (rows : list JS.obj) (col : option string) : Prop :=
  match col with
  | None => True
  | Some c =>
      (c ∉ inherited_names)
      /\ forall r, r ∈ rows -> JS.group_key (JS.get r c) ∉ inherited_names
  end.

(** [String(v).toLowerCase()] as a value again. *)
Definition lowered (v : JS.value) : JS.value :=
  JS.Str (JS.toLowerCase (JS.String_ v)).

(** The origins are absent when the text holds only commas and white
    space. *)
Definition only_separators (text : string) : Prop :=
  Forall (fun c => c = ","%char \/ py_isspace c = true)
         (list_ascii_of_string text).
(** * Properties *)

(** ** The cache *)

Section CacheProperties.

Variable TTL : Z.

Lemma expired_iff now e :
  expired TTL now e = true <-> (inject_Z TTL < now - ts e)%Q.
Proof.
  unfold expired. rewrite negb_true_iff.
  destruct (Qle_bool (now - ts e) (inject_Z TTL)) eqn:Hle.
  - apply Qle_bool_iff in Hle. split; [discriminate |].
    intros Hlt. exfalso. exact (Qlt_not_le _ _ Hlt Hle).
  - split; [intros _ | reflexivity].
    apply Qnot_le_lt. intros Hle'. apply Qle_bool_iff in Hle'. congruence.
Qed.

Lemma needs_refresh_iff now e :
  needs_refresh TTL now e = true
  <-> data e = None \/ (inject_Z TTL < now - ts e)%Q.
Proof.
  unfold needs_refresh. destruct (data e) as [o|].
  - rewrite expired_iff. split; [auto | intros [H | H]; [discriminate | exact H]].
  - split; auto.
Qed.

Lemma fresh_not_refreshed now e o :
  data e = Some o -> (now - ts e <= inject_Z TTL)%Q ->
  needs_refresh TTL now e = false.
Proof.
  intros Hd Hle. apply not_true_is_false. rewrite needs_refresh_iff.
  intros [H | H]; [congruence | exact (Qlt_not_le _ _ H Hle)].
Qed.

(** The three paths of [_get_cached]. *)
Lemma get_cached_hit key loader now st e :
  _cache st !! key = Some e -> needs_refresh TTL now e = false ->
  _get_cached TTL key loader now st = (Ok (data e), st).
Proof. intros Hk Hn. unfold _get_cached. rewrite Hk, Hn. reflexivity. Qed.

Lemma get_cached_refresh_ok key loader now st e v w :
  _cache st !! key = Some e -> needs_refresh TTL now e = true ->
  loader (world st) = (Ok v, w) ->
  _get_cached TTL key loader now st
  = (Ok v, mk_state (<[key := mk_entry now v]> (_cache st)) w
                    (S (loader_calls st))).
Proof. intros Hk Hn Hl. unfold _get_cached. rewrite Hk, Hn, Hl. reflexivity. Qed.

Lemma get_cached_refresh_raise key loader now st e x w :
  _cache st !! key = Some e -> needs_refresh TTL now e = true ->
  loader (world st) = (Raise x, w) ->
  _get_cached TTL key loader now st
  = (Raise x, mk_state (_cache st) w (S (loader_calls st))).
Proof. intros Hk Hn Hl. unfold _get_cached. rewrite Hk, Hn, Hl. reflexivity. Qed.

(** A key that is not in [_cache] raises [KeyError]; nothing is loaded. *)
Lemma get_cached_unknown_key key loader now st :
  _cache st !! key = None ->
  _get_cached TTL key loader now st = (Raise (KeyError key), st).
Proof. intros Hk. unfold _get_cached. rewrite Hk. reflexivity. Qed.

(** [_get_cached] calls the loader at most once, and exactly when the
    entry needs a refresh. *)
Lemma loader_called_iff key loader now st e :
  _cache st !! key = Some e ->
  loader_calls (snd (_get_cached TTL key loader now st)) = S (loader_calls st)
  <-> needs_refresh TTL now e = true.
Proof.
  intros Hk. unfold _get_cached. rewrite Hk.
  destruct (needs_refresh TTL now e).
  - destruct (loader (world st)) as [[v | x] w]; simpl; split; auto.
  - simpl. split; [lia | discriminate].
Qed.

(** C1, as amended.  When the loader fails during a refresh attempt the
    failure propagates to the caller of [_get_cached], whether or not a
    snapshot was stored before; a stored snapshot is returned without
    raising only when no refresh is attempted, that is when it is present
    and its age does not exceed the TTL. *)
Theorem refresh_failure_propagates key loader now st e x w :
  _cache st !! key = Some e ->
  loader (world st) = (Raise x, w) ->
  (data e = None \/ (inject_Z TTL < now - ts e)%Q ->
     fst (_get_cached TTL key loader now st) = Raise x)
  /\ (forall o, data e = Some o -> (now - ts e <= inject_Z TTL)%Q ->
        _get_cached TTL key loader now st = (Ok (Some o), st)).
Proof.
  intros Hk Hl. split.
  - intros Hc. apply needs_refresh_iff in Hc.
    rewrite (get_cached_refresh_raise _ _ _ _ _ _ _ Hk Hc Hl). reflexivity.
  - intros o Hd Hle.
    rewrite (get_cached_hit _ _ _ _ _ Hk (fresh_not_refreshed _ _ _ Hd Hle)).
    rewrite Hd. reflexivity.
Qed.

(** C2, as amended.  Two [_get_cached] calls on the same key, with no
    write in between and a stored snapshot that is not absent, both made
    within TTL seconds of the time the snapshot was fetched, return the
    identical object and do not call the loader: the state after both
    calls is the state before them. *)
Theorem gets_within_ttl_of_fetch_identical key loader1 loader2 now1 now2 st e o :
  _cache st !! key = Some e ->
  data e = Some o ->
  (now1 - ts e <= inject_Z TTL)%Q ->
  (now2 - ts e <= inject_Z TTL)%Q ->
  let r1 := _get_cached TTL key loader1 now1 st in
  let r2 := _get_cached TTL key loader2 now2 (snd r1) in
  fst r1 = Ok (Some o) /\ fst r2 = Ok (Some o) /\ snd r2 = st.
Proof.
  intros Hk Hd H1 H2. cbv zeta.
  rewrite (get_cached_hit _ loader1 _ _ _ Hk (fresh_not_refreshed _ _ _ Hd H1)).
  cbn [fst snd].
  rewrite (get_cached_hit _ loader2 _ _ _ Hk (fresh_not_refreshed _ _ _ Hd H2)).
  cbn [fst snd]. rewrite Hd. auto.
Qed.

(** After a refresh that stored an object, a call within TTL seconds of
    that refresh returns the same object without calling the loader. *)
Lemma get_after_refresh key loader1 loader2 now1 now2 st e o w :
  _cache st !! key = Some e -> needs_refresh TTL now1 e = true ->
  loader1 (world st) = (Ok (Some o), w) ->
  (now2 - now1 <= inject_Z TTL)%Q ->
  let r1 := _get_cached TTL key loader1 now1 st in
  let r2 := _get_cached TTL key loader2 now2 (snd r1) in
  fst r1 = Ok (Some o) /\ r2 = (Ok (Some o), snd r1).
Proof.
  intros Hk Hn Hl Hle. cbv zeta.
  rewrite (get_cached_refresh_ok _ _ _ _ _ _ _ Hk Hn Hl). cbn [fst snd].
  split; [reflexivity |].
  apply (get_cached_hit key loader2 now2 _ (mk_entry now1 (Some o))).
  - cbn. apply lookup_insert_eq.
  - apply (fresh_not_refreshed _ _ o); [reflexivity | exact Hle].
Qed.

(** C3, as amended.  [_get_cached] calls the loader exactly when the stored
    data is absent (as it is before the first fetch) or the age of the
    entry, [now - ts], exceeds the TTL; then a value returned by the loader
    is stored with [ts = now] and returned; otherwise the stored value is
    returned unchanged, whatever its record sequence. *)
Theorem refresh_exactly_when_absent_or_expired key loader now st e :
  _cache st !! key = Some e ->
  let r := _get_cached TTL key loader now st in
  (loader_calls (snd r) = S (loader_calls st)
     <-> data e = None \/ (inject_Z TTL < now - ts e)%Q)
  /\ (data e = None \/ (inject_Z TTL < now - ts e)%Q ->
        forall v w, loader (world st) = (Ok v, w) ->
          fst r = Ok v /\ _cache (snd r) !! key = Some (mk_entry now v))
  /\ (~ (data e = None \/ (inject_Z TTL < now - ts e)%Q) ->
        r = (Ok (data e), st)).
Proof.
  intros Hk r. subst r. split; [| split].
  - rewrite (loader_called_iff _ _ _ _ _ Hk). apply needs_refresh_iff.
  - intros Hc v w Hl. apply needs_refresh_iff in Hc.
    rewrite (get_cached_refresh_ok _ _ _ _ _ _ _ Hk Hc Hl). cbn [fst snd _cache].
    split; [reflexivity | apply lookup_insert_eq].
  - intros Hc. apply get_cached_hit; [exact Hk |].
    apply not_true_is_false. rewrite needs_refresh_iff. exact Hc.
Qed.

(** C10.  If the loader raises during [_get_cached], the exception
    propagates to the caller and [_cache] is left as it was: the entry of
    the key keeps its data and its fetch time. *)
Theorem loader_failure_leaves_cache key loader now st e x w :
  _cache st !! key = Some e ->
  needs_refresh TTL now e = true ->
  loader (world st) = (Raise x, w) ->
  let r := _get_cached TTL key loader now st in
  fst r = Raise x
  /\ _cache (snd r) = _cache st
  /\ _cache (snd r) !! key = Some e.
Proof.
  intros Hk Hn Hl r. subst r.
  rewrite (get_cached_refresh_raise _ _ _ _ _ _ _ Hk Hn Hl). cbn [fst snd _cache].
  auto.
Qed.

(** Whatever makes [_get_cached] raise, [_cache] is not written. *)
Lemma raise_leaves_cache key loader now st x :
  fst (_get_cached TTL key loader now st) = Raise x ->
  _cache (snd (_get_cached TTL key loader now st)) = _cache st.
Proof.
  unfold _get_cached. destruct (_cache st !! key) as [e|]; [| reflexivity].
  destruct (needs_refresh TTL now e); [| discriminate].
  destruct (loader (world st)) as [[v | y] w]; [discriminate | reflexivity].
Qed.

End CacheProperties.

(** ** The cache on the scenarios *)

(** The first call on the initial state loads the worksheet and stores the
    snapshot with the time of the call. *)
Lemma first_get_loads :
  get_users_master 600 steady_source iso_only (inject_Z 1000) initial_state
  = (Ok (Some first_object), loaded_at_1000).
Proof. vm_compute. reflexivity. Qed.

(** [refresh_failure_propagates] on a concrete input, its hypotheses evaluated. *)
Lemma refresh_failure_propagates_witness :
  let loader := load_users_master flaky_source iso_only in
  let e := mk_entry (inject_Z 1000) (Some first_object) in
  let x := SourceUnavailable "record source unavailable" in
  _cache loaded_at_1000 !! "users_master" = Some e
  /\ loader (world loaded_at_1000) = (Raise x, mk_World 1 2)
  /\ (data e = None \/ (inject_Z 600 < inject_Z 2000 - ts e)%Q ->
        fst (_get_cached 600 "users_master" loader (inject_Z 2000) loaded_at_1000)
        = Raise x)
  /\ (forall o, data e = Some o -> (inject_Z 2000 - ts e <= inject_Z 600)%Q ->
        _get_cached 600 "users_master" loader (inject_Z 2000) loaded_at_1000
        = (Ok (Some o), loaded_at_1000)).
Proof.
  cbv zeta.
  split; [vm_compute; reflexivity |].
  split; [vm_compute; reflexivity |].
  apply (refresh_failure_propagates 600 "users_master"
           (load_users_master flaky_source iso_only) (inject_Z 2000)
           loaded_at_1000 _ _ (mk_World 1 2));
    vm_compute; reflexivity.
Defined.

(** C1 fails on the code: a snapshot was loaded at time 1000, the refresh at
    time 2000 (TTL 600) finds the record source unavailable, and the call
    raises instead of returning the stored snapshot. *)
Lemma stale_snapshot_not_served :
  let r1 := get_users_master 600 flaky_source iso_only (inject_Z 1000) initial_state in
  let r2 := get_users_master 600 flaky_source iso_only (inject_Z 2000) (snd r1) in
  fst r1 = Ok (Some first_object)
  /\ _cache (snd r1) !! "users_master"
     = Some (mk_entry (inject_Z 1000) (Some first_object))
  /\ fst r2 = Raise (SourceUnavailable "record source unavailable")
  /\ fst r2 <> Ok (Some first_object).
Proof.
  cbv zeta. repeat split; try (vm_compute; reflexivity).
  vm_compute. discriminate.
Qed.

(** [gets_within_ttl_of_fetch_identical] on a concrete input, its hypotheses evaluated. *)
Lemma gets_within_ttl_of_fetch_identical_witness :
  let loader := load_users_master steady_source iso_only in
  let e := mk_entry (inject_Z 1000) (Some first_object) in
  _cache loaded_at_1000 !! "users_master" = Some e
  /\ data e = Some first_object
  /\ (inject_Z 1300 - ts e <= inject_Z 600)%Q
  /\ (inject_Z 1600 - ts e <= inject_Z 600)%Q
  /\ (let r1 := _get_cached 600 "users_master" loader (inject_Z 1300) loaded_at_1000 in
      let r2 := _get_cached 600 "users_master" loader (inject_Z 1600) (snd r1) in
      fst r1 = Ok (Some first_object) /\ fst r2 = Ok (Some first_object)
      /\ snd r2 = loaded_at_1000).
Proof.
  cbv zeta.
  split; [vm_compute; reflexivity |].
  split; [reflexivity |].
  split; [vm_compute; discriminate |].
  split; [vm_compute; discriminate |].
  apply (gets_within_ttl_of_fetch_identical 600 "users_master" _ _ _ _
           loaded_at_1000 (mk_entry (inject_Z 1000) (Some first_object)));
    [vm_compute; reflexivity | reflexivity
     | vm_compute; discriminate | vm_compute; discriminate].
Defined.

(** C2 fails on the code: the snapshot is loaded at time 1000; the calls at
    times 1500 and 1700 are 200 seconds apart (TTL 600), nothing is written
    between them and the stored snapshot is not absent, yet the second of
    them calls the loader and returns another object. *)
Lemma gets_within_ttl_of_each_other_differ :
  let get := get_users_master 600 steady_source iso_only in
  let r1 := get (inject_Z 1500) loaded_at_1000 in
  let r2 := get (inject_Z 1700) (snd r1) in
  (inject_Z 1700 - inject_Z 1500 <= inject_Z 600)%Q
  /\ fst r1 = Ok (Some first_object)
  /\ snd r1 = loaded_at_1000
  /\ fst r2 = Ok (Some second_object)
  /\ fst r1 <> fst r2
  /\ loader_calls (snd r2) = S (loader_calls (snd r1)).
Proof.
  cbv zeta. repeat split; try (vm_compute; reflexivity).
  - vm_compute. discriminate.
  - vm_compute. discriminate.
Qed.

(** [refresh_exactly_when_absent_or_expired] on a concrete input, its hypotheses evaluated. *)
Lemma refresh_exactly_when_absent_or_expired_witness :
  let loader := load_users_master steady_source iso_only in
  let e := mk_entry 0 None in
  let now := inject_Z 1000 in
  _cache initial_state !! "users_master" = Some e
  /\ (let r := _get_cached 600 "users_master" loader now initial_state in
      (loader_calls (snd r) = S (loader_calls initial_state)
         <-> data e = None \/ (inject_Z 600 < now - ts e)%Q)
      /\ (data e = None \/ (inject_Z 600 < now - ts e)%Q ->
            forall v w, loader (world initial_state) = (Ok v, w) ->
              fst r = Ok v
              /\ _cache (snd r) !! "users_master" = Some (mk_entry now v))
      /\ (~ (data e = None \/ (inject_Z 600 < now - ts e)%Q) ->
            r = (Ok (data e), initial_state))).
Proof.
  cbv zeta.
  split; [vm_compute; reflexivity |].
  apply (refresh_exactly_when_absent_or_expired 600 "users_master"
           (load_users_master steady_source iso_only) (inject_Z 1000)
           initial_state (mk_entry 0 None)).
  vm_compute; reflexivity.
Defined.

(** C3 fails on the code: the stored snapshot has an empty record sequence
    and is 100 seconds old (TTL 600); the loader, which would return rows, is
    not called and the empty snapshot is returned. *)
Lemma empty_snapshot_not_refreshed :
  let r := get_users_master 600 empty_then_rows iso_only (inject_Z 1000) initial_state in
  let r' := get_users_master 600 empty_then_rows iso_only (inject_Z 1100) (snd r) in
  snd r = empty_loaded_at_1000
  /\ snapshot_rows (Some empty_object) = O
  /\ fst r' = Ok (Some empty_object)
  /\ loader_calls (snd r') = loader_calls (snd r)
  /\ snd r' = snd r.
Proof. cbv zeta. repeat split; vm_compute; reflexivity. Qed.

(** [loader_failure_leaves_cache] on a concrete input, its hypotheses evaluated. *)
Lemma loader_failure_leaves_cache_witness :
  let loader := load_users_master flaky_source iso_only in
  let e := mk_entry (inject_Z 1000) (Some first_object) in
  let x := SourceUnavailable "record source unavailable" in
  _cache loaded_at_1000 !! "users_master" = Some e
  /\ needs_refresh 600 (inject_Z 2000) e = true
  /\ loader (world loaded_at_1000) = (Raise x, mk_World 1 2)
  /\ (let r := _get_cached 600 "users_master" loader (inject_Z 2000) loaded_at_1000 in
      fst r = Raise x
      /\ _cache (snd r) = _cache loaded_at_1000
      /\ _cache (snd r) !! "users_master" = Some e).
Proof.
  cbv zeta.
  split; [vm_compute; reflexivity |].
  split; [vm_compute; reflexivity |].
  split; [vm_compute; reflexivity |].
  apply (loader_failure_leaves_cache 600 "users_master"
           (load_users_master flaky_source iso_only) (inject_Z 2000)
           loaded_at_1000 _ _ (mk_World 1 2));
    vm_compute; reflexivity.
Defined.

(** The scenario of the specification: a snapshot five minutes old, TTL 600,
    record source unavailable.  No refresh is attempted, so the failure is
    not met and the snapshot is returned. *)
Lemma five_minute_old_snapshot_served :
  get_users_master 600 flaky_source iso_only (inject_Z 1300) loaded_at_1000
  = (Ok (Some first_object), loaded_at_1000).
Proof. vm_compute. reflexivity. Qed.

(** ** The normalizer *)

(** *** Printing and reading back an instant *)

Lemma digit_val_char d : 0 <= d <= 9 -> digit_val (digit_char d) = Some d.
Proof.
  intros Hd.
  assert (d = 0 \/ d = 1 \/ d = 2 \/ d = 3 \/ d = 4 \/
          d = 5 \/ d = 6 \/ d = 7 \/ d = 8 \/ d = 9) as Hc by lia.
  repeat (destruct Hc as [-> | Hc]; [reflexivity |]). subst d. reflexivity.
Qed.

Lemma number_pad2 n rest :
  0 <= n <= 99 -> number 2 0 (pad2 n ++ rest) = Some (n, rest).
Proof.
  intros Hn. unfold pad2. cbn [app number].
  rewrite digit_val_char by (Z.div_mod_to_equations; lia). cbn [mbind option_bind].
  rewrite digit_val_char by (Z.div_mod_to_equations; lia). cbn [mbind option_bind].
  do 2 f_equal. Z.div_mod_to_equations; lia.
Qed.

Lemma number_pad4 n rest :
  0 <= n <= 9999 -> number 4 0 (pad4 n ++ rest) = Some (n, rest).
Proof.
  intros Hn. unfold pad4. cbn [app number].
  do 4 (rewrite digit_val_char by (Z.div_mod_to_equations; lia);
        cbn [mbind option_bind]).
  do 2 f_equal. Z.div_mod_to_equations; lia.
Qed.

Lemma days_in_month_le y m : days_in_month y m <= 31.
Proof.
  unfold days_in_month.
  destruct m as [| p | p]; try lia.
  do 4 (try destruct p as [p | p |]; try lia);
    destruct (is_leap y); lia.
Qed.

(** The fields of a valid instant are within the widths of the format. *)
Lemma valid_instant_bounds t :
  valid_instant t = true ->
  1678 <= year t <= 2261 /\ 1 <= month t <= 12
  /\ 1 <= day t <= days_in_month (year t) (month t)
  /\ 0 <= hour t <= 23 /\ 0 <= minute t <= 59 /\ 0 <= second t <= 59
  /\ 0 <= nanosecond t <= 999999999.
Proof.
  unfold valid_instant. rewrite !andb_true_iff, !Z.leb_le. tauto.
Qed.

Lemma valid_floor_second t :
  valid_instant t = true -> valid_instant (floor_second t) = true.
Proof.
  intros H. pose proof (valid_instant_bounds t H) as Hb.
  unfold valid_instant, floor_second. cbn [year month day hour minute second nanosecond].
  rewrite !andb_true_iff, !Z.leb_le. lia.
Qed.

Lemma strftime_floor_second t : strftime (floor_second t) = strftime t.
Proof. reflexivity. Qed.

(** Reading back the canonical text of an instant gives the instant without
    its sub-second part. *)
Lemma parse_strftime t :
  valid_instant t = true -> parse_iso8601 (strftime t) = Some (floor_second t).
Proof.
  intros Hv. pose proof (valid_instant_bounds t Hv) as Hb.
  pose proof (days_in_month_le (year t) (month t)) as Hd.
  unfold parse_iso8601, strftime.
  rewrite list_ascii_of_string_of_list_ascii. unfold strftime_chars.
  rewrite number_pad4 by lia. cbn [mbind option_bind expect Ascii.eqb Bool.eqb].
  rewrite number_pad2 by lia. cbn [mbind option_bind expect Ascii.eqb Bool.eqb].
  rewrite number_pad2 by lia. cbn [mbind option_bind].
  cbn [time_of_day Ascii.eqb Bool.eqb orb].
  rewrite number_pad2 by lia. cbn [mbind option_bind expect Ascii.eqb Bool.eqb].
  rewrite number_pad2 by lia. cbn [mbind option_bind expect Ascii.eqb Bool.eqb].
  rewrite <- (app_nil_r (pad2 (second t))).
  rewrite number_pad2 by lia. cbn [mbind option_bind fraction].
  change (mk_instant (year t) (month t) (day t) (hour t) (minute t) (second t) 0)
    with (floor_second t).
  rewrite (valid_floor_second t Hv). reflexivity.
Qed.

Lemma parse_iso8601_valid s t :
  parse_iso8601 s = Some t -> valid_instant t = true.
Proof.
  unfold parse_iso8601.
  destruct (number 4 0 (list_ascii_of_string s)) as [[y cs1] |]; [| discriminate].
  cbn [mbind option_bind].
  destruct (expect "-"%char cs1) as [cs2 |]; [| discriminate]. cbn [mbind option_bind].
  destruct (number 2 0 cs2) as [[m cs3] |]; [| discriminate]. cbn [mbind option_bind].
  destruct (expect "-"%char cs3) as [cs4 |]; [| discriminate]. cbn [mbind option_bind].
  destruct (number 2 0 cs4) as [[d cs5] |]; [| discriminate]. cbn [mbind option_bind].
  destruct (time_of_day cs5) as [[[[h mi] sec] ns] |]; [| discriminate].
  cbn [mbind option_bind].
  destruct (valid_instant _) eqn:Hv; [| discriminate].
  intros [= <-]. exact Hv.
Qed.

(** *** Frames built from records, and records read from frames *)

Lemma existsb_eqb_elem_of k (acc : list string) :
  existsb (String.eqb k) acc = true <-> k ∈ acc.
Proof.
  rewrite existsb_exists, list_elem_of_In. split.
  - intros (x & Hx & He). apply String.eqb_eq in He. subst x. exact Hx.
  - intros Hk. exists k. split; [exact Hk | apply String.eqb_refl].
Qed.

Lemma add_key_elem_of acc k : k ∈ acc -> add_key acc k = acc.
Proof.
  intros Hk. unfold add_key.
  apply existsb_eqb_elem_of in Hk. rewrite Hk. reflexivity.
Qed.

Lemma add_key_fresh acc k : k ∉ acc -> add_key acc k = (acc ++ [k])%list.
Proof.
  intros Hk. unfold add_key.
  destruct (existsb (String.eqb k) acc) eqn:He; [| reflexivity].
  apply existsb_eqb_elem_of in He. contradiction.
Qed.

Lemma NoDup_add_key acc k : NoDup acc -> NoDup (add_key acc k).
Proof.
  intros Hn. destruct (decide (k ∈ acc)) as [Hk | Hk].
  - rewrite add_key_elem_of by exact Hk. exact Hn.
  - rewrite add_key_fresh by exact Hk. apply NoDup_app.
    split; [exact Hn |]. split; [| apply NoDup_singleton].
    intros x Hx Hx'. apply list_elem_of_singleton in Hx'. subst x. contradiction.
Qed.

Lemma foldl_add_key_known ks acc :
  (forall k, k ∈ ks -> k ∈ acc) -> foldl add_key acc ks = acc.
Proof.
  induction ks as [| k ks IH]; intros Hs; [reflexivity |].
  cbn [foldl]. rewrite add_key_elem_of by (apply Hs; left).
  apply IH. intros k' Hk'. apply Hs. right. exact Hk'.
Qed.

Lemma foldl_add_key_fresh ks : forall acc,
  NoDup (acc ++ ks)%list -> foldl add_key acc ks = (acc ++ ks)%list.
Proof.
  induction ks as [| k ks IH]; intros acc Hn.
  - cbn. rewrite app_nil_r. reflexivity.
  - cbn [foldl]. assert (k ∉ acc) as Hk.
    { apply NoDup_app in Hn as (_ & Hd & _). intros Hin.
      apply (Hd k Hin). left. }
    rewrite add_key_fresh by exact Hk.
    rewrite IH; rewrite <- app_assoc; [reflexivity | exact Hn].
Qed.

Lemma NoDup_foldl_add_key ks : forall acc,
  NoDup acc -> NoDup (foldl add_key acc ks).
Proof.
  induction ks as [| k ks IH]; intros acc Hn; [exact Hn |].
  cbn [foldl]. apply IH, NoDup_add_key, Hn.
Qed.

Lemma NoDup_keys_union rows : NoDup (keys_union rows).
Proof.
  unfold keys_union. generalize (@nil string) (NoDup_nil_2 (A := string)).
  induction rows as [| r rows IH]; intros acc Hn; [exact Hn |].
  cbn [foldl]. apply IH, NoDup_foldl_add_key, Hn.
Qed.

Lemma foldl_rows_known (rows : list record) acc :
  (forall r, r ∈ rows -> forall k, k ∈ r.*1 -> k ∈ acc) ->
  foldl (fun acc r => foldl add_key acc (r.*1)) acc rows = acc.
Proof.
  induction rows as [| r rows IH]; intros Hs; [reflexivity |].
  cbn [foldl]. rewrite foldl_add_key_known by (apply Hs; left).
  apply IH. intros r' Hr'. apply Hs. right. exact Hr'.
Qed.

Lemma map_nth_seq {A} (v : list A) (d : A) :
  List.map (fun i => nth i v d) (seq 0 (length v)) = v.
Proof.
  induction v as [| x v IH]; [reflexivity |].
  cbn [length seq List.map nth]. f_equal.
  rewrite <- seq_shift, List.map_map. exact IH.
Qed.

Lemma length_to_dict_records n cols : length (to_dict_records n cols) = n.
Proof. unfold to_dict_records. rewrite length_map, length_seq. reflexivity. Qed.

Lemma keys_of_rendered_row (cols : list (string * list pyobj)) i :
  (List.map (fun cv => (fst cv, nth i (snd cv) PNaN)) cols).*1 = cols.*1.
Proof.
  induction cols as [| cv cols IH]; [reflexivity |].
  cbn. f_equal. exact IH.
Qed.

Lemma keys_union_to_dict_records n cols :
  NoDup (cols.*1) -> n <> O ->
  keys_union (to_dict_records n cols) = cols.*1.
Proof.
  intros Hn Hz. destruct n as [| n]; [congruence |].
  unfold keys_union, to_dict_records. cbn [seq List.map foldl].
  rewrite keys_of_rendered_row.
  rewrite (foldl_add_key_fresh (cols.*1) []) by exact Hn. cbn [app].
  apply foldl_rows_known. intros r Hr k Hk.
  apply list_elem_of_In, in_map_iff in Hr as (i & <- & _).
  rewrite keys_of_rendered_row in Hk. exact Hk.
Qed.

Lemma dict_get_rendered_row (cols : list (string * list pyobj)) c v i :
  NoDup (cols.*1) -> (c, v) ∈ cols ->
  dict_get (List.map (fun cv => (fst cv, nth i (snd cv) PNaN)) cols) c
  = Some (nth i v PNaN).
Proof.
  unfold dict_get. induction cols as [| [c' v'] cols IH]; intros Hn Hin.
  - inversion Hin.
  - cbn [fmap list_fmap] in Hn. apply NoDup_cons in Hn as [Hc' Hn].
    cbn [List.map List.find fst snd].
    destruct (String.eqb c' c) eqn:He.
    + apply String.eqb_eq in He. subst c'.
      apply elem_of_cons in Hin as [Heq | Hin].
      * injection Heq as ->. reflexivity.
      * exfalso. apply Hc'. apply list_elem_of_fmap. exists (c, v). auto.
    + apply elem_of_cons in Hin as [Heq | Hin].
      * injection Heq as -> ->. rewrite String.eqb_refl in He. discriminate.
      * apply IH; assumption.
Qed.

Lemma column_of_to_dict_records n cols c v :
  NoDup (cols.*1) -> (c, v) ∈ cols -> length v = n ->
  column_of (to_dict_records n cols) c = v.
Proof.
  intros Hn Hin Hl. unfold column_of, to_dict_records.
  rewrite List.map_map.
  rewrite (map_ext _ (fun i => nth i v PNaN)).
  - subst n. apply map_nth_seq.
  - intros i. rewrite (dict_get_rendered_row cols c v i Hn Hin). reflexivity.
Qed.

(** Building a frame from the records of rendered columns gives back the
    columns. *)
Lemma pd_DataFrame_to_dict_records n cols :
  NoDup (cols.*1) ->
  Forall (fun cv => length (snd cv) = n) cols ->
  (n = O -> cols = []) ->
  pd_DataFrame (to_dict_records n cols)
  = mk_DataFrame n
      (List.map (fun cv => (fst cv, ObjectSeries (infer_objects (snd cv)))) cols).
Proof.
  intros Hn Hl Hz. unfold pd_DataFrame. rewrite length_to_dict_records. f_equal.
  destruct (decide (n = O)) as [-> | Hnz].
  - rewrite (Hz eq_refl). reflexivity.
  - rewrite keys_union_to_dict_records by assumption.
    change (cols.*1) with (List.map fst cols). rewrite List.map_map.
    apply map_ext_in. intros [c v] Hin. cbn [fst snd]. do 3 f_equal.
    apply column_of_to_dict_records; [exact Hn | apply list_elem_of_In, Hin |].
    rewrite Forall_forall in Hl. apply (Hl (c, v)). apply list_elem_of_In, Hin.
Qed.

(** *** The dtype of a column and its nulls *)






Lemma length_infer_objects v : length (infer_objects v) = length v.
Proof. unfold infer_objects. destruct (float64_column v); [apply length_map | reflexivity]. Qed.

Lemma fillna_fixed na v :
  (forall x, x ∈ v -> notnull x = false -> x = na) -> fillna na v = v.
Proof.
  intros H. unfold fillna. rewrite <- (map_id v) at 2.
  apply map_ext_in. intros x Hx. destruct (notnull x) eqn:E; [reflexivity |].
  symmetry. apply H; [apply list_elem_of_In, Hx | exact E].
Qed.



Lemma length_fillna na v : length (fillna na v) = length v.
Proof. apply length_map. Qed.

Lemma length_where_notnull b s :
  length (where_notnull b s) = length (strftime_series s).
Proof.
  destruct s; cbn [where_notnull strftime_series]; rewrite length_fillna;
    [reflexivity |]. cbn [strftime_series]. reflexivity.
Qed.

Lemma forallb_false_elem {A} (p : A -> bool) (v : list A) :
  forallb p v = false -> exists x, x ∈ v /\ p x = false.
Proof.
  induction v as [| y v IH]; [discriminate |]. cbn [forallb].
  destruct (p y) eqn:E.
  - intros H. destruct (IH H) as (x & Hx & Hp). exists x. split; [right |]; assumption.
  - intros _. exists y. split; [left | exact E].
Qed.




Lemma na_value_null b v :
  notnull (na_value b v) = false /\ is_str (na_value b v) = false.
Proof.
  unfold na_value. destruct (float64_column v); [split; reflexivity |].
  destruct (b && str_column v); split; reflexivity.
Qed.




Lemma render_datetime_series b ts :
  where_notnull b (DatetimeSeries ts) = List.map (render b) ts.
Proof.
  cbn [where_notnull strftime_series]. unfold fillna. rewrite List.map_map.
  apply map_ext. intros [t |]; reflexivity.
Qed.

Lemma string_na_null b :
  notnull (string_na b) = false /\ is_str (string_na b) = false.
Proof. destruct b; split; reflexivity. Qed.


Lemma strftime_not_empty t : String.eqb (strftime t) "" = false.
Proof. reflexivity. Qed.

Section NormalizerProperties.

Variable infer : pandas_library.

Lemma infer_instant_valid x text t :
  infer_instant infer x text = Ok (Some t) -> valid_instant t = true.
Proof.
  unfold infer_instant. destruct (infer_datetime infer x) as [[t' |] |]; try discriminate.
  destruct (valid_instant t') eqn:Hv; [| discriminate].
  intros [= <-]. exact Hv.
Qed.

(** Every instant that [pd.to_datetime] returns is a valid one. *)
Lemma to_datetime_obj_valid x t :
  to_datetime_obj infer x = Ok (Some t) -> valid_instant t = true.
Proof.
  destruct x as [| | b | n | q | s]; cbn [to_datetime_obj];
    try discriminate; try apply infer_instant_valid.
  destruct (String.eqb s ""); [discriminate |].
  destruct (parse_iso8601 s) as [t' |] eqn:Hp.
  - intros [= <-]. exact (parse_iso8601_valid _ _ Hp).
  - apply infer_instant_valid.
Qed.

Lemma to_datetime_obj_canonical x :
  canonical (infer_string infer) x ->
  exists o, to_datetime_obj infer x = Ok o /\ render (infer_string infer) o = x.
Proof.
  intros [-> | (t & Hv & ->)].
  - exists None. split; [destruct (infer_string infer) |]; reflexivity.
  - exists (Some (floor_second t)). cbn [to_datetime_obj].
    rewrite strftime_not_empty, (parse_strftime t Hv). split; [reflexivity |].
    cbn [render]. rewrite strftime_floor_second. reflexivity.
Qed.

Lemma to_datetime_list_canonical v :
  Forall (canonical (infer_string infer)) v ->
  exists ts, to_datetime_list infer v = Ok ts
             /\ List.map (render (infer_string infer)) ts = v.
Proof.
  induction 1 as [| x v Hx _ (ts & Hts & Hr)].
  - exists []. split; reflexivity.
  - destruct (to_datetime_obj_canonical x Hx) as (o & Ho & Hro).
    exists (o :: ts). cbn [to_datetime_list]. rewrite Ho, Hts.
    split; [reflexivity |]. cbn [List.map]. rewrite Hro, Hr. reflexivity.
Qed.

Lemma to_datetime_list_Ok v : forall ts,
  to_datetime_list infer v = Ok ts ->
  length ts = length v
  /\ Forall (canonical (infer_string infer)) (List.map (render (infer_string infer)) ts)
  /\ Forall2 (fun x o => to_datetime_obj infer x = Ok o) v ts.
Proof.
  induction v as [| x v IH]; intros ts; cbn [to_datetime_list].
  - intros [= <-]. repeat split; constructor.
  - destruct (to_datetime_obj infer x) as [o | e] eqn:Ho; [| discriminate].
    cbn [mbind result_bind].
    destruct (to_datetime_list infer v) as [ts' | e]; [| discriminate].
    cbn [mbind result_bind]. intros [= <-].
    destruct (IH ts' eq_refl) as (Hl & Hc & Hf).
    split; [cbn; congruence |]. split; [| constructor; assumption].
    cbn [List.map]. constructor; [| exact Hc].
    destruct o as [t |]; [right | left; reflexivity].
    exists t. split; [exact (to_datetime_obj_valid _ _ Ho) | reflexivity].
Qed.

(** An element that cannot be converted makes the whole conversion
    raise. *)
Lemma to_datetime_list_Raise v x :
  x ∈ v -> is_Ok (to_datetime_obj infer x) = false ->
  is_Ok (to_datetime_list infer v) = false.
Proof.
  induction 1 as [x v | x y v _ IH]; intros Hx; cbn [to_datetime_list].
  - destruct (to_datetime_obj infer x); [discriminate | reflexivity].
  - destruct (to_datetime_obj infer y); [| reflexivity]. cbn [mbind result_bind].
    specialize (IH Hx).
    destruct (to_datetime_list infer v); [discriminate | reflexivity].
Qed.

End NormalizerProperties.

(** *** The normalizer on frames of Python objects *)


Lemma object_columns_names cols : (object_columns cols).*1 = cols.*1.
Proof. induction cols as [| cv cols IH]; [reflexivity | cbn; f_equal; exact IH]. Qed.

Lemma find_object_column cols c :
  c ∈ cols.*1 ->
  exists v, (c, v) ∈ cols
    /\ List.find (fun cs => String.eqb (fst cs) c) (object_columns cols)
       = Some (c, ObjectSeries v).
Proof.
  induction cols as [| [c' v'] cols IH]; intros Hin.
  - inversion Hin.
  - cbn [object_columns List.map List.find fst snd].
    destruct (String.eqb c' c) eqn:He.
    + apply String.eqb_eq in He. subst c'. exists v'. split; [left | reflexivity].
    + cbn [fmap list_fmap fst] in Hin. apply elem_of_cons in Hin as [-> | Hin].
      * rewrite String.eqb_refl in He. discriminate.
      * destruct (IH Hin) as (v & Hv & Hf). exists v. split; [right; exact Hv | exact Hf].
Qed.

Lemma unique_column (cols : list (string * list pyobj)) c v v' :
  NoDup (cols.*1) -> (c, v) ∈ cols -> (c, v') ∈ cols -> v = v'.
Proof.
  induction cols as [| [c0 v0] cols IH]; intros Hn H1 H2; [inversion H1 |].
  cbn [fmap list_fmap fst] in Hn. apply NoDup_cons in Hn as [Hc Hn].
  apply elem_of_cons in H1 as [E1 | H1]; apply elem_of_cons in H2 as [E2 | H2].
  - congruence.
  - injection E1 as -> ->. exfalso. apply Hc, list_elem_of_fmap. exists (c0, v'). auto.
  - injection E2 as -> ->. exfalso. apply Hc, list_elem_of_fmap. exists (c0, v). auto.
  - exact (IH Hn H1 H2).
Qed.

Lemma rendered_object_frame b n cols :
  rendered_columns b (mk_DataFrame n (object_columns cols))
  = List.map (fun cv => (fst cv, where_notnull b (ObjectSeries (snd cv)))) cols.
Proof.
  unfold rendered_columns, object_columns. cbn [columns].
  rewrite List.map_map. reflexivity.
Qed.

Lemma rendered_setitem b n cols ts :
  rendered_columns b
    (setitem (mk_DataFrame n (object_columns cols)) "Timestamp" (DatetimeSeries ts))
  = List.map (fun cv => (fst cv, if String.eqb (fst cv) "Timestamp"
                                 then List.map (render b) ts
                                 else where_notnull b (ObjectSeries (snd cv)))) cols.
Proof.
  unfold rendered_columns, setitem, object_columns. cbn [columns].
  rewrite !List.map_map. apply map_ext. intros [c v]. cbn [fst snd].
  destruct (String.eqb c "Timestamp"); cbn [fst snd]; [| reflexivity].
  rewrite render_datetime_series. reflexivity.
Qed.



Section NormalizerOnFrames.

Variable infer : pandas_library.

(** The two cases of [_parse_timestamp] on a frame of Python objects. *)
Lemma parse_timestamp_object_frame n cols :
  let df := mk_DataFrame n (object_columns cols) in
  (("Timestamp" ∉ cols.*1) /\ _parse_timestamp infer df = Ok df)
  \/ (exists v, ("Timestamp", v) ∈ cols
        /\ _parse_timestamp infer df
           = (ts ← to_datetime_list infer v;
              Ok (setitem df "Timestamp" (DatetimeSeries ts)))).
Proof.
  intros df. unfold _parse_timestamp, column_names. subst df. cbn [columns].
  rewrite object_columns_names.
  destruct (existsb (String.eqb "Timestamp") (cols.*1)) eqn:He.
  - right. apply existsb_eqb_elem_of in He.
    destruct (find_object_column cols "Timestamp" He) as (v & Hv & Hf).
    exists v. split; [exact Hv |].
    unfold getitem. cbn [columns]. rewrite Hf. cbn [snd mbind result_bind to_datetime].
    destruct (to_datetime_list infer v); reflexivity.
  - left. split; [| reflexivity]. intros Hin.
    apply existsb_eqb_elem_of in Hin. congruence.
Qed.


(** Wire records are a fixed point of the normalizer. *)
Lemma normalize_wire_records n cols :
  wire_columns (infer_string infer) n cols ->
  normalize infer (to_dict_records n cols) = Ok (to_dict_records n cols).
Proof.
  intros (Hn & Hl & Hz & Hw & Hc). unfold normalize.
  rewrite (pd_DataFrame_to_dict_records n cols Hn Hl Hz).
  assert (List.map (fun cv => (fst cv, ObjectSeries (infer_objects (snd cv)))) cols
          = object_columns cols) as ->.
  { unfold object_columns. apply map_ext_in. intros [c v] Hin. cbn [fst snd].
    rewrite Forall_forall in Hw.
    destruct (Hw (c, v) (proj2 (list_elem_of_In _ _) Hin)) as [Hfix _].
    cbn [snd] in Hfix. rewrite Hfix. reflexivity. }
  assert (List.map (fun cv => (fst cv, where_notnull (infer_string infer) (ObjectSeries (snd cv))))
                   cols = cols) as Hid.
  { rewrite <- (map_id cols) at 2. apply map_ext_in. intros [c v] Hin.
    cbn [fst snd]. f_equal. rewrite Forall_forall in Hw.
    apply (Hw (c, v)), list_elem_of_In, Hin. }
  destruct (parse_timestamp_object_frame n cols) as [[Hno Hq] | (v & Hv & Hq)];
    rewrite Hq.
  - cbn [mbind result_bind]. unfold _df_to_records. cbn [nrows].
    fold (rendered_columns (infer_string infer) (mk_DataFrame n (object_columns cols))).
    rewrite rendered_object_frame, Hid. reflexivity.
  - assert (Forall (canonical (infer_string infer)) v) as Hcan.
    { rewrite Forall_forall in Hc. apply (Hc ("Timestamp", v) Hv). reflexivity. }
    destruct (to_datetime_list_canonical infer v Hcan) as (ts & Hts & Hr).
    rewrite Hts. cbn [mbind result_bind]. unfold _df_to_records.
    cbn [nrows setitem].
    fold (setitem (mk_DataFrame n (object_columns cols)) "Timestamp" (DatetimeSeries ts)).
    fold (rendered_columns (infer_string infer)
            (setitem (mk_DataFrame n (object_columns cols)) "Timestamp"
                     (DatetimeSeries ts))).
    rewrite rendered_setitem. do 2 f_equal.
    rewrite <- Hid at 2. apply map_ext_in. intros [c v'] Hin. cbn [fst snd].
    destruct (String.eqb c "Timestamp") eqn:E; [| reflexivity].
    apply String.eqb_eq in E. subst c. f_equal. rewrite Hr.
    rewrite (unique_column cols "Timestamp" v' v Hn
               (proj2 (list_elem_of_In _ _) Hin) Hv).
    rewrite Forall_forall in Hw. symmetry. apply (Hw ("Timestamp", v) Hv).
Qed.


End NormalizerOnFrames.

(** *** Timestamps that cannot be read *)

Lemma getitem_names df c s :
  getitem df c = Ok s -> existsb (String.eqb c) (column_names df) = true.
Proof.
  unfold getitem, column_names.
  destruct (List.find _ (columns df)) as [cs |] eqn:Hf; [| discriminate].
  intros _. apply find_some in Hf as [Hin He]. apply String.eqb_eq in He.
  apply existsb_eqb_elem_of. subst c. apply list_elem_of_fmap.
  exists cs. split; [reflexivity | apply list_elem_of_In, Hin].
Qed.

Lemma getitem_setitem df c s s' :
  getitem df c = Ok s -> getitem (setitem df c s') c = Ok s'.
Proof.
  unfold getitem, setitem. cbn [columns].
  induction (columns df) as [| [c0 s0] cols IH]; cbn [List.find List.map fst snd].
  - discriminate.
  - destruct (String.eqb c0 c) eqn:He; cbn [List.find fst snd]; rewrite He.
    + reflexivity.
    + exact IH.
Qed.

(** C5, as amended.  A timestamp that cannot be parsed is fatal for the
    whole dataset: if one element of the column [Timestamp] cannot be
    converted, [_parse_timestamp] raises and no row is normalized; and when
    [_parse_timestamp] returns, every element of the column has been
    converted, none is left as the original scalar. *)
Theorem parse_timestamp_all_or_nothing infer df v :
  getitem df "Timestamp" = Ok (ObjectSeries v) ->
  (forall x, x ∈ v -> is_Ok (to_datetime_obj infer x) = false ->
     is_Ok (_parse_timestamp infer df) = false)
  /\ (forall df', _parse_timestamp infer df = Ok df' ->
        exists ts, getitem df' "Timestamp" = Ok (DatetimeSeries ts)
                   /\ Forall2 (fun x o => to_datetime_obj infer x = Ok o) v ts).
Proof.
  intros Hg. unfold _parse_timestamp.
  rewrite (getitem_names _ _ _ Hg), Hg. cbn [mbind result_bind to_datetime].
  split.
  - intros x Hx Hbad. pose proof (to_datetime_list_Raise infer v x Hx Hbad) as Hr.
    destruct (to_datetime_list infer v); [discriminate | reflexivity].
  - intros df'. destruct (to_datetime_list infer v) as [ts | e] eqn:Hts;
      cbn [fmap result_fmap mbind result_bind]; [| discriminate].
    intros [= <-]. exists ts. split.
    + exact (getitem_setitem _ _ _ _ Hg).
    + apply (to_datetime_list_Ok infer v ts Hts).
Qed.

(** [parse_timestamp_all_or_nothing] on a concrete input, its hypotheses evaluated. *)
Lemma parse_timestamp_all_or_nothing_witness :
  let df := pd_DataFrame rows_with_bad_timestamp in
  let v := [PStr "2024-01-01 10:00:00"; PStr "not a date"] in
  getitem df "Timestamp" = Ok (ObjectSeries v)
  /\ (forall x, x ∈ v -> is_Ok (to_datetime_obj iso_only x) = false ->
        is_Ok (_parse_timestamp iso_only df) = false)
  /\ (forall df', _parse_timestamp iso_only df = Ok df' ->
        exists ts, getitem df' "Timestamp" = Ok (DatetimeSeries ts)
                   /\ Forall2 (fun x o => to_datetime_obj iso_only x = Ok o) v ts).
Proof.
  cbv zeta. split; [vm_compute; reflexivity |].
  apply (parse_timestamp_all_or_nothing iso_only
           (pd_DataFrame rows_with_bad_timestamp)).
  vm_compute; reflexivity.
Defined.

(** C5 fails on the code: of two rows, the second has a timestamp that
    cannot be read; [_parse_timestamp] raises, the normalizer returns no
    record at all, and the load through the cache fails. *)
Lemma malformed_timestamp_aborts :
  to_datetime_obj iso_only (PStr "2024-01-01 10:00:00")
  = Ok (Some (mk_instant 2024 1 1 10 0 0 0))
  /\ _parse_timestamp iso_only (pd_DataFrame rows_with_bad_timestamp)
     = Raise (DateParseError "not a date")
  /\ normalize iso_only rows_with_bad_timestamp
     = Raise (DateParseError "not a date")
  /\ get_users_master 600 bad_timestamp_source iso_only (inject_Z 1000) initial_state
     = (Raise (DateParseError "not a date"),
        mk_state initial_cache (mk_World 0 1) 1).
Proof. repeat split; vm_compute; reflexivity. Qed.

(** *** Idempotence *)



(** The format of line 61 has no fractional field: an instant with half a
    second is rendered without it, and the text is read as the instant at
    the whole second. *)
Lemma strftime_drops_subsecond :
  valid_instant half_past = true
  /\ to_datetime_obj iso_only (PStr "2024-01-01 10:00:00.5") = Ok (Some half_past)
  /\ strftime half_past = "2024-01-01T10:00:00"
  /\ to_datetime_obj iso_only (PStr (strftime half_past))
     = Ok (Some (mk_instant 2024 1 1 10 0 0 0)).
Proof. repeat split; vm_compute; reflexivity. Qed.

(** ** Aggregation *)

Lemma find_filtered_column mask name cols :
  List.find (fun cs : string * series => String.eqb (fst cs) name)
    (List.map (fun cs => (fst cs, series_filter mask (snd cs))) cols)
  = (fun cs => (fst cs, series_filter mask (snd cs)))
      <$> List.find (fun cs => String.eqb (fst cs) name) cols.
Proof.
  induction cols as [| [c s] cols IH]; [reflexivity |].
  cbn [List.map List.find fst snd].
  destruct (String.eqb c name); [reflexivity | exact IH].
Qed.

Lemma getattr_filter df mask name s :
  getattr df name = Ok s ->
  getattr (df_filter df mask) name = Ok (series_filter mask s).
Proof.
  unfold getattr, df_filter. cbn [columns]. rewrite find_filtered_column.
  destruct (List.find _ (columns df)) as [cs |]; [| discriminate].
  intros [= <-]. reflexivity.
Qed.

Lemma getitem_filter df mask name :
  getitem (df_filter df mask) name = series_filter mask <$> getitem df name.
Proof.
  unfold getitem, df_filter. cbn [columns]. rewrite find_filtered_column.
  destruct (List.find _ (columns df)) as [cs |]; reflexivity.
Qed.

(** C4.  With the three columns present, [summary] returns
    [round(completed / total * 100, 2)] as conversion when [total] is not
    zero, and raises [ZeroDivisionError] when [total] is zero: the division
    is not guarded and no sentinel is returned. *)
Theorem summary_of_conversion df ids st ev :
  getattr df "TelegramUserID" = Ok ids ->
  getattr df "RegistrationStatus" = Ok st ->
  getattr df "EmailVerified" = Ok ev ->
  let total := nunique ids in
  let completed := nunique (series_filter (series_eq_str st "Completed") ids) in
  let verified := nunique (series_filter (series_eq_str ev "Yes") ids) in
  (total <> 0 ->
     summary_of df
     = Ok (mk_Summary total completed verified
             (FRound (FMul (FDiv completed total) 100) 2)))
  /\ (total = 0 -> summary_of df = Raise ZeroDivisionError).
Proof.
  intros Hi Hs He total completed verified. unfold summary_of.
  rewrite Hi, Hs, He. cbn [mbind result_bind].
  rewrite (getattr_filter _ (series_eq_str st "Completed") _ _ Hi).
  rewrite (getattr_filter _ (series_eq_str ev "Yes") _ _ Hi).
  cbn [mbind result_bind]. unfold true_div. fold total completed verified.
  split; intros Ht.
  - apply Z.eqb_neq in Ht. rewrite Ht. reflexivity.
  - apply Z.eqb_eq in Ht. rewrite Ht. reflexivity.
Qed.

(** [summary_of_conversion] on a concrete input, its hypotheses evaluated. *)
Lemma summary_of_conversion_witness :
  let df := pd_DataFrame sample_rows in
  let ids := ObjectSeries [PStr "u1"; PStr "u2"] in
  let st := ObjectSeries [PStr "Completed"; PStr "Pending"] in
  let ev := ObjectSeries [PStr "Yes"; PStr "No"] in
  getattr df "TelegramUserID" = Ok ids
  /\ getattr df "RegistrationStatus" = Ok st
  /\ getattr df "EmailVerified" = Ok ev
  /\ (let total := nunique ids in
      let completed := nunique (series_filter (series_eq_str st "Completed") ids) in
      let verified := nunique (series_filter (series_eq_str ev "Yes") ids) in
      (total <> 0 ->
         summary_of df
         = Ok (mk_Summary total completed verified
                 (FRound (FMul (FDiv completed total) 100) 2)))
      /\ (total = 0 -> summary_of df = Raise ZeroDivisionError)).
Proof.
  cbv zeta.
  split; [vm_compute; reflexivity |].
  split; [vm_compute; reflexivity |].
  split; [vm_compute; reflexivity |].
  apply (summary_of_conversion (pd_DataFrame sample_rows)); vm_compute; reflexivity.
Defined.

(** The scenario of the specification: two users, one completed, one
    verified. *)
Lemma summary_of_sample :
  summary_of (pd_DataFrame sample_rows)
  = Ok (mk_Summary 2 1 1 (FRound (FMul (FDiv 1 2) 100) 2)).
Proof. vm_compute. reflexivity. Qed.

(** The division by zero on inputs: the only row has no user id, [total] is zero,
    and the endpoint raises [ZeroDivisionError]; on a worksheet without rows
    the frame has no column and the endpoint raises [AttributeError]. *)
Lemma summary_zero_total_raises :
  summary_of (pd_DataFrame rows_without_id) = Raise ZeroDivisionError
  /\ fst (summary 600 no_id_source iso_only (inject_Z 1000) initial_state)
     = Raise ZeroDivisionError
  /\ fst (summary 600 (fun _ _ => Ok []) iso_only (inject_Z 1000) initial_state)
     = Raise (AttributeError "TelegramUserID").
Proof. repeat split; vm_compute; reflexivity. Qed.

(** The dashboard script computes the same ratio behind a guard: without
    users it shows the text of two dashes (line 653). *)
Lemma dashboard_conversion_guarded completed :
  JS.conversion completed 0 = JS.Dashes.
Proof. reflexivity. Qed.

(** *** The endpoint of one user *)

Lemma mask_filter_all_false {A} (mask : list bool) (xs : list A) :
  (forall b, b ∈ mask -> b = false) -> mask_filter mask xs = [].
Proof.
  revert xs. induction mask as [| b mask IH]; intros xs Hm; [reflexivity |].
  destruct xs as [| x xs]; [reflexivity |]. cbn [mask_filter].
  rewrite (Hm b) by left. apply IH. intros b' Hb'. apply Hm. right. exact Hb'.
Qed.

Lemma getattr_getitem df name s :
  getitem df name = Ok s -> getattr df name = Ok s.
Proof.
  unfold getitem, getattr.
  destruct (List.find _ (columns df)); [auto | discriminate].
Qed.

Section UserDataProperties.

Variable argsort : list pyobj -> result (list nat).

(** C9 on the code.  When no record has the requested user name,
    [user_data] never returns: with a datetime column [Timestamp] the
    selection is empty and [iloc[-1]] raises [IndexError], and in every
    other case another exception is raised before a result is built. *)
Theorem user_data_no_match_raises df username names :
  getattr df "TelegramUsername" = Ok names ->
  (forall b, b ∈ series_eq_str names username -> b = false) ->
  is_Ok (user_data_of argsort df username) = false
  /\ (forall ts, getitem df "Timestamp" = Ok (DatetimeSeries ts) ->
        user_data_of argsort df username = Raise IndexError).
Proof.
  intros Hn Hm. unfold user_data_of. rewrite Hn. cbn [mbind result_bind].
  set (mask := series_eq_str names username) in *.
  unfold sort_values. rewrite getitem_filter.
  destruct (getitem df "Timestamp") as [[v | v] | e] eqn:Hg;
    cbn [fmap result_fmap mbind result_bind series_filter].
  - (* a column of Python objects: [.dt] raises in the end *)
    split; [| intros ts; discriminate].
    rewrite (getattr_filter _ mask _ _ (getattr_getitem _ _ _ Hg)).
    cbn [series_filter].
    destruct (argsort (mask_filter mask v)) as [idx | e]; [| reflexivity].
    cbn [mbind result_bind].
    destruct (iloc_last _) as [last | e]; [| reflexivity]. cbn [mbind result_bind].
    repeat (match goal with
            | |- context [row_getattr last ?n] =>
                destruct (row_getattr last n); [| reflexivity];
                cbn [mbind result_bind]
            end).
    reflexivity.
  - (* a datetime column: the selection is empty *)
    rewrite (mask_filter_all_false mask v Hm).
    cbn [argsort_datetime length seq zip zip_with foldl fmap list_fmap
         mbind result_bind df_take iloc_last nrows].
    split; [reflexivity | intros ts _; reflexivity].
  - split; [reflexivity | intros ts; discriminate].
Qed.

End UserDataProperties.

(** [user_data_no_match_raises] on a concrete input, its hypotheses evaluated. *)
Lemma user_data_no_match_raises_witness :
  let df := mk_DataFrame 1
              [("TelegramUsername", ObjectSeries [PStr "bob"]);
               ("Timestamp", DatetimeSeries [Some (mk_instant 2024 1 2 10 0 0 0)])] in
  let names := ObjectSeries [PStr "bob"] in
  getattr df "TelegramUsername" = Ok names
  /\ (forall b, b ∈ series_eq_str names "alice" -> b = false)
  /\ is_Ok (user_data_of keep_order df "alice") = false
  /\ (forall ts, getitem df "Timestamp" = Ok (DatetimeSeries ts) ->
        user_data_of keep_order df "alice" = Raise IndexError).
Proof.
  cbv zeta.
  assert (forall b, b ∈ series_eq_str (ObjectSeries [PStr "bob"]) "alice" -> b = false)
    as Hm.
  { intros b Hb. vm_compute in Hb.
    apply list_elem_of_singleton in Hb. exact Hb. }
  split; [vm_compute; reflexivity |].
  split; [exact Hm |].
  apply (user_data_no_match_raises keep_order _ "alice"
           (ObjectSeries [PStr "bob"])); [vm_compute; reflexivity | exact Hm].
Defined.

(** The endpoint on the rows of one user: the profile is the row with the
    latest timestamp and the timeline counts the rows per date; for a user
    name that no row has, the endpoint raises [IndexError]. *)
Lemma user_data_on_rows_of_bob :
  fst (user_data keep_order 600 bob_source iso_only "bob" (inject_Z 1000) initial_state)
  = Ok (mk_UserData
          (mk_Profile (CObj (PStr "Bob")) (CObj (PStr "bob@example.org"))
                      (CObj (PStr "Completed")) (CObj (PStr "Gold"))
                      (CObj (PStr "High")))
          [((2024, 1, 1), 1); ((2024, 1, 2), 2)])
  /\ fst (user_data keep_order 600 bob_source iso_only "alice" (inject_Z 1000) initial_state)
     = Raise IndexError.
Proof. split; vm_compute; reflexivity. Qed.

(** ** Stripping white space *)

Section Stripping.

Variable sp : ascii -> bool.

Lemma drop_leading_suffix cs :
  exists pre, cs = (pre ++ drop_leading sp cs)%list
              /\ Forall (fun c => sp c = true) pre.
Proof.
  induction cs as [| c cs IH].
  - exists []. split; [reflexivity | constructor].
  - cbn [drop_leading]. destruct (sp c) eqn:E.
    + destruct IH as (pre & Hpre & Hall). exists (c :: pre). split.
      * cbn. f_equal. exact Hpre.
      * constructor; assumption.
    + exists []. split; [reflexivity | constructor].
Qed.

Lemma drop_leading_head cs c :
  head (drop_leading sp cs) = Some c -> sp c = false.
Proof.
  induction cs as [| d cs IH]; [discriminate |].
  cbn [drop_leading]. destruct (sp d) eqn:E; [exact IH |].
  cbn. intros [= <-]. exact E.
Qed.

Lemma drop_leading_fixed cs :
  (forall c, head cs = Some c -> sp c = false) -> drop_leading sp cs = cs.
Proof.
  destruct cs as [| c cs]; [reflexivity |]. intros H.
  cbn [drop_leading]. rewrite (H c eq_refl). reflexivity.
Qed.

Lemma drop_leading_idem cs :
  drop_leading sp (drop_leading sp cs) = drop_leading sp cs.
Proof. apply drop_leading_fixed, drop_leading_head. Qed.

Lemma drop_leading_nil cs :
  drop_leading sp cs = [] <-> Forall (fun c => sp c = true) cs.
Proof.
  induction cs as [| c cs IH].
  - split; [constructor | reflexivity].
  - cbn [drop_leading]. destruct (sp c) eqn:E.
    + rewrite IH. split.
      * intros H. constructor; assumption.
      * intros H. inversion H. assumption.
    + split; [discriminate |]. intros H. inversion H. congruence.
Qed.

(** What [strip_with] returns sits inside its argument, between
    characters of the class. *)
Lemma strip_with_infix cs :
  exists pre post, cs = (pre ++ strip_with sp cs ++ post)%list
                   /\ Forall (fun c => sp c = true) pre
                   /\ Forall (fun c => sp c = true) post.
Proof.
  unfold strip_with.
  destruct (drop_leading_suffix cs) as (pre & Hpre & Hall).
  destruct (drop_leading_suffix (rev (drop_leading sp cs))) as (q & Hq & Hallq).
  exists pre, (rev q). split; [| split].
  - rewrite Hpre at 1. f_equal.
    rewrite <- rev_app_distr, <- Hq, rev_involutive. reflexivity.
  - exact Hall.
  - apply Forall_forall. intros c Hc.
    apply list_elem_of_In, in_rev in Hc.
    rewrite Forall_forall in Hallq. apply Hallq.
    apply list_elem_of_In. exact Hc.
Qed.

Lemma head_rev_last (l : list ascii) : head (rev l) = last l.
Proof.
  induction l as [| x l IH] using rev_ind; [reflexivity |].
  rewrite rev_unit, last_snoc. reflexivity.
Qed.

Lemma strip_with_clean cs : clean_ends sp (strip_with sp cs).
Proof.
  unfold strip_with. set (a := drop_leading sp cs).
  set (t := drop_leading sp (rev a)). split.
  - intros c Hc.
    destruct (drop_leading_suffix (rev a)) as (q & Hq & _). fold t in Hq.
    assert (a = (rev t ++ rev q)%list) as Ha.
    { rewrite <- rev_app_distr, <- Hq, rev_involutive. reflexivity. }
    destruct (rev t) as [| d r] eqn:Er; [discriminate |].
    cbn in Hc. injection Hc as ->.
    apply (drop_leading_head cs). fold a. rewrite Ha. reflexivity.
  - intros c Hc. rewrite <- head_rev_last, rev_involutive in Hc.
    exact (drop_leading_head _ _ Hc).
Qed.

Lemma strip_with_fixed cs : clean_ends sp cs -> strip_with sp cs = cs.
Proof.
  intros [Hh Hl]. unfold strip_with.
  rewrite (drop_leading_fixed cs Hh).
  rewrite drop_leading_fixed; [apply rev_involutive |].
  intros c Hc. rewrite head_rev_last in Hc. exact (Hl c Hc).
Qed.

Lemma strip_with_idem cs :
  strip_with sp (strip_with sp cs) = strip_with sp cs.
Proof. apply strip_with_fixed, strip_with_clean. Qed.

Lemma strip_with_nil cs :
  strip_with sp cs = [] <-> Forall (fun c => sp c = true) cs.
Proof.
  split.
  - intros H. destruct (strip_with_infix cs) as (pre & post & Hcs & Hp & Hq).
    rewrite H in Hcs. rewrite Hcs. cbn. apply Forall_app. split; assumption.
  - intros H. unfold strip_with.
    apply drop_leading_nil in H. rewrite H. reflexivity.
Qed.

End Stripping.

Lemma lstrip_drop_leading cs : lstrip cs = drop_leading py_isspace cs.
Proof. induction cs as [| c cs IH]; [reflexivity |]. cbn. rewrite IH. reflexivity. Qed.

Lemma strip_strip_with cs : strip cs = strip_with py_isspace cs.
Proof. unfold strip, strip_with. rewrite !lstrip_drop_leading. reflexivity. Qed.

Lemma trim_start_drop_leading cs : JS.trim_start cs = drop_leading JS.is_space cs.
Proof. induction cs as [| c cs IH]; [reflexivity |]. cbn. rewrite IH. reflexivity. Qed.

Lemma trim_strip_with s :
  JS.trim s = string_of_list_ascii (strip_with JS.is_space (list_ascii_of_string s)).
Proof. unfold JS.trim, strip_with. rewrite !trim_start_drop_leading. reflexivity. Qed.

Lemma trim_idem s : JS.trim (JS.trim s) = JS.trim s.
Proof.
  rewrite !trim_strip_with, list_ascii_of_string_of_list_ascii, strip_with_idem.
  reflexivity.
Qed.


(** ** The dashboard script *)

(** *** [groupCounts] counts the records of each label *)

Lemma not_inherited_name key :
  key ∉ inherited_names -> JS.inherited key = JS.Undefined /\ key <> "__proto__".
Proof.
  intros H. split.
  - unfold JS.inherited. rewrite bool_decide_eq_false_2 by exact H. reflexivity.
  - intros ->. apply H. apply (bool_decide_unpack _). vm_compute. exact I.
Qed.

Lemma bump_lookup counts (f : string -> Z) key label :
  key ∉ inherited_names ->
  (forall l, 0 <= f l) ->
  (forall l, counts !! l = as_property (f l)) ->
  JS.bump counts key !! label
  = as_property (f label + (if bool_decide (key = label) then 1 else 0)).
Proof.
  intros Hkey Hf Hc. destruct (not_inherited_name key Hkey) as [Hi Hp].
  unfold JS.bump. destruct (String.eqb_spec key "__proto__") as [Hp' | _]; [contradiction |].
  case_bool_decide as Hk.
  - subst label. rewrite lookup_insert_eq, Hc, Hi. unfold as_property.
    pose proof (Hf key) as Hpos.
    destruct (Z.eqb_spec (f key) 0) as [E | E].
    + rewrite E. reflexivity.
    + cbn [JS.plus_one]. destruct (Z.eqb_spec (f key) 0); [contradiction |].
      destruct (Z.eqb_spec (f key + 1) 0); [lia | reflexivity].
  - rewrite lookup_insert_ne by exact Hk. rewrite Hc, Z.add_0_r. reflexivity.
Qed.

Lemma label_count_cons r rows col label :
  label_count (r :: rows) col label
  = (if bool_decide (JS.group_key (JS.get r col) = label) then 1 else 0)
    + label_count rows col label.
Proof.
  unfold label_count. cbn [List.filter].
  case_bool_decide; cbn [length]; lia.
Qed.

Lemma label_count_nonneg rows col label : 0 <= label_count rows col label.
Proof. unfold label_count. lia. Qed.

Lemma fold_bump_lookup col rows : forall counts (f : string -> Z),
  (forall r, r ∈ rows -> JS.group_key (JS.get r col) ∉ inherited_names) ->
  (forall l, 0 <= f l) ->
  (forall l, counts !! l = as_property (f l)) ->
  forall label,
    foldl (fun counts r => JS.bump counts (JS.group_key (JS.get r col))) counts rows
      !! label
    = as_property (f label + label_count rows col label).
Proof.
  induction rows as [| r rows IH]; intros counts f Hrows Hf Hc label.
  - cbn [foldl]. rewrite Hc. unfold label_count. cbn. rewrite Z.add_0_r. reflexivity.
  - cbn [foldl].
    rewrite (IH _ (fun l => f l + (if bool_decide (JS.group_key (JS.get r col) = l)
                                   then 1 else 0))).
    + rewrite label_count_cons. f_equal. lia.
    + intros r' Hr'. apply Hrows. right. exact Hr'.
    + intros l. pose proof (Hf l). case_bool_decide; lia.
    + intros l. apply bump_lookup; [apply Hrows; left | assumption ..].
Qed.

Lemma groupCounts_lookup rows col counts label :
  plain_labels rows (Some col) ->
  JS.groupCounts rows (Some col) = Some counts ->
  counts !! label = as_property (label_count rows col label).
Proof.
  intros [_ Hrows]. unfold JS.groupCounts.
  destruct (String.eqb col ""); [discriminate |].
  intros [= <-].
  rewrite (fold_bump_lookup col rows ∅ (fun _ => 0)).
  - reflexivity.
  - exact Hrows.
  - intros; lia.
  - intros l. apply lookup_empty.
Qed.

(** An unresolved column gives [null]. *)
Lemma groupCounts_unresolved rows :
  JS.groupCounts rows None = None /\ JS.groupCounts rows (Some "") = None.
Proof. split; reflexivity. Qed.

(** *** The label of a record is the one the specification describes *)

Lemma is_space_codes c :
  JS.is_space c = bool_decide (nat_of_ascii c ∈ whitespace_codes).
Proof. destruct c as [[] [] [] [] [] [] [] []]; vm_compute; reflexivity. Qed.

Lemma drop_leading_ext (p q : ascii -> bool) cs :
  (forall c, p c = q c) -> drop_leading p cs = drop_leading q cs.
Proof.
  intros H. induction cs as [| c cs IH]; [reflexivity |].
  cbn [drop_leading]. rewrite <- H, IH. reflexivity.
Qed.

Lemma trim_spec_strip s : JS.trim s = spec_strip s.
Proof.
  rewrite trim_strip_with. unfold spec_strip, strip_with. f_equal. f_equal.
  rewrite (drop_leading_ext _ _ _ is_space_codes). f_equal. f_equal.
  apply drop_leading_ext, is_space_codes.
Qed.

Lemma strip_with_no_space sp cs :
  Forall (fun c => sp c = false) cs -> strip_with sp cs = cs.
Proof.
  intros H. rewrite Forall_forall in H. apply strip_with_fixed. split.
  - intros c Hc. apply H. destruct cs as [| d cs]; [discriminate |].
    injection Hc as ->. left.
  - intros c Hc. apply H. apply last_Some in Hc as (l' & ->).
    apply elem_of_app. right. left.
Qed.

(** A decimal numeral holds no white space and is not empty. *)
Lemma uint_chars d :
  Forall (fun c => JS.is_space c = false)
         (list_ascii_of_string (NilEmpty.string_of_uint d)).
Proof. induction d; cbn; constructor; first [reflexivity | assumption]. Qed.

Lemma numeral_chars n :
  Forall (fun c => JS.is_space c = false)
         (list_ascii_of_string (NilZero.string_of_int (Z.to_int n)))
  /\ NilZero.string_of_int (Z.to_int n) <> "".
Proof.
  assert (forall d,
            Forall (fun c => JS.is_space c = false)
                   (list_ascii_of_string (NilZero.string_of_uint d))
            /\ NilZero.string_of_uint d <> "") as Hu.
  { intros d. split.
    - destruct d; try apply (uint_chars _). cbn. constructor; [reflexivity | constructor].
    - destruct d; discriminate. }
  destruct (Z.to_int n) as [d | d]; cbn [NilZero.string_of_int].
  - apply Hu.
  - split; [| discriminate]. cbn. constructor; [reflexivity | apply Hu].
Qed.

Lemma to_int_not_nil n : Z.to_int n <> Pos Nil /\ Z.to_int n <> Neg Nil.
Proof.
  destruct n as [| p | p]; cbn; split; try discriminate;
    intros [= H]; exact (Unsigned.to_uint_nonnil p H).
Qed.

(** The label of a number is the decimal numeral that reads as it. *)
Lemma group_key_number n label :
  bool_decide (JS.group_key (JS.Num n) = label)
  = bool_decide (NilZero.int_of_string label = Some (Z.to_int n)).
Proof.
  unfold JS.group_key. cbv zeta. cbn [JS.String_].
  destruct (numeral_chars n) as [Hc Hne].
  assert (JS.trim (NilZero.string_of_int (Z.to_int n))
          = NilZero.string_of_int (Z.to_int n)) as ->.
  { rewrite trim_strip_with, (strip_with_no_space _ _ Hc).
    apply string_of_list_ascii_of_string. }
  destruct (String.eqb_spec (NilZero.string_of_int (Z.to_int n)) "");
    [contradiction |].
  apply bool_decide_ext. split.
  - intros <-. destruct (to_int_not_nil n). apply NilZero.isi; assumption.
  - intros H. apply NilZero.sis, H.
Qed.

Lemma spec_field_find (r : JS.obj) col :
  spec_field r col = snd <$> List.find (fun kv => String.eqb (fst kv) col) r.
Proof.
  unfold spec_field. induction r as [| [k v] r IH]; [apply lookup_empty |].
  cbn [list_to_map foldr List.find fst snd].
  destruct (String.eqb_spec k col) as [-> | Hne].
  - apply lookup_insert_eq.
  - rewrite lookup_insert_ne by exact Hne. exact IH.
Qed.

Lemma get_spec_field (r : JS.obj) col :
  col ∉ inherited_names ->
  JS.get r col = default JS.Undefined (spec_field r col).
Proof.
  intros Hcol. rewrite spec_field_find. unfold JS.get.
  destruct (List.find _ r); [reflexivity |].
  exact (proj1 (not_inherited_name col Hcol)).
Qed.

(** [label] is the label of a record for the specification exactly when it
    is the key under which [groupCounts] counts the record. *)
Lemma spec_label_group_key r col label :
  col ∉ inherited_names ->
  spec_label (spec_field r col) label
  = bool_decide (JS.group_key (JS.get r col) = label).
Proof.
  intros Hcol. rewrite (get_spec_field r col Hcol).
  assert (forall s : string,
            String.eqb label s = bool_decide (s = label)) as Heqb.
  { intros s. destruct (String.eqb_spec label s) as [-> | Hne].
    - symmetry. apply bool_decide_eq_true. reflexivity.
    - symmetry. apply bool_decide_eq_false. congruence. }
  destruct (spec_field r col) as [[| | [] | n | s] |]; cbn [default spec_label].
  - apply Heqb.
  - apply Heqb.
  - apply Heqb.
  - apply Heqb.
  - symmetry. apply group_key_number.
  - rewrite Heqb. unfold JS.group_key. cbv zeta. cbn [JS.String_].
    rewrite trim_spec_strip. reflexivity.
  - apply Heqb.
Qed.

Lemma spec_count_label_count rows col label :
  col ∉ inherited_names ->
  spec_count rows col label = label_count rows col label.
Proof.
  intros Hcol. unfold spec_count, label_count. do 2 f_equal.
  apply filter_ext. intros r. apply spec_label_group_key, Hcol.
Qed.

(** C6.  For a resolved column, where neither the column nor a label is a
    name that every object inherits and the numbers are ones that a double
    holds exactly, [groupCounts] maps each label to the number of records
    that hold it and has no other property.  The label of a record is
    ["Unknown"] for a value that is absent or null, and else the value as a
    string, a number as its decimal numeral and a boolean as its name, with
    surrounding white space stripped, and ["Unknown"] when nothing is left.
    On the example of the specification it yields
    [{"High": 1, "Unknown": 2}]; numbers, booleans and a second column are
    counted in [ledger_rows].  For the label ["constructor"], which one
    record holds, [counts] gets a text and not the count 1, and for the
    label ["__proto__"] it gets nothing. *)
Theorem groupCounts_counts_labels rows col :
  col <> "" ->
  plain_labels rows (Some col) ->
  safe_integers rows col ->
  (exists counts,
     JS.groupCounts rows (Some col) = Some counts
     /\ forall label,
          counts !! label
          = if spec_count rows col label =? 0 then None
            else Some (JS.Num (spec_count rows col label)))
  /\ JS.groupCounts risk_rows (Some "Risk")
     = Some (<["High" := JS.Num 1]> (<["Unknown" := JS.Num 2]> ∅))
  /\ JS.groupCounts ledger_rows (Some "Units")
     = Some (<["7" := JS.Num 2]> (<["true" := JS.Num 1]>
              (<["-3" := JS.Num 1]> (<["Unknown" := JS.Num 1]> ∅))))
  /\ JS.groupCounts ledger_rows (Some "Plan")
     = Some (<["Gold" := JS.Num 2]> (<["Silver" := JS.Num 3]> ∅))
  /\ spec_count inherited_label_rows "Risk" "constructor" = 1
  /\ JS.groupCounts inherited_label_rows (Some "Risk")
     = Some {["constructor" := JS.Str "function Object() { [native code] }1"]}
  /\ spec_count proto_label_rows "Risk" "__proto__" = 2
  /\ JS.groupCounts proto_label_rows (Some "Risk") = Some ∅.
Proof.
  intros Hcol Hplain _.
  split; [| repeat split; vm_compute; reflexivity].
  destruct (JS.groupCounts rows (Some col)) as [counts |] eqn:Hg.
  - exists counts. split; [reflexivity |]. intros label.
    rewrite (spec_count_label_count _ _ _ (proj1 Hplain)).
    exact (groupCounts_lookup _ _ _ label Hplain Hg).
  - unfold JS.groupCounts in Hg. destruct (String.eqb_spec col ""); [contradiction |].
    discriminate.
Qed.

Lemma risk_rows_plain : plain_labels risk_rows (Some "Risk").
Proof.
  split; [apply (bool_decide_unpack _); vm_compute; exact I |].
  intros r Hr. unfold risk_rows in Hr. rewrite !elem_of_cons in Hr.
  destruct Hr as [-> | [-> | [-> | Hr]]];
    [apply (bool_decide_unpack _); vm_compute; exact I .. | inversion Hr].
Qed.

Lemma ledger_rows_plain : plain_labels ledger_rows (Some "Units").
Proof.
  split; [apply (bool_decide_unpack _); vm_compute; exact I |].
  intros r Hr. unfold ledger_rows in Hr. rewrite !elem_of_cons in Hr.
  destruct Hr as [-> | [-> | [-> | [-> | [-> | Hr]]]]];
    [apply (bool_decide_unpack _); vm_compute; exact I .. | inversion Hr].
Qed.

Lemma ledger_rows_safe : safe_integers ledger_rows "Units".
Proof.
  intros r n Hr. unfold ledger_rows in Hr. rewrite !elem_of_cons in Hr.
  destruct Hr as [-> | [-> | [-> | [-> | [-> | Hr]]]]];
    [cbn; intros [= <-]; vm_compute; discriminate .. | inversion Hr].
Qed.

(** [groupCounts_counts_labels] on a concrete input, its hypotheses
    evaluated. *)
Lemma groupCounts_counts_labels_witness :
  "Units" <> ""
  /\ plain_labels ledger_rows (Some "Units")
  /\ safe_integers ledger_rows "Units"
  /\ spec_count ledger_rows "Units" "7" = 2
  /\ spec_count ledger_rows "Units" "-3" = 1
  /\ spec_count ledger_rows "Units" "07" = 0
  /\ (exists counts,
        JS.groupCounts ledger_rows (Some "Units") = Some counts
        /\ forall label,
             counts !! label
             = if spec_count ledger_rows "Units" label =? 0 then None
               else Some (JS.Num (spec_count ledger_rows "Units" label)))
  /\ JS.groupCounts risk_rows (Some "Risk")
     = Some (<["High" := JS.Num 1]> (<["Unknown" := JS.Num 2]> ∅))
  /\ JS.groupCounts ledger_rows (Some "Units")
     = Some (<["7" := JS.Num 2]> (<["true" := JS.Num 1]>
              (<["-3" := JS.Num 1]> (<["Unknown" := JS.Num 1]> ∅))))
  /\ JS.groupCounts ledger_rows (Some "Plan")
     = Some (<["Gold" := JS.Num 2]> (<["Silver" := JS.Num 3]> ∅))
  /\ spec_count inherited_label_rows "Risk" "constructor" = 1
  /\ JS.groupCounts inherited_label_rows (Some "Risk")
     = Some {["constructor" := JS.Str "function Object() { [native code] }1"]}
  /\ spec_count proto_label_rows "Risk" "__proto__" = 2
  /\ JS.groupCounts proto_label_rows (Some "Risk") = Some ∅.
Proof.
  split; [discriminate |]. split; [exact ledger_rows_plain |].
  split; [exact ledger_rows_safe |].
  split; [vm_compute; reflexivity |]. split; [vm_compute; reflexivity |].
  split; [vm_compute; reflexivity |].
  apply (groupCounts_counts_labels ledger_rows "Units");
    [discriminate | exact ledger_rows_plain | exact ledger_rows_safe].
Defined.

(** *** [findColumn] *)

Lemma normalize_char_spec c :
  (if JS.is_a_z_0_9 (JS.to_lower c) then Some (JS.to_lower c) else None)
  = spec_normalize_char c.
Proof. destruct c as [[] [] [] [] [] [] [] []]; vm_compute; reflexivity. Qed.

(** [normalizeKey] is the normalization of the specification. *)
Lemma normalizeKey_spec k : JS.normalizeKey k = spec_normalize k.
Proof.
  unfold JS.normalizeKey, JS.toLowerCase, spec_normalize.
  rewrite list_ascii_of_string_of_list_ascii. f_equal.
  induction (list_ascii_of_string k) as [| c cs IH]; [reflexivity |].
  cbn [List.map List.filter omap list_omap].
  rewrite <- normalize_char_spec.
  destruct (JS.is_a_z_0_9 (JS.to_lower c)); rewrite IH; reflexivity.
Qed.

Lemma key_map_snoc keys k :
  JS.key_map (keys ++ [k])%list = <[JS.normalizeKey k := k]> (JS.key_map keys).
Proof. unfold JS.key_map. rewrite foldl_app. reflexivity. Qed.

(** [map] holds, for a normalized name, the last column that has it. *)
Lemma key_map_lookup keys nk :
  JS.key_map keys !! nk
  = List.find (fun k => String.eqb (JS.normalizeKey k) nk) (rev keys).
Proof.
  induction keys as [| k keys IH] using rev_ind.
  - reflexivity.
  - rewrite key_map_snoc, rev_unit. cbn [List.find].
    destruct (String.eqb_spec (JS.normalizeKey k) nk) as [-> | Hne].
    + apply lookup_insert_eq.
    + rewrite lookup_insert_ne by exact Hne. exact IH.
Qed.

Lemma find_rev_none {A} (p : A -> bool) (l : list A) :
  List.find p (rev l) = None -> existsb p l = false.
Proof.
  intros Hf. apply not_true_is_false. intros He.
  apply existsb_exists in He as (x & Hx & Hp).
  apply in_rev in Hx. pose proof (find_none _ _ Hf x Hx) as Hq. congruence.
Qed.

Lemma find_rev_some {A} (p : A -> bool) (l : list A) x :
  List.find p (rev l) = Some x -> existsb p l = true /\ In x l /\ p x = true.
Proof.
  intros Hf. apply find_some in Hf as [Hin Hp]. apply in_rev in Hin.
  split; [| split; assumption]. apply existsb_exists. exists x. auto.
Qed.

Lemma find_pointwise {A} (p q : A -> bool) (l : list A) :
  (forall x, p x = q x) -> List.find p l = List.find q l.
Proof.
  intros H. induction l as [| x l IH]; [reflexivity |].
  cbn [List.find]. rewrite H, IH. reflexivity.
Qed.

Lemma first_hit_first_match keys candidates :
  "" ∉ keys ->
  (forall c, c ∈ candidates -> spec_normalize c ∉ inherited_names) ->
  JS.first_hit (JS.key_map keys) candidates
  = match List.find (has_match keys) candidates with
    | Some c => List.find (fun k => same_normal_form k c) (rev keys)
    | None => None
    end.
Proof.
  intros Hkeys Hc. induction candidates as [| c rest IH]; [reflexivity |].
  assert (forall c', c' ∈ rest -> spec_normalize c' ∉ inherited_names) as Hrest
    by (intros c' Hc'; apply Hc; right; exact Hc').
  pose proof (Hc c ltac:(left)) as Hni.
  cbn [JS.first_hit List.find]. rewrite key_map_lookup.
  rewrite (find_pointwise
             (fun k => String.eqb (JS.normalizeKey k) (JS.normalizeKey c))
             (fun k => same_normal_form k c))
    by (intros k; unfold same_normal_form; rewrite !normalizeKey_spec; reflexivity).
  destruct (List.find (fun k => same_normal_form k c) (rev keys)) as [hit |] eqn:Hf.
  - destruct (find_rev_some _ _ _ Hf) as (He & Hin & Hp).
    unfold has_match at 1. rewrite He.
    destruct (String.eqb_spec hit "") as [-> | _]; [| exact (eq_sym Hf)].
    exfalso. apply Hkeys, list_elem_of_In, Hin.
  - unfold has_match at 1. rewrite (find_rev_none _ _ Hf).
    rewrite normalizeKey_spec, bool_decide_eq_false_2 by exact Hni.
    exact (IH Hrest).
Qed.

(** C7, as amended.  Where no column has the empty name, and no candidate
    has the normalized form of a name that every object inherits,
    [findColumn] takes the first candidate, by its position in the list,
    whose normalized form equals the normalized form of some column of the
    first record, and returns the column with that normalized form (the last
    one in key order); it returns [null] when no candidate matches and when
    there is no record.  On the example of the specification it succeeds. *)
Theorem findColumn_first_match row0 rest candidates :
  "" ∉ row0.*1 ->
  (forall c, c ∈ candidates -> spec_normalize c ∉ inherited_names) ->
  JS.findColumn (row0 :: rest) candidates
  = match List.find (has_match (row0.*1)) candidates with
    | Some c => List.find (fun k => same_normal_form k c) (rev (row0.*1))
    | None => None
    end
  /\ (forall c, List.find (has_match (row0.*1)) candidates = Some c ->
        exists col, JS.findColumn (row0 :: rest) candidates = Some col
                    /\ col ∈ row0.*1
                    /\ spec_normalize col = spec_normalize c)
  /\ (List.find (has_match (row0.*1)) candidates = None ->
      JS.findColumn (row0 :: rest) candidates = None)
  /\ JS.findColumn [] candidates = None
  /\ JS.findColumn plan_rows ["InvestmentPlanSelected"]
     = Some "Investment_Plan Selected".
Proof.
  intros Hkeys Hc.
  split; [| split; [| split; [| split; [reflexivity | vm_compute; reflexivity]]]].
  - cbn [JS.findColumn]. apply first_hit_first_match; assumption.
  - intros c Hfind. cbn [JS.findColumn].
    rewrite (first_hit_first_match _ _ Hkeys Hc), Hfind.
    apply find_some in Hfind as [_ Hm]. unfold has_match in Hm.
    destruct (List.find (fun k => same_normal_form k c) (rev (row0.*1)))
      as [col |] eqn:Hf.
    + destruct (find_rev_some _ _ _ Hf) as (_ & Hin & Hp).
      exists col. split; [reflexivity |].
      split; [apply list_elem_of_In, Hin | apply String.eqb_eq, Hp].
    + apply find_rev_none in Hf. congruence.
  - intros Hfind. cbn [JS.findColumn].
    rewrite (first_hit_first_match _ _ Hkeys Hc), Hfind. reflexivity.
Qed.

(** No candidate of a list that [reload] passes has the normalized form of
    an inherited name. *)
Lemma reload_candidates_plain :
  Forall (Forall (fun c => spec_normalize c ∉ inherited_names))
         reload_candidates.
Proof.
  unfold reload_candidates.
  repeat (constructor; try (apply (bool_decide_unpack _); vm_compute; exact I)).
Qed.

(** [findColumn_first_match] on a concrete input, its hypotheses evaluated:
    the candidates of [reload] for the plan of a subscription, on a record
    with two columns of one normalized form. *)
Lemma findColumn_first_match_witness :
  let candidates := ["Plan"; "PlanName"; "plan"] in
  candidates ∈ reload_candidates
  /\ ("" ∉ subscription_row.*1)
  /\ (forall c, c ∈ candidates -> spec_normalize c ∉ inherited_names)
  /\ List.find (has_match (subscription_row.*1)) candidates = Some "PlanName"
  /\ JS.findColumn [subscription_row] candidates = Some "plan_name"
  /\ (forall c, List.find (has_match (subscription_row.*1)) candidates = Some c ->
        exists col, JS.findColumn [subscription_row] candidates = Some col
                    /\ col ∈ subscription_row.*1
                    /\ spec_normalize col = spec_normalize c)
  /\ (List.find (has_match (subscription_row.*1)) candidates = None ->
      JS.findColumn [subscription_row] candidates = None)
  /\ JS.findColumn [] candidates = None
  /\ JS.findColumn plan_rows ["InvestmentPlanSelected"]
     = Some "Investment_Plan Selected".
Proof.
  cbv zeta.
  assert (["Plan"; "PlanName"; "plan"] ∈ reload_candidates) as Hin.
  { unfold reload_candidates. do 6 right. left. }
  assert ("" ∉ subscription_row.*1) as Hkeys
    by (apply (bool_decide_unpack _); vm_compute; exact I).
  assert (forall c, c ∈ ["Plan"; "PlanName"; "plan"] ->
            spec_normalize c ∉ inherited_names) as Hc.
  { pose proof reload_candidates_plain as Hall. rewrite Forall_forall in Hall.
    specialize (Hall _ Hin). rewrite Forall_forall in Hall. exact Hall. }
  split; [exact Hin |]. split; [exact Hkeys |]. split; [exact Hc |].
  split; [vm_compute; reflexivity |]. split; [vm_compute; reflexivity |].
  exact (proj2 (findColumn_first_match subscription_row []
                  ["Plan"; "PlanName"; "plan"] Hkeys Hc)).
Defined.

(** Without rows there is no column to resolve. *)
Lemma findColumn_no_rows candidates : JS.findColumn [] candidates = None.
Proof. reflexivity. Qed.

(** C7 fails on the code as it is stated: the candidate [""] has the
    normalized form of the column whose name is the empty string, so the
    claim has it resolved, and [findColumn] returns [null]: [if (hit)] takes
    the empty string for a miss.  Beside the columns ["-"] and [""] the
    candidate ["_"], which has the normalized form of both, is not resolved
    either. *)
Lemma findColumn_skips_empty_name :
  let row0 : JS.obj := [("", JS.Num 1)] in
  let row1 : JS.obj := [("-", JS.Num 1); ("", JS.Num 2)] in
  List.find (has_match (row0.*1)) [""] = Some ""
  /\ JS.findColumn [row0] [""] = None
  /\ JS.findColumn [row0] [""]
     <> match List.find (has_match (row0.*1)) [""] with
        | Some c => List.find (fun k => same_normal_form k c) (rev (row0.*1))
        | None => None
        end
  /\ List.find (has_match (row1.*1)) ["_"] = Some "_"
  /\ JS.findColumn [row1] ["_"] = None.
Proof.
  cbv zeta. split; [vm_compute; reflexivity |]. split; [vm_compute; reflexivity |].
  split; [vm_compute; discriminate |]. split; vm_compute; reflexivity.
Qed.

(** An inherited name is no column: a candidate with such a normalized
    form and no column of its own reads an inherited value, which
    [if (hit)] takes for a hit. *)
Lemma findColumn_inherited_name :
  has_match ["Status"] "Constructor" = false
  /\ JS.findColumn [[("Status", JS.Str "active")]] ["Constructor"]
     = Some "function Object() { [native code] }".
Proof. split; vm_compute; reflexivity. Qed.

(** * Further properties *)

(** ** The cache *)

Section CacheFurther.

Variable TTL : Z.

Lemma get_cached_dom key loader now st :
  dom (_cache (snd (_get_cached TTL key loader now st))) = dom (_cache st).
Proof.
  unfold _get_cached.
  destruct (_cache st !! key) as [e |] eqn:Hk; [| reflexivity].
  destruct (needs_refresh TTL now e); [| reflexivity].
  destruct (loader (world st)) as [[v | x] w]; cbn [snd _cache]; [| reflexivity].
  rewrite dom_insert_L.
  assert (key ∈ dom (_cache st)) as Hin by (apply elem_of_dom; eauto).
  apply set_eq. intros x. rewrite elem_of_union, elem_of_singleton.
  split; [intros [-> | Hx]; assumption | auto].
Qed.

(** X1.  [_get_cached] writes at most the entry of its key: the keys of
    [_cache] stay the same and the entry of every other key is untouched. *)
Theorem get_cached_touches_one_entry key loader now st :
  let st' := snd (_get_cached TTL key loader now st) in
  dom (_cache st') = dom (_cache st)
  /\ (forall k, k <> key -> _cache st' !! k = _cache st !! k).
Proof.
  cbv zeta. split; [apply get_cached_dom |].
  intros k Hne. unfold _get_cached.
  destruct (_cache st !! key) as [e |] eqn:Hk; [| reflexivity].
  destruct (needs_refresh TTL now e); [| reflexivity].
  destruct (loader (world st)) as [[v | x] w]; cbn [snd _cache]; [| reflexivity].
  apply lookup_insert_ne. congruence.
Qed.

(** X2.  With a TTL that is not negative, a call that returned an object is
    repeatable at the same reading of the clock: the second call returns the
    identical object, calls no loader and leaves the state as it is. *)
Theorem repeated_get_same_instant key loader1 loader2 now st o :
  0 <= TTL ->
  fst (_get_cached TTL key loader1 now st) = Ok (Some o) ->
  let st1 := snd (_get_cached TTL key loader1 now st) in
  _get_cached TTL key loader2 now st1 = (Ok (Some o), st1).
Proof.
  intros Httl. unfold _get_cached at 1 2.
  destruct (_cache st !! key) as [e |] eqn:Hk; [| discriminate].
  destruct (needs_refresh TTL now e) eqn:Hn.
  - destruct (loader1 (world st)) as [[v | x] w]; cbn [fst snd]; [| discriminate].
    intros [= ->].
    apply (get_cached_hit TTL key loader2 now _ (mk_entry now (Some o))).
    + cbn [_cache]. apply lookup_insert_eq.
    + apply (fresh_not_refreshed TTL now _ o); [reflexivity |].
      cbn [ts]. unfold Qminus. rewrite Qplus_opp_r.
      change 0%Q with (inject_Z 0). rewrite <- Zle_Qle. exact Httl.
  - cbn [fst snd]. intros [= Hd].
    rewrite (get_cached_hit TTL key loader2 now st e Hk Hn), Hd. reflexivity.
Qed.

(** X3.  With a TTL of zero or less, every call made at a reading of the
    clock later than the fetch time of the entry calls the loader. *)
Theorem nonpositive_ttl_always_refreshes key loader now st e :
  TTL <= 0 ->
  _cache st !! key = Some e ->
  (ts e < now)%Q ->
  loader_calls (snd (_get_cached TTL key loader now st)) = S (loader_calls st).
Proof.
  intros Httl Hk Hlt. apply (loader_called_iff TTL key loader now st e Hk).
  apply needs_refresh_iff. right.
  apply Qle_lt_trans with (y := 0%Q).
  - change 0%Q with (inject_Z 0). rewrite <- Zle_Qle. exact Httl.
  - apply Qlt_minus_iff in Hlt. exact Hlt.
Qed.

End CacheFurther.

Lemma get_cached_touches_one_entry_witness :
  let st' := snd (get_users_master 600 steady_source iso_only (inject_Z 1000)
                                   initial_state) in
  dom (_cache st') = dom (_cache initial_state)
  /\ (forall k, k <> "users_master" -> _cache st' !! k = _cache initial_state !! k).
Proof.
  exact (get_cached_touches_one_entry 600 "users_master"
           (load_users_master steady_source iso_only) (inject_Z 1000) initial_state).
Defined.

Lemma repeated_get_same_instant_witness :
  let loader := load_users_master steady_source iso_only in
  0 <= 600
  /\ fst (_get_cached 600 "users_master" loader (inject_Z 1000) initial_state)
     = Ok (Some first_object)
  /\ _get_cached 600 "users_master" loader (inject_Z 1000) loaded_at_1000
     = (Ok (Some first_object), loaded_at_1000).
Proof.
  cbv zeta. split; [lia |]. split; [vm_compute; reflexivity |].
  apply (repeated_get_same_instant 600 "users_master"
           (load_users_master steady_source iso_only)
           (load_users_master steady_source iso_only)
           (inject_Z 1000) initial_state first_object);
    [lia | vm_compute; reflexivity].
Defined.

Lemma nonpositive_ttl_always_refreshes_witness :
  let loader := load_users_master steady_source iso_only in
  let e := mk_entry (inject_Z 1000) (Some first_object) in
  0 <= 0
  /\ _cache loaded_at_1000 !! "users_master" = Some e
  /\ (ts e < inject_Z 1001)%Q
  /\ loader_calls (snd (_get_cached 0 "users_master" loader (inject_Z 1001)
                                    loaded_at_1000))
     = S (loader_calls loaded_at_1000).
Proof.
  cbv zeta. split; [lia |]. split; [vm_compute; reflexivity |].
  split; [vm_compute; reflexivity |].
  apply (nonpositive_ttl_always_refreshes 0 "users_master"
           (load_users_master steady_source iso_only) (inject_Z 1001)
           loaded_at_1000 (mk_entry (inject_Z 1000) (Some first_object)));
    [lia | vm_compute; reflexivity | vm_compute; reflexivity].
Defined.

(** *** The states reachable by requests *)

Section ReachableStates.

Variable TTL : Z.
Variable source : string -> nat -> result (list record).
Variable infer : pandas_library.

(** A load makes one request; it allocates one object when it succeeds and
    none when it fails. *)
Lemma load_sheet_cases sheet w :
  let r := load_sheet source infer sheet w in
  requests (snd r) = S (requests w)
  /\ ((exists x, fst r = Raise x /\ next_id (snd r) = next_id w)
      \/ (exists df, fst r = Ok (Some (mk_object (next_id w) df))
                     /\ next_id (snd r) = S (next_id w))).
Proof.
  cbv zeta. unfold load_sheet.
  destruct (source sheet (requests w)) as [rows | x]; cbn [fst snd requests next_id].
  - destruct (_parse_timestamp infer (pd_DataFrame rows)) as [df | x];
      cbn [fst snd requests next_id]; split; eauto.
  - split; eauto.
Qed.

Lemma initial_state_invariant : cache_invariant initial_state.
Proof.
  unfold cache_invariant, initial_state, initial_cache. cbn [_cache world].
  split; [| split; [| reflexivity]].
  - rewrite !dom_insert_L, dom_empty_L. apply set_eq. intros x.
    rewrite !elem_of_union, !elem_of_singleton, elem_of_empty. tauto.
  - intros k e o. rewrite lookup_insert. case_decide.
    + intros [= <-]. discriminate.
    + rewrite lookup_insert. case_decide.
      * intros [= <-]. discriminate.
      * rewrite lookup_empty. discriminate.
Qed.

Lemma invariant_step key sheet now st :
  cache_invariant st ->
  cache_invariant (snd (_get_cached TTL key (load_sheet source infer sheet) now st)).
Proof.
  intros (Hdom & Hids & Hcalls). unfold cache_invariant.
  split; [| split].
  - rewrite get_cached_dom. exact Hdom.
  - unfold _get_cached.
    destruct (_cache st !! key) as [e |] eqn:Hk; [| exact Hids].
    destruct (needs_refresh TTL now e); [| exact Hids].
    destruct (load_sheet_cases sheet (world st)) as (_ & Hc).
    destruct (load_sheet source infer sheet (world st)) as [[v | x] w];
      cbn [fst snd _cache world] in *.
    + destruct Hc as [(x & Hx & _) | (df & [= ->] & Hn)]; [discriminate |].
      intros k e' o. rewrite lookup_insert. case_decide.
      * intros [= <-]. cbn [data]. intros [= <-]. cbn [id]. lia.
      * intros He Hd. specialize (Hids k e' o He Hd). lia.
    + destruct Hc as [(x' & _ & Hn) | (df & Hx & _)]; [| discriminate].
      intros k e' o He Hd. specialize (Hids k e' o He Hd). lia.
  - unfold _get_cached.
    destruct (_cache st !! key) as [e |] eqn:Hk; [| exact Hcalls].
    destruct (needs_refresh TTL now e); [| exact Hcalls].
    destruct (load_sheet_cases sheet (world st)) as (Hr & _).
    destruct (load_sheet source infer sheet (world st)) as [[v | x] w];
      cbn [fst snd loader_calls world] in *; congruence.
Qed.

Lemma after_invariant (rqs : list request) :
  cache_invariant (after TTL source infer rqs).
Proof.
  unfold after. induction rqs as [| rq rqs IH] using rev_ind.
  - apply initial_state_invariant.
  - rewrite foldl_app. cbn [foldl].
    destruct rq as [now | now]; cbn [serve];
      unfold get_users_master, get_subscriptions, load_users_master,
        load_subscriptions; apply invariant_step, IH.
Qed.

(** X4.  After any sequence of requests from the start of the process,
    [_cache] has an entry for each of the two datasets and for nothing else
    (the lookup of line 81 cannot fail), every cached object was allocated
    before, and the loader was called once per request sent to the record
    source. *)
Theorem requests_keep_cache_invariant (rqs : list request) :
  let st := after TTL source infer rqs in
  cache_invariant st
  /\ is_Some (_cache st !! "users_master")
  /\ is_Some (_cache st !! "subscriptions").
Proof.
  cbv zeta. pose proof (after_invariant rqs) as Hinv.
  split; [exact Hinv |].
  destruct Hinv as (Hdom & _).
  split; apply elem_of_dom; rewrite Hdom;
    rewrite elem_of_union, !elem_of_singleton; auto.
Qed.

(** X5.  After any sequence of requests, a refresh that returns an object
    returns a new one: it is identical to no object held by [_cache] before
    the call. *)
Theorem refreshed_snapshot_is_new (rqs : list request) key sheet now o :
  let st := after TTL source infer rqs in
  let r := _get_cached TTL key (load_sheet source infer sheet) now st in
  loader_calls (snd r) = S (loader_calls st) ->
  fst r = Ok (Some o) ->
  forall k e o', _cache st !! k = Some e -> data e = Some o' -> o <> o'.
Proof.
  cbv zeta. intros Hcall Hres k e o' He Hd.
  destruct (after_invariant rqs) as (_ & Hids & _).
  specialize (Hids k e o' He Hd).
  unfold _get_cached in Hcall, Hres.
  destruct (_cache (after TTL source infer rqs) !! key) as [e0 |];
    [| cbn in Hcall; lia].
  destruct (needs_refresh TTL now e0); [| cbn in Hcall; lia].
  destruct (load_sheet_cases sheet (world (after TTL source infer rqs)))
    as (_ & Hc).
  destruct (load_sheet source infer sheet (world (after TTL source infer rqs)))
    as [[v | x] w]; cbn [fst snd] in *; [| discriminate].
  destruct Hc as [(x & Hx & _) | (df & [= ->] & _)]; [discriminate |].
  injection Hres as <-. intros Heq. rewrite <- Heq in Hids. cbn [id] in Hids. lia.
Qed.

(** A value read through the cache is never [None]. *)
Lemma get_cached_load_sheet_not_None key sheet now st :
  fst (_get_cached TTL key (load_sheet source infer sheet) now st) <> Ok None.
Proof.
  unfold _get_cached. destruct (_cache st !! key) as [e |]; [| discriminate].
  unfold needs_refresh. destruct (data e) as [o |] eqn:Hd.
  - destruct (expired TTL now e); cbn [fst]; [| discriminate].
    destruct (load_sheet_cases sheet (world st)) as (_ & Hc).
    destruct (load_sheet source infer sheet (world st)) as [[v | x] w];
      cbn [fst] in *; [| discriminate].
    destruct Hc as [(x & Hx & _) | (df & [= ->] & _)]; discriminate.
  - destruct (load_sheet_cases sheet (world st)) as (_ & Hc).
    destruct (load_sheet source infer sheet (world st)) as [[v | x] w];
      cbn [fst] in *; [| discriminate].
    destruct Hc as [(x & Hx & _) | (df & [= ->] & _)]; discriminate.
Qed.

(** X6.  When [/data] has read the users and the subscriptions cannot be
    read, the request fails with the exception of the second read, and
    [_cache] keeps what the first read left: the snapshot of the users is
    not rolled back. *)
Theorem all_data_keeps_first_dataset now1 now2 st users st1 e :
  users_master TTL source infer now1 st = (Ok users, st1) ->
  fst (subscriptions TTL source infer now2 st1) = Raise e ->
  fst (all_data TTL source infer now1 now2 st) = Raise e
  /\ _cache (snd (all_data TTL source infer now1 now2 st)) = _cache st1.
Proof.
  intros Hu Hs. unfold all_data. rewrite Hu.
  destruct (subscriptions TTL source infer now2 st1) as [[subs | e'] st2] eqn:Hsub;
    cbn [fst] in Hs; [discriminate |]. injection Hs as ->.
  split; [reflexivity |]. cbn [snd].
  unfold subscriptions in Hsub.
  pose proof (raise_leaves_cache TTL "subscriptions"
                (load_subscriptions source infer) now2 st1) as Hkeep.
  pose proof (get_cached_load_sheet_not_None "subscriptions" "SUBSCRIPTIONS"
                now2 st1) as Hnn.
  unfold get_subscriptions in Hsub.
  unfold load_subscriptions in *.
  destruct (_get_cached TTL "subscriptions" (load_sheet source infer "SUBSCRIPTIONS")
              now2 st1) as [[[o |] | x] st'] eqn:Hget; cbn [fst snd] in *.
  - cbn in Hsub. discriminate.
  - contradiction.
  - cbn in Hsub. injection Hsub as <- <-. apply (Hkeep x). reflexivity.
Qed.

End ReachableStates.

(** [refreshed_snapshot_is_new] on a concrete input, its hypotheses evaluated. *)
Lemma refreshed_snapshot_is_new_witness :
  let st := after 600 steady_source iso_only [ReadUsers (inject_Z 1000)] in
  let r := _get_cached 600 "users_master"
             (load_sheet steady_source iso_only "USERS_MASTER") (inject_Z 1700) st in
  loader_calls (snd r) = S (loader_calls st)
  /\ fst r = Ok (Some second_object)
  /\ (forall k e o', _cache st !! k = Some e -> data e = Some o' ->
        second_object <> o').
Proof.
  cbv zeta. split; [vm_compute; reflexivity |]. split; [vm_compute; reflexivity |].
  apply (refreshed_snapshot_is_new 600 steady_source iso_only
           [ReadUsers (inject_Z 1000)] "users_master" "USERS_MASTER"
           (inject_Z 1700) second_object); vm_compute; reflexivity.
Defined.

(** [all_data_keeps_first_dataset] on a concrete input, its hypotheses evaluated. *)
Lemma all_data_keeps_first_dataset_witness :
  let users := _df_to_records iso_only sample_frame in
  let e := SourceUnavailable "record source unavailable" in
  users_master 600 subscriptions_down iso_only (inject_Z 1000) initial_state
  = (Ok users, loaded_at_1000)
  /\ fst (subscriptions 600 subscriptions_down iso_only (inject_Z 1001) loaded_at_1000)
     = Raise e
  /\ fst (all_data 600 subscriptions_down iso_only (inject_Z 1000) (inject_Z 1001)
                   initial_state) = Raise e
  /\ _cache (snd (all_data 600 subscriptions_down iso_only (inject_Z 1000)
                           (inject_Z 1001) initial_state))
     = _cache loaded_at_1000.
Proof.
  cbv zeta. split; [vm_compute; reflexivity |]. split; [vm_compute; reflexivity |].
  apply (all_data_keeps_first_dataset 600 subscriptions_down iso_only
           (inject_Z 1000) (inject_Z 1001) initial_state
           (_df_to_records iso_only sample_frame) loaded_at_1000);
    vm_compute; reflexivity.
Defined.

(** ** The normalizer *)

Lemma setitem_names df c s : column_names (setitem df c s) = column_names df.
Proof.
  unfold column_names, setitem. cbn [columns].
  induction (columns df) as [| [c0 s0] cols IH]; [reflexivity |].
  cbn [List.map fmap list_fmap fst]. cbn in IH. rewrite <- IH.
  destruct (String.eqb c0 c); reflexivity.
Qed.

Lemma setitem_setitem df c s : setitem (setitem df c s) c s = setitem df c s.
Proof.
  unfold setitem. cbn [columns nrows]. f_equal. rewrite List.map_map.
  apply map_ext. intros [c0 s0]. cbn [fst].
  destruct (String.eqb c0 c) eqn:E; cbn [fst]; rewrite E; reflexivity.
Qed.

Lemma getitem_setitem_other df c s name :
  name <> c -> getitem (setitem df c s) name = getitem df name.
Proof.
  intros Hne. unfold getitem, setitem. cbn [columns].
  induction (columns df) as [| [c0 s0] cols IH]; [reflexivity |].
  cbn [List.map List.find fst snd].
  destruct (String.eqb_spec c0 c) as [-> | Hc]; cbn [fst snd].
  - destruct (String.eqb_spec c name) as [-> | _]; [contradiction | exact IH].
  - destruct (String.eqb c0 name); [reflexivity | exact IH].
Qed.

Lemma to_datetime_is_datetime infer s s' :
  to_datetime infer s = Ok s' ->
  exists ts, s' = DatetimeSeries ts
             /\ length ts = length (series_cells s).
Proof.
  destruct s as [v | v]; cbn [to_datetime series_cells].
  - destruct (to_datetime_list infer v) as [ts | e] eqn:Hts;
      cbn [fmap result_fmap]; [| discriminate].
    intros [= <-]. exists ts. split; [reflexivity |].
    rewrite length_map. apply (to_datetime_list_Ok infer v ts Hts).
  - intros [= <-]. exists v. split; [reflexivity |]. rewrite length_map. reflexivity.
Qed.

(** The outcome of [_parse_timestamp] that returns. *)
Lemma parse_timestamp_Ok infer df df' :
  _parse_timestamp infer df = Ok df' ->
  (~ has_column df "Timestamp" /\ df' = df)
  \/ (exists s ts, getitem df "Timestamp" = Ok s
                   /\ to_datetime infer s = Ok (DatetimeSeries ts)
                   /\ length ts = length (series_cells s)
                   /\ df' = setitem df "Timestamp" (DatetimeSeries ts)).
Proof.
  unfold _parse_timestamp, has_column.
  destruct (existsb (String.eqb "Timestamp") (column_names df)) eqn:He.
  - destruct (getitem df "Timestamp") as [s | e]; [| discriminate].
    cbn [mbind result_bind].
    destruct (to_datetime infer s) as [s' | e] eqn:Hs; [| discriminate].
    cbn [mbind result_bind]. intros [= <-]. right.
    destruct (to_datetime_is_datetime infer s s' Hs) as (ts & -> & Hl).
    exists s, ts. auto.
  - intros [= <-]. left. split; [| reflexivity].
    intros Hin. apply existsb_eqb_elem_of in Hin. congruence.
Qed.

(** X7.  [_parse_timestamp] is idempotent: on a frame that it returned it
    returns the same frame. *)
Theorem parse_timestamp_idempotent infer df df' :
  _parse_timestamp infer df = Ok df' ->
  _parse_timestamp infer df' = Ok df'.
Proof.
  intros Hp.
  destruct (parse_timestamp_Ok infer df df' Hp)
    as [[_ ->] | (s & ts & Hg & _ & _ & ->)]; [exact Hp |].
  unfold _parse_timestamp. rewrite setitem_names.
  rewrite (getitem_names _ _ _ Hg), (getitem_setitem _ _ _ _ Hg).
  cbn [mbind result_bind to_datetime]. rewrite setitem_setitem. reflexivity.
Qed.

(** [parse_timestamp_idempotent] on a concrete input, its hypotheses evaluated. *)
Lemma parse_timestamp_idempotent_witness :
  let df' := mk_DataFrame 2
               [("TelegramUserID", ObjectSeries [PStr "u1"; PStr "u2"]);
                ("Timestamp", DatetimeSeries [Some half_past; None])] in
  _parse_timestamp iso_only (pd_DataFrame rows_with_half_second) = Ok df'
  /\ _parse_timestamp iso_only df' = Ok df'.
Proof.
  cbv zeta. split; [vm_compute; reflexivity |].
  apply (parse_timestamp_idempotent iso_only (pd_DataFrame rows_with_half_second)).
  vm_compute; reflexivity.
Defined.

Lemma rectangular_setitem df c s :
  rectangular df ->
  (forall s0, getitem df c = Ok s0 ->
     length (series_cells s) = length (series_cells s0)) ->
  rectangular (setitem df c s).
Proof.
  unfold rectangular, setitem, getitem. cbn [columns nrows].
  induction (columns df) as [| [c0 s0] cols IH]; intros Hr Hl; [constructor |].
  apply Forall_cons in Hr as [H0 Hr]. cbn [List.map List.find fst snd] in *.
  destruct (String.eqb c0 c) eqn:E.
  - constructor.
    + cbn [snd] in *. rewrite (Hl s0 eq_refl). exact H0.
    + clear IH. induction cols as [| [c1 s1] cols IH']; [constructor |].
      apply Forall_cons in Hr as [H1 Hr]. cbn [List.map fst snd].
      constructor; [| exact (IH' Hr)].
      destruct (String.eqb c1 c); cbn [snd] in *; [| exact H1].
      rewrite (Hl s0 eq_refl). exact H0.
  - constructor; [exact H0 |]. apply IH; assumption.
Qed.

Lemma parse_timestamp_rectangular infer df df' :
  _parse_timestamp infer df = Ok df' -> rectangular df -> rectangular df'.
Proof.
  intros Hp Hr.
  destruct (parse_timestamp_Ok infer df df' Hp)
    as [[Hno ->] | (s & ts & Hg & _ & Hl & ->)]; [exact Hr |].
  apply rectangular_setitem; [exact Hr |].
  intros s0 Hs0. rewrite Hg in Hs0. injection Hs0 as <-.
  cbn [series_cells]. rewrite length_map. exact Hl.
Qed.

(** X8.  [_parse_timestamp] changes nothing but the column [Timestamp]: the
    number of rows, the names of the columns and every other column stay as
    they are, a rectangular frame stays rectangular, and a frame without
    that column is returned as it is. *)
Theorem parse_timestamp_keeps_shape infer df df' :
  _parse_timestamp infer df = Ok df' ->
  nrows df' = nrows df
  /\ column_names df' = column_names df
  /\ (forall name, name <> "Timestamp" -> getitem df' name = getitem df name)
  /\ (rectangular df -> rectangular df')
  /\ (~ has_column df "Timestamp" -> df' = df).
Proof.
  intros Hp.
  destruct (parse_timestamp_Ok infer df df' Hp)
    as [[Hno ->] | (s & ts & Hg & _ & Hl & ->)].
  - repeat split; auto.
  - split; [reflexivity |]. split; [apply setitem_names |].
    split; [intros name Hne; apply getitem_setitem_other, Hne |].
    split.
    + intros Hr. apply rectangular_setitem; [exact Hr |].
      intros s0 Hs0. rewrite Hg in Hs0. injection Hs0 as <-.
      cbn [series_cells]. rewrite length_map. exact Hl.
    + intros Hno. exfalso. apply Hno. unfold has_column.
      apply existsb_eqb_elem_of. exact (getitem_names _ _ _ Hg).
Qed.

(** [parse_timestamp_keeps_shape] on a concrete input, its hypotheses evaluated. *)
Lemma parse_timestamp_keeps_shape_witness :
  let df := pd_DataFrame rows_with_half_second in
  let df' := mk_DataFrame 2
               [("TelegramUserID", ObjectSeries [PStr "u1"; PStr "u2"]);
                ("Timestamp", DatetimeSeries [Some half_past; None])] in
  _parse_timestamp iso_only df = Ok df'
  /\ nrows df' = nrows df
  /\ column_names df' = column_names df
  /\ (forall name, name <> "Timestamp" -> getitem df' name = getitem df name)
  /\ (rectangular df -> rectangular df')
  /\ (~ has_column df "Timestamp" -> df' = df).
Proof.
  cbv zeta. split; [vm_compute; reflexivity |].
  apply (parse_timestamp_keeps_shape iso_only (pd_DataFrame rows_with_half_second)).
  vm_compute; reflexivity.
Defined.

(** Frames built from rows are rectangular and have distinct column
    names. *)
Lemma pd_DataFrame_rectangular rows :
  rectangular (pd_DataFrame rows) /\ NoDup (column_names (pd_DataFrame rows)).
Proof.
  unfold rectangular, pd_DataFrame, column_names. cbn [columns nrows]. split.
  - apply Forall_forall. intros x Hx.
    apply list_elem_of_In, in_map_iff in Hx as (c & <- & _).
    cbn [snd series_cells]. rewrite length_map, length_infer_objects.
    unfold column_of. apply length_map.
  - change ((List.map (fun c => (c, ObjectSeries (infer_objects (column_of rows c))))
               (keys_union rows)).*1)
      with (List.map fst
              (List.map (fun c => (c, ObjectSeries (infer_objects (column_of rows c))))
                        (keys_union rows))).
    rewrite List.map_map. cbn [fst]. rewrite map_id. apply NoDup_keys_union.
Qed.

Lemma length_strftime_series s :
  length (strftime_series s) = length (series_cells s).
Proof. destruct s; cbn [strftime_series series_cells]; rewrite ?length_map; reflexivity. Qed.

Lemma nth_fillna na v i :
  (i < length v)%nat ->
  nth i (fillna na v) PNaN = if notnull (nth i v PNaN) then nth i v PNaN else na.
Proof.
  intros Hi. unfold fillna.
  rewrite (nth_indep _ PNaN ((fun x => if notnull x then x else na) PNaN))
    by (rewrite length_map; exact Hi).
  exact (map_nth (fun x => if notnull x then x else na) v PNaN i).
Qed.

(** The value that [_df_to_records] gives for a cell. *)
Lemma wire_of_cell b s i :
  (i < length (series_cells s))%nat ->
  wire_of (cell_at s i) (nth i (where_notnull b s) PNaN).
Proof.
  destruct s as [v | ts]; cbn [series_cells cell_at where_notnull wire_of];
    rewrite length_map; intros Hi.
  - rewrite (nth_fillna _ v i Hi). destruct (notnull (nth i v PNaN)) eqn:E.
    + reflexivity.
    + apply na_value_null.
  - fold (where_notnull b (DatetimeSeries ts)). rewrite render_datetime_series.
    rewrite (nth_indep _ PNaN (render b None)) by (rewrite length_map; exact Hi).
    rewrite map_nth. destruct (nth i ts None) as [t |]; [reflexivity |].
    apply string_na_null.
Qed.

Lemma dict_get_record_of_columns (cols : list (string * list pyobj)) name i :
  dict_get (List.map (fun cv => (fst cv, nth i (snd cv) PNaN)) cols) name
  = (fun cv => nth i (snd cv) PNaN)
      <$> List.find (fun cv => String.eqb (fst cv) name) cols.
Proof.
  unfold dict_get. induction cols as [| [c v] cols IH]; [reflexivity |].
  cbn [List.map List.find fst snd]. destruct (String.eqb c name); [reflexivity |].
  exact IH.
Qed.

Lemma find_mapped_column {B} (g : series -> B) (cols : list (string * series)) name :
  List.find (fun cv => String.eqb (fst cv) name)
            (List.map (fun cs => (fst cs, g (snd cs))) cols)
  = (fun cs => (fst cs, g (snd cs)))
      <$> List.find (fun cs => String.eqb (fst cs) name) cols.
Proof.
  induction cols as [| [c s] cols IH]; [reflexivity |].
  cbn [List.map List.find fst snd]. destruct (String.eqb c name); [reflexivity |].
  exact IH.
Qed.

(** X9.  The records of a rectangular frame: one per row, each with the
    column names of the frame as its keys, in their order.  The value of a
    record for a column is the cell of its row when that is an object and
    not null, the text of the instant in the format of line 61 when it is an
    instant, and a null when the cell is null. *)
Theorem df_to_records_shape pd df :
  rectangular df ->
  length (_df_to_records pd df) = nrows df
  /\ (forall r, r ∈ _df_to_records pd df -> r.*1 = column_names df)
  /\ (forall i r name s,
        _df_to_records pd df !! i = Some r ->
        getitem df name = Ok s ->
        exists x, dict_get r name = Some x /\ wire_of (cell_at s i) x).
Proof.
  intros Hr. unfold _df_to_records. split; [apply length_to_dict_records |]. split.
  - intros r Hin. unfold to_dict_records in Hin.
    apply list_elem_of_In, in_map_iff in Hin as (i & <- & Hi).
    rewrite keys_of_rendered_row. unfold column_names.
    induction (columns df) as [| cs cols IH]; [reflexivity |].
    cbn. f_equal. exact IH.
  - intros i r name s Hi Hg. unfold to_dict_records in Hi.
    rewrite list_lookup_fmap in Hi.
    destruct (seq 0 (nrows df) !! i) as [j |] eqn:Hj; [| discriminate].
    cbn [fmap option_fmap option_map] in Hi. injection Hi as <-.
    apply lookup_seq in Hj as [-> Hlt]. cbn [Nat.add].
    rewrite dict_get_record_of_columns, find_mapped_column.
    unfold getitem in Hg.
    destruct (List.find (fun cs => String.eqb (fst cs) name) (columns df))
      as [cs |] eqn:Hf; [| discriminate].
    injection Hg as <-. cbn [fmap option_fmap option_map fst snd].
    eexists. split; [reflexivity |]. apply wire_of_cell.
    apply find_some in Hf as [Hin _].
    unfold rectangular in Hr. rewrite Forall_forall in Hr.
    rewrite (Hr cs (proj2 (list_elem_of_In _ _) Hin)). exact Hlt.
Qed.

(** [df_to_records_shape] on a concrete input, its hypotheses evaluated: a
    frame with a null in a column of numbers, in a column of strings and in
    the column of instants. *)
Lemma df_to_records_shape_witness :
  rectangular frame_with_nulls
  /\ _parse_timestamp iso_only (pd_DataFrame rows_with_nulls) = Ok frame_with_nulls
  /\ _df_to_records iso_only frame_with_nulls
     = [ [("TelegramUserID", PStr "u1"); ("Timestamp", PStr "2024-01-01T10:00:00");
          ("Age", PFloat 7); ("Plan", PStr "Gold")];
         [("TelegramUserID", PStr "u2"); ("Timestamp", PNone);
          ("Age", PNaN); ("Plan", PNone)] ]
  /\ length (_df_to_records iso_only frame_with_nulls) = nrows frame_with_nulls
  /\ (forall r, r ∈ _df_to_records iso_only frame_with_nulls ->
        r.*1 = column_names frame_with_nulls)
  /\ (forall i r name s,
        _df_to_records iso_only frame_with_nulls !! i = Some r ->
        getitem frame_with_nulls name = Ok s ->
        exists x, dict_get r name = Some x /\ wire_of (cell_at s i) x).
Proof.
  assert (rectangular frame_with_nulls) as Hr.
  { unfold rectangular, frame_with_nulls. repeat constructor. }
  split; [exact Hr |]. split; [vm_compute; reflexivity |].
  split; [vm_compute; reflexivity |].
  exact (df_to_records_shape iso_only frame_with_nulls Hr).
Defined.

(** *** Rows that come back unchanged *)

Lemma dict_get_elem_of (r : record) c :
  c ∈ r.*1 -> exists v, dict_get r c = Some v /\ (c, v) ∈ r.
Proof.
  unfold dict_get. induction r as [| [k v] r IH]; intros Hin; [inversion Hin |].
  cbn [List.find fst snd].
  destruct (String.eqb_spec k c) as [-> | Hne].
  - exists v. split; [reflexivity | left].
  - cbn [fmap list_fmap fst] in Hin. apply elem_of_cons in Hin as [-> | Hin];
      [contradiction |].
    destruct (IH Hin) as (v' & Hv & Hm). exists v'. split; [exact Hv | right; exact Hm].
Qed.

Lemma row_rebuild (r : record) : forall keys,
  r.*1 = keys -> NoDup keys ->
  List.map (fun c => (c, default PNaN (dict_get r c))) keys = r.
Proof.
  induction r as [| [k v] r IH]; intros keys <- Hn; [reflexivity |].
  cbn [fmap list_fmap fst List.map] in *. apply NoDup_cons in Hn as [Hk Hn].
  f_equal.
  - unfold dict_get. cbn [List.find fst]. rewrite String.eqb_refl. reflexivity.
  - rewrite <- (IH (r.*1) eq_refl Hn) at 2. apply map_ext_in.
    intros c Hc. f_equal. unfold dict_get. cbn [List.find fst].
    destruct (String.eqb_spec k c) as [-> | _]; [| reflexivity].
    exfalso. apply Hk, list_elem_of_In, Hc.
Qed.

Lemma rebuild_rows keys (rows : list record) :
  NoDup keys -> Forall (fun r => r.*1 = keys) rows ->
  List.map (fun i => List.map (fun c => (c, nth i (column_of rows c) PNaN)) keys)
           (seq 0 (length rows))
  = rows.
Proof.
  intros Hn. induction 1 as [| r rows Hr _ IH]; [reflexivity |].
  cbn [length seq List.map]. f_equal.
  - cbn [column_of List.map nth]. apply row_rebuild; assumption.
  - rewrite <- seq_shift, List.map_map. exact IH.
Qed.

Lemma notnull_column keys (rows : list record) c :
  Forall (fun r : record =>
            r.*1 = keys /\ Forall (fun kv => notnull (snd kv) = true) r) rows ->
  c ∈ keys ->
  Forall (fun x => notnull x = true) (column_of rows c).
Proof.
  intros Hrows Hc. unfold column_of. apply Forall_forall. intros x Hx.
  apply list_elem_of_In, in_map_iff in Hx as (r & <- & Hr).
  rewrite Forall_forall in Hrows.
  destruct (Hrows r (proj2 (list_elem_of_In _ _) Hr)) as [Hk Hv].
  destruct (dict_get_elem_of r c) as (v & -> & Hm); [rewrite Hk; exact Hc |].
  cbn [default]. rewrite Forall_forall in Hv. exact (Hv (c, v) Hm).
Qed.

(** A column without nulls that does not hold integers beside floats is
    settled. *)
Lemma settled_plain b v :
  Forall (fun x => notnull x = true) v -> mixes_numbers v = false -> settled b v.
Proof.
  intros Hnn Hmix. rewrite Forall_forall in Hnn. split.
  - unfold infer_objects. destruct (float64_column v) eqn:Hf; [| reflexivity].
    rewrite <- (map_id v) at 2. apply map_ext_in. intros x Hx.
    apply list_elem_of_In in Hx. pose proof (Hnn x Hx) as Hx1.
    destruct x; try reflexivity; try discriminate.
    (* an integer in a [float64] column stands beside a float *)
    exfalso. unfold mixes_numbers in Hmix.
    assert (existsb is_int v = true) as Hi.
    { apply existsb_exists. exists (PInt n). split; [apply list_elem_of_In, Hx |].
      reflexivity. }
    rewrite Hi in Hmix. cbn [andb] in Hmix.
    unfold float64_column in Hf. apply andb_true_iff in Hf as [Hf _].
    apply andb_true_iff in Hf as [Hnum Hnint]. apply negb_true_iff in Hnint.
    apply forallb_false_elem in Hnint as (y & Hy & Hyi).
    rewrite forallb_forall in Hnum.
    specialize (Hnum y (proj1 (list_elem_of_In _ _) Hy)).
    pose proof (Hnn y Hy) as Hy1.
    assert (existsb is_float v = true); [| congruence].
    apply existsb_exists. exists y. split; [apply list_elem_of_In, Hy |].
    destruct y; try discriminate; reflexivity.
  - cbn [where_notnull]. apply fillna_fixed. intros x Hx Hx0.
    rewrite (Hnn x Hx) in Hx0. discriminate.
Qed.

(** X10.  Rows that all have the same keys, none of them [Timestamp], whose
    values are not null and where no column holds integers beside floats
    come back from the normalizer as they went in: the endpoints
    [/users-master] and [/subscriptions] return such rows of the record
    source unchanged. *)
Theorem normalize_returns_uniform_rows infer keys (rows : list record) :
  NoDup keys ->
  "Timestamp" ∉ keys ->
  Forall (fun r => r.*1 = keys /\ Forall (fun kv => notnull (snd kv) = true) r) rows ->
  Forall (fun c => mixes_numbers (column_of rows c) = false) keys ->
  normalize infer rows = Ok rows.
Proof.
  intros Hn Hts Hrows Hmix. destruct rows as [| r0 rows0]; [reflexivity |].
  set (rows := r0 :: rows0) in *.
  assert (Forall (fun r : record => r.*1 = keys) rows) as Hkeys.
  { eapply Forall_impl; [exact Hrows |]. intros r [H _]. exact H. }
  set (cols := List.map (fun c => (c, column_of rows c)) keys).
  assert (to_dict_records (length rows) cols = rows) as Hrebuild.
  { unfold to_dict_records, cols.
    rewrite <- (rebuild_rows keys rows Hn Hkeys) at 2.
    apply map_ext. intros i. rewrite List.map_map. reflexivity. }
  assert (cols.*1 = keys) as Hnames.
  { unfold cols. change ((List.map (fun c => (c, column_of rows c)) keys).*1)
      with (List.map fst (List.map (fun c => (c, column_of rows c)) keys)).
    rewrite List.map_map. cbn [fst]. apply map_id. }
  rewrite <- Hrebuild. apply normalize_wire_records. unfold wire_columns.
  rewrite Hnames. split; [exact Hn |]. split; [| split; [| split]].
  - apply Forall_forall. intros x Hx.
    apply list_elem_of_In, in_map_iff in Hx as (c & <- & _). cbn [snd].
    unfold column_of. apply length_map.
  - discriminate.
  - apply Forall_forall. intros x Hx.
    apply list_elem_of_In, in_map_iff in Hx as (c & <- & Hc). cbn [snd].
    apply list_elem_of_In in Hc. apply settled_plain.
    + exact (notnull_column keys rows c Hrows Hc).
    + rewrite Forall_forall in Hmix. exact (Hmix c Hc).
  - apply Forall_forall. intros x Hx.
    apply list_elem_of_In, in_map_iff in Hx as (c & <- & Hc). cbn [fst].
    intros ->. exfalso. apply Hts, list_elem_of_In, Hc.
Qed.

(** [normalize_returns_uniform_rows] on a concrete input, its hypotheses
    evaluated: rows with integers, floats, booleans and strings, and a
    column that holds a string beside an integer. *)
Lemma normalize_returns_uniform_rows_witness :
  let keys := ["TelegramUserID"; "Name"; "Balance"; "Active"; "Note"] in
  NoDup keys
  /\ ("Timestamp" ∉ keys)
  /\ Forall (fun r : record =>
               r.*1 = keys /\ Forall (fun kv => notnull (snd kv) = true) r)
            account_rows
  /\ Forall (fun c => mixes_numbers (column_of account_rows c) = false) keys
  /\ normalize iso_only account_rows = Ok account_rows
  /\ normalize iso_only_str account_rows = Ok account_rows.
Proof.
  cbv zeta.
  assert (NoDup ["TelegramUserID"; "Name"; "Balance"; "Active"; "Note"]) as Hn.
  { apply (bool_decide_unpack _). vm_compute. exact I. }
  assert ("Timestamp" ∉ ["TelegramUserID"; "Name"; "Balance"; "Active"; "Note"])
    as Hts.
  { apply (bool_decide_unpack _). vm_compute. exact I. }
  assert (Forall (fun r : record =>
                    r.*1 = ["TelegramUserID"; "Name"; "Balance"; "Active"; "Note"]
                    /\ Forall (fun kv => notnull (snd kv) = true) r) account_rows)
    as Hrows.
  { unfold account_rows. repeat constructor. }
  assert (Forall (fun c => mixes_numbers (column_of account_rows c) = false)
                 ["TelegramUserID"; "Name"; "Balance"; "Active"; "Note"]) as Hmix.
  { repeat constructor. }
  split; [exact Hn |]. split; [exact Hts |]. split; [exact Hrows |].
  split; [exact Hmix |].
  split; [exact (normalize_returns_uniform_rows iso_only _ account_rows Hn Hts Hrows Hmix) |].
  exact (normalize_returns_uniform_rows iso_only_str _ account_rows Hn Hts Hrows Hmix).
Defined.

(** ** Aggregation *)

(** *** Counting distinct values *)

Section DistinctCount.

Context {A : Type} (eqb : A -> A -> bool) (P : A -> Prop).
Hypothesis eqb_sym : forall x y, P x -> P y -> eqb x y = eqb y x.
Hypothesis eqb_trans : forall x y z, P x -> P y -> P z ->
  eqb x y = true -> eqb y z = true -> eqb x z = true.

Lemma existsb_related x y l :
  P x -> P y -> Forall P l ->
  eqb x y = true -> existsb (eqb y) l = true -> existsb (eqb x) l = true.
Proof.
  intros Hx Hy Hl Hxy He. apply existsb_exists in He as (z & Hz & Hyz).
  apply existsb_exists. exists z. split; [exact Hz |].
  rewrite Forall_forall in Hl.
  apply (eqb_trans x y z); auto. apply Hl, list_elem_of_In, Hz.
Qed.

Lemma Forall_dedup_by l : Forall P l -> Forall P (dedup_by eqb l).
Proof.
  induction 1 as [| x l Hx Hl IH]; cbn [dedup_by]; [constructor |].
  destruct (existsb (eqb x) (dedup_by eqb l)); [exact IH | constructor; assumption].
Qed.

Lemma existsb_dedup_by x l :
  P x -> Forall P l ->
  existsb (eqb x) (dedup_by eqb l) = existsb (eqb x) l.
Proof.
  intros Hx. induction 1 as [| y l Hy Hl IH]; [reflexivity |].
  cbn [dedup_by existsb].
  destruct (existsb (eqb y) (dedup_by eqb l)) eqn:E; cbn [existsb]; rewrite IH;
    [| reflexivity].
  destruct (eqb x y) eqn:Exy; [| reflexivity]. cbn [orb].
  apply (existsb_related x y l); auto.
  rewrite <- E. symmetry.
  clear IH E. induction Hl as [| z l Hz Hl IH]; [reflexivity |].
  cbn [dedup_by existsb].
  destruct (existsb (eqb z) (dedup_by eqb l)) eqn:E; cbn [existsb]; rewrite IH;
    [| reflexivity].
  destruct (eqb y z) eqn:Eyz; [| reflexivity]. cbn [orb].
  rewrite <- IH. apply (existsb_related y z); auto using Forall_dedup_by.
Qed.

Lemma existsb_without x y l :
  P x -> P y -> Forall P l -> eqb x y = false ->
  existsb (eqb y) (List.filter (fun z => negb (eqb x z)) l) = existsb (eqb y) l.
Proof.
  intros Hx Hy Hl Hxy. induction Hl as [| z l Hz Hl IH]; [reflexivity |].
  cbn [List.filter existsb]. destruct (eqb x z) eqn:Exz; cbn [negb existsb].
  - rewrite IH. destruct (eqb y z) eqn:Eyz; [| reflexivity].
    exfalso. rewrite (eqb_sym y z Hy Hz) in Eyz.
    rewrite (eqb_trans x z y Hx Hz Hy Exz Eyz) in Hxy. discriminate.
  - rewrite IH. reflexivity.
Qed.

Lemma Forall_filter_P (f : A -> bool) l : Forall P l -> Forall P (List.filter f l).
Proof.
  induction 1 as [| x l Hx Hl IH]; cbn [List.filter]; [constructor |].
  destruct (f x); [constructor; assumption | exact IH].
Qed.

Lemma filter_all_unrelated x l :
  (forall z, In z l -> eqb x z = false) ->
  List.filter (fun z => negb (eqb x z)) l = l.
Proof.
  induction l as [| z l IH]; intros H; [reflexivity |].
  cbn [List.filter]. rewrite (H z) by (left; reflexivity). cbn [negb].
  f_equal. apply IH. intros z' Hz'. apply H. right. exact Hz'.
Qed.

Lemma dedup_without_one_class x l :
  P x -> Forall P l -> existsb (eqb x) l = true ->
  (S (length (dedup_by eqb (List.filter (fun z => negb (eqb x z)) l)))
   <= length (dedup_by eqb l))%nat.
Proof.
  intros Hx. induction 1 as [| y l Hy Hl IH]; [discriminate |].
  cbn [existsb List.filter dedup_by]. intros He.
  destruct (eqb x y) eqn:Exy; cbn [negb].
  - destruct (existsb (eqb y) (dedup_by eqb l)) eqn:E.
    + apply IH. rewrite existsb_dedup_by in E by assumption.
      apply (existsb_related x y l); auto.
    + cbn [length]. rewrite existsb_dedup_by in E by assumption.
      rewrite filter_all_unrelated; [lia |].
      intros z Hz. destruct (eqb x z) eqn:Exz; [| reflexivity].
      exfalso. rewrite Forall_forall in Hl.
      assert (P z) as Pz by (apply Hl, list_elem_of_In, Hz).
      assert (eqb y z = true) as Hyz.
      { apply (eqb_trans y x z); auto. rewrite (eqb_sym y x); auto. }
      assert (existsb (eqb y) l = true) as Hc
        by (apply existsb_exists; exists z; auto).
      congruence.
  - cbn [orb] in He. specialize (IH He). cbn [dedup_by].
    rewrite (existsb_dedup_by y) by auto using Forall_filter_P.
    rewrite (existsb_without x y l) by assumption.
    rewrite <- (existsb_dedup_by y l) by assumption.
    destruct (existsb (eqb y) (dedup_by eqb l)); cbn [length]; lia.
Qed.

(** A list whose elements all have an equal in another list has at most as
    many distinct values. *)
Lemma dedup_count_le l1 : forall l2,
  Forall P l1 -> Forall P l2 ->
  (forall x, In x l1 -> existsb (eqb x) l2 = true) ->
  (length (dedup_by eqb l1) <= length (dedup_by eqb l2))%nat.
Proof.
  induction l1 as [| x l1 IH]; intros l2 H1 H2 Hsub; [cbn; lia |].
  apply Forall_cons in H1 as [Hx H1]. cbn [dedup_by].
  destruct (existsb (eqb x) (dedup_by eqb l1)) eqn:E.
  - apply IH; auto. intros z Hz. apply Hsub. right. exact Hz.
  - cbn [length]. rewrite existsb_dedup_by in E by assumption.
    pose proof (dedup_without_one_class x l2 Hx H2 (Hsub x (or_introl eq_refl)))
      as Hone.
    specialize (IH (List.filter (fun z => negb (eqb x z)) l2) H1
                   (Forall_filter_P _ _ H2)).
    assert (forall z, In z l1 ->
              existsb (eqb z) (List.filter (fun z0 => negb (eqb x z0)) l2) = true)
      as Hsub'.
    { intros z Hz. rewrite Forall_forall in H1.
      assert (P z) as Pz by (apply H1, list_elem_of_In, Hz).
      rewrite (existsb_without x z l2); auto.
      - apply Hsub. right. exact Hz.
      - destruct (eqb x z) eqn:Exz; [| reflexivity].
        assert (existsb (eqb x) l1 = true) as Hc
          by (apply existsb_exists; exists z; auto).
        congruence. }
    specialize (IH Hsub'). lia.
Qed.

End DistinctCount.

(** Python [==] is an equivalence on the values that are not null. *)
Lemma Qeq_bool_sym_eq a b : Qeq_bool a b = Qeq_bool b a.
Proof.
  destruct (Qeq_bool a b) eqn:E1, (Qeq_bool b a) eqn:E2; try reflexivity.
  - apply Qeq_bool_iff in E1. symmetry in E1. apply Qeq_bool_iff in E1. congruence.
  - apply Qeq_bool_iff in E2. symmetry in E2. apply Qeq_bool_iff in E2. congruence.
Qed.

Lemma py_eq_refl x : notnull x = true -> py_eq x x = true.
Proof.
  destruct x as [| | b | n | q | s]; cbn [notnull py_eq numeric_value];
    try discriminate; intros _;
    try (apply Qeq_bool_iff; reflexivity).
  apply String.eqb_refl.
Qed.

Lemma py_eq_sym x y : py_eq x y = py_eq y x.
Proof.
  destruct x, y; cbn [py_eq numeric_value]; try reflexivity;
    try apply Qeq_bool_sym_eq.
  apply String.eqb_sym.
Qed.

Lemma py_eq_trans x y z :
  py_eq x y = true -> py_eq y z = true -> py_eq x z = true.
Proof.
  destruct x, y, z; cbn [py_eq numeric_value]; try discriminate; try reflexivity;
    try (intros H1 H2; apply Qeq_bool_iff in H1, H2; apply Qeq_bool_iff;
         etransitivity; eassumption).
  intros H1 H2. apply String.eqb_eq in H1, H2. subst. apply String.eqb_refl.
Qed.

Lemma mask_filter_In {A} (mask : list bool) (v : list A) x :
  In x (mask_filter mask v) -> In x v.
Proof.
  revert v. induction mask as [| b mask IH]; intros v; [contradiction |].
  destruct v as [| y v]; [contradiction |]. cbn [mask_filter].
  destruct b; [intros [-> | H]; [left; reflexivity | right; auto] | right; auto].
Qed.

Lemma nunique_nonneg s : 0 <= nunique s.
Proof. destruct s; cbn [nunique]; lia. Qed.

(** Selecting rows cannot add distinct values. *)
Lemma nunique_filter_le mask s : nunique (series_filter mask s) <= nunique s.
Proof.
  destruct s as [v | v]; cbn [series_filter nunique]; apply inj_le.
  - apply (dedup_count_le py_eq (fun x => notnull x = true)
             (fun x y _ _ => py_eq_sym x y)
             (fun x y z _ _ _ => py_eq_trans x y z)).
    + apply Forall_forall. intros x Hx.
      apply list_elem_of_In, filter_In in Hx. tauto.
    + apply Forall_forall. intros x Hx.
      apply list_elem_of_In, filter_In in Hx. tauto.
    + intros x Hx. apply filter_In in Hx as [Hx Hn].
      apply existsb_exists. exists x. split; [| apply py_eq_refl, Hn].
      apply filter_In. split; [| exact Hn]. exact (mask_filter_In _ _ _ Hx).
  - apply (dedup_count_le (fun a b : instant => bool_decide (a = b)) (fun _ => True)).
    + intros x y _ _. destruct (decide (x = y)) as [-> | Hne]; [reflexivity |].
      rewrite !bool_decide_eq_false_2; congruence.
    + intros x y z _ _ _ H1 H2.
      apply bool_decide_eq_true in H1, H2. apply bool_decide_eq_true. congruence.
    + apply Forall_forall. auto.
    + apply Forall_forall. auto.
    + intros x Hx. apply existsb_exists. exists x.
      split; [| apply bool_decide_eq_true; reflexivity].
      apply list_elem_of_In. apply list_elem_of_In in Hx.
      apply list_elem_of_omap in Hx as (o & Ho & Heq).
      apply list_elem_of_omap. exists o. split; [| exact Heq].
      apply list_elem_of_In, (mask_filter_In mask), list_elem_of_In, Ho.
Qed.

(** X11.  When [summary] returns, there is at least one user, the
    completed and the verified users are each between zero and the total,
    and the conversion is the rounded percentage of the completed users
    among all of them: of a ratio between 0 and 1. *)
Theorem summary_counts_bounded df s :
  summary_of df = Ok s ->
  0 < total s
  /\ 0 <= completed s <= total s
  /\ 0 <= verified s <= total s
  /\ conversion s = FRound (FMul (FDiv (completed s) (total s)) 100) 2.
Proof.
  unfold summary_of.
  destruct (getattr df "TelegramUserID") as [ids | e] eqn:Hi; [| discriminate].
  cbn [mbind result_bind].
  destruct (getattr df "RegistrationStatus") as [st | e] eqn:Hs; [| discriminate].
  cbn [mbind result_bind].
  rewrite (getattr_filter _ (series_eq_str st "Completed") _ _ Hi).
  cbn [mbind result_bind].
  destruct (getattr df "EmailVerified") as [ev | e] eqn:He; [| discriminate].
  cbn [mbind result_bind].
  rewrite (getattr_filter _ (series_eq_str ev "Yes") _ _ Hi).
  cbn [mbind result_bind]. unfold true_div.
  destruct (nunique ids =? 0) eqn:Hz; [discriminate |]. cbn [mbind result_bind].
  intros [= <-]. cbn [total completed verified conversion].
  apply Z.eqb_neq in Hz. pose proof (nunique_nonneg ids).
  pose proof (nunique_nonneg (series_filter (series_eq_str st "Completed") ids)).
  pose proof (nunique_nonneg (series_filter (series_eq_str ev "Yes") ids)).
  pose proof (nunique_filter_le (series_eq_str st "Completed") ids).
  pose proof (nunique_filter_le (series_eq_str ev "Yes") ids).
  repeat split; try lia.
Qed.

(** [summary_counts_bounded] on a concrete input, its hypotheses evaluated. *)
Lemma summary_counts_bounded_witness :
  let s := mk_Summary 2 1 1 (FRound (FMul (FDiv 1 2) 100) 2) in
  summary_of (pd_DataFrame sample_rows) = Ok s
  /\ 0 < total s
  /\ 0 <= completed s <= total s
  /\ 0 <= verified s <= total s
  /\ conversion s = FRound (FMul (FDiv (completed s) (total s)) 100) 2.
Proof.
  cbv zeta. split; [vm_compute; reflexivity |].
  apply (summary_counts_bounded (pd_DataFrame sample_rows)).
  vm_compute; reflexivity.
Defined.

(** *** [/plans] and [/risks] *)

Lemma insert_desc_perm x l : insert_desc x l ≡ₚ x :: l.
Proof.
  induction l as [| y l IH]; [reflexivity |]. cbn [insert_desc].
  destruct (snd x <=? snd y); [| reflexivity].
  rewrite IH. apply perm_swap.
Qed.

Lemma sort_desc_perm l : sort_desc l ≡ₚ l.
Proof.
  unfold sort_desc.
  assert (forall acc, foldl (fun acc x => insert_desc x acc) acc l ≡ₚ acc ++ l) as H.
  { induction l as [| x l IH]; intros acc; cbn [foldl].
    - rewrite app_nil_r. reflexivity.
    - rewrite IH, insert_desc_perm. apply Permutation_middle. }
  apply (H []).
Qed.

Lemma insert_desc_sorted x l :
  StronglySorted count_desc l -> StronglySorted count_desc (insert_desc x l).
Proof.
  induction 1 as [| y l Hs IH Hy]; cbn [insert_desc].
  - constructor; constructor.
  - destruct (Z.leb_spec (snd x) (snd y)) as [Hle | Hgt].
    + constructor; [exact IH |].
      rewrite insert_desc_perm. constructor; [exact Hle | exact Hy].
    + constructor; [constructor; assumption |].
      constructor; [unfold count_desc; lia |].
      eapply Forall_impl; [exact Hy |]. unfold count_desc. intros z Hz. lia.
Qed.

Lemma sort_desc_sorted l : StronglySorted count_desc (sort_desc l).
Proof.
  unfold sort_desc.
  assert (forall acc, StronglySorted count_desc acc ->
            StronglySorted count_desc (foldl (fun acc x => insert_desc x acc) acc l))
    as H.
  { induction l as [| x l IH]; intros acc Hacc; [exact Hacc |].
    cbn [foldl]. apply IH, insert_desc_sorted, Hacc. }
  apply H. constructor.
Qed.

Lemma unique_from_In {A} (eqb : A -> A -> bool) xs : forall seen x,
  In x (unique_from eqb seen xs) -> In x xs.
Proof.
  induction xs as [| y xs IH]; intros seen x; [contradiction |].
  cbn [unique_from]. destruct (existsb (eqb y) seen).
  - intros H. right. exact (IH _ _ H).
  - intros [-> | H]; [left; reflexivity | right; exact (IH _ _ H)].
Qed.

Lemma insert_group_perm g l : insert_group g l ≡ₚ g :: l.
Proof.
  induction l as [| h l IH]; [reflexivity |]. cbn [insert_group].
  destruct (cell_leb g h); [reflexivity |].
  rewrite IH. apply perm_swap.
Qed.

Lemma sort_groups_perm l : sort_groups l ≡ₚ l.
Proof.
  unfold sort_groups. induction l as [| g l IH]; [reflexivity |].
  cbn [foldr]. rewrite insert_group_perm, IH. reflexivity.
Qed.

(** X12.  The counts of [/plans] and [/risks] are in descending order, their
    groups are not null, and no count exceeds the number of completed users
    that [/summary] reports for the same frame. *)
Theorem completed_by_sorted_and_bounded by_ df l s :
  completed_by by_ df = Ok l ->
  summary_of df = Ok s ->
  StronglySorted count_desc l
  /\ Forall (fun gn => cell_notnull (fst gn) = true
                       /\ 0 <= snd gn <= completed s) l.
Proof.
  unfold completed_by, summary_of.
  destruct (getattr df "TelegramUserID") as [ids | e] eqn:Hi;
    [| intros _; discriminate].
  destruct (getattr df "RegistrationStatus") as [st | e] eqn:Hs; [| discriminate].
  cbn [mbind result_bind].
  destruct (getitem (df_filter df (series_eq_str st "Completed")) by_)
    as [keys | e]; [| discriminate].
  cbn [mbind result_bind].
  rewrite (getattr_filter _ (series_eq_str st "Completed") _ _ Hi).
  cbn [mbind result_bind]. intros [= <-].
  destruct (getattr df "EmailVerified") as [ev | e] eqn:He; [| discriminate].
  cbn [mbind result_bind].
  rewrite (getattr_filter _ (series_eq_str ev "Yes") _ _ Hi).
  cbn [mbind result_bind].
  destruct (true_div _ _); [| discriminate]. cbn [mbind result_bind].
  intros [= <-]. cbn [completed].
  split; [apply sort_desc_sorted |].
  apply Forall_forall. intros [g n] Hin. cbn [fst snd].
  rewrite sort_desc_perm in Hin. unfold group_nunique in Hin.
  apply list_elem_of_In, in_map_iff in Hin as (g' & [= -> <-] & Hg).
  apply list_elem_of_In in Hg. rewrite sort_groups_perm in Hg.
  apply list_elem_of_In, unique_from_In, filter_In in Hg as [_ Hg].
  split; [exact Hg |]. split; [apply nunique_nonneg | apply nunique_filter_le].
Qed.

(** [completed_by_sorted_and_bounded] on a concrete input, its hypotheses
    evaluated: three completed users, two plans and two risk options; the
    plan and the risk option with two users come first, the other way round
    than the order of the keys for the plans. *)
Lemma completed_by_sorted_and_bounded_witness :
  let df := pd_DataFrame rows_with_plans in
  let plans := [(CObj (PStr "Silver"), 2); (CObj (PStr "Gold"), 1)] in
  let risks := [(CObj (PStr "Low"), 2); (CObj (PStr "High"), 1)] in
  let s := mk_Summary 4 3 2 (FRound (FMul (FDiv 3 4) 100) 2) in
  plans_of df = Ok plans
  /\ risks_of df = Ok risks
  /\ summary_of df = Ok s
  /\ (StronglySorted count_desc plans
      /\ Forall (fun gn => cell_notnull (fst gn) = true
                           /\ 0 <= snd gn <= completed s) plans)
  /\ (StronglySorted count_desc risks
      /\ Forall (fun gn => cell_notnull (fst gn) = true
                           /\ 0 <= snd gn <= completed s) risks).
Proof.
  cbv zeta.
  assert (plans_of (pd_DataFrame rows_with_plans)
          = Ok [(CObj (PStr "Silver"), 2); (CObj (PStr "Gold"), 1)]) as Hp
    by (vm_compute; reflexivity).
  assert (risks_of (pd_DataFrame rows_with_plans)
          = Ok [(CObj (PStr "Low"), 2); (CObj (PStr "High"), 1)]) as Hk
    by (vm_compute; reflexivity).
  assert (summary_of (pd_DataFrame rows_with_plans)
          = Ok (mk_Summary 4 3 2 (FRound (FMul (FDiv 3 4) 100) 2))) as Hs
    by (vm_compute; reflexivity).
  split; [exact Hp |]. split; [exact Hk |]. split; [exact Hs |]. split.
  - exact (completed_by_sorted_and_bounded "InvestmentPlanSelected" _ _ _ Hp Hs).
  - exact (completed_by_sorted_and_bounded "RiskOptionSelected" _ _ _ Hk Hs).
Defined.

(** *** [/users-list] *)

Lemma unique_from_unseen {A} (eqb : A -> A -> bool) xs : forall seen x,
  In x (unique_from eqb seen xs) -> existsb (eqb x) seen = false.
Proof.
  induction xs as [| y xs IH]; intros seen x; [contradiction |].
  cbn [unique_from]. destruct (existsb (eqb y) seen) eqn:E.
  - apply IH.
  - intros [-> | H]; [exact E |].
    specialize (IH _ _ H). cbn [existsb] in IH.
    apply orb_false_iff in IH. tauto.
Qed.

Lemma unique_from_distinct {A} (eqb : A -> A -> bool) xs : forall seen,
  ForallOrdPairs (fun a b => eqb b a = false) (unique_from eqb seen xs).
Proof.
  induction xs as [| y xs IH]; intros seen; cbn [unique_from]; [constructor |].
  destruct (existsb (eqb y) seen); [apply IH |].
  constructor; [| apply IH].
  apply Forall_forall. intros b Hb.
  apply list_elem_of_In, unique_from_unseen in Hb. cbn [existsb] in Hb.
  apply orb_false_iff in Hb. tauto.
Qed.

Lemma unique_from_complete {A} (eqb : A -> A -> bool) xs : forall seen,
  (forall x, In x xs -> eqb x x = true) ->
  forall x, In x xs ->
    existsb (eqb x) (seen ++ unique_from eqb seen xs) = true.
Proof.
  induction xs as [| y xs IH]; intros seen Hrefl x; [contradiction |].
  cbn [unique_from]. intros Hin.
  assert (forall z, In z xs -> eqb z z = true) as Hrefl'
    by (intros z Hz; apply Hrefl; right; exact Hz).
  destruct (existsb (eqb y) seen) eqn:E.
  - destruct Hin as [-> | Hin]; [| apply IH; assumption].
    rewrite existsb_app, E. reflexivity.
  - destruct Hin as [-> | Hin].
    + rewrite existsb_app. cbn [existsb].
      rewrite (Hrefl x) by (left; reflexivity). rewrite orb_true_r. reflexivity.
    + specialize (IH (y :: seen) Hrefl' x Hin).
      rewrite existsb_app in IH |- *. cbn [existsb] in IH |- *.
      destruct (eqb x y), (existsb (eqb x) seen); cbn in *; auto.
Qed.

Lemma cell_eq_refl c : cell_notnull c = true -> cell_eq c c = true.
Proof.
  destruct c as [x | t]; cbn [cell_notnull cell_eq]; [apply py_eq_refl |].
  intros _. apply bool_decide_eq_true. reflexivity.
Qed.

(** X13.  [/users-list] returns the user names of the column that are not
    null, each once: every element is a value of the column and not null, no
    two elements are equal, and every value of the column that is not null
    is equal to an element. *)
Theorem users_list_distinct_and_complete df names :
  getattr df "TelegramUsername" = Ok names ->
  exists l,
    users_list_of df = Ok l
    /\ (forall c, c ∈ l -> cell_notnull c = true /\ c ∈ series_cells names)
    /\ ForallOrdPairs (fun a b => cell_eq b a = false) l
    /\ (forall c, c ∈ series_cells names -> cell_notnull c = true ->
          exists c', c' ∈ l /\ cell_eq c c' = true).
Proof.
  intros Hn. unfold users_list_of. rewrite Hn. cbn [mbind result_bind].
  eexists. split; [reflexivity |]. unfold dropna_unique.
  split; [| split].
  - intros c Hc. apply list_elem_of_In, unique_from_In, filter_In in Hc as [Hc Hnn].
    split; [exact Hnn | apply list_elem_of_In, Hc].
  - apply unique_from_distinct.
  - intros c Hc Hnn.
    assert (In c (List.filter cell_notnull (series_cells names))) as Hin
      by (apply filter_In; split; [apply list_elem_of_In, Hc | exact Hnn]).
    pose proof (unique_from_complete cell_eq _ []
                  (fun x Hx => cell_eq_refl x (proj2 (proj1 (filter_In _ _ _) Hx)))
                  c Hin) as He.
    cbn [app] in He. apply existsb_exists in He as (c' & Hc' & Heq).
    exists c'. split; [apply list_elem_of_In, Hc' | exact Heq].
Qed.

(** [users_list_distinct_and_complete] on a concrete input, its hypotheses evaluated. *)
Lemma users_list_distinct_and_complete_witness :
  let df := pd_DataFrame rows_of_bob in
  let names := ObjectSeries [PStr "bob"; PStr "bob"; PStr "bob"] in
  getattr df "TelegramUsername" = Ok names
  /\ exists l,
       users_list_of df = Ok l
       /\ (forall c, c ∈ l -> cell_notnull c = true /\ c ∈ series_cells names)
       /\ ForallOrdPairs (fun a b => cell_eq b a = false) l
       /\ (forall c, c ∈ series_cells names -> cell_notnull c = true ->
             exists c', c' ∈ l /\ cell_eq c c' = true).
Proof.
  cbv zeta. split; [vm_compute; reflexivity |].
  apply (users_list_distinct_and_complete (pd_DataFrame rows_of_bob)).
  vm_compute; reflexivity.
Defined.

(** *** [/user/{username}] for a listed user *)

Lemma getattr_rectangular df name s :
  rectangular df -> getattr df name = Ok s ->
  length (series_cells s) = nrows df.
Proof.
  unfold rectangular, getattr. intros Hr.
  destruct (List.find _ (columns df)) as [cs |] eqn:Hf; [| discriminate].
  intros [= <-]. apply find_some in Hf as [Hin _].
  rewrite Forall_forall in Hr. apply Hr, list_elem_of_In, Hin.
Qed.

Lemma mask_filter_map_nonempty {A B} (f : A -> bool) (v : list A) x :
  In x v -> f x = true ->
  forall ys : list B, length ys = length v ->
    mask_filter (List.map f v) ys <> [].
Proof.
  induction v as [| a v IH]; intros Hin Hfx ys Hl; [contradiction |].
  destruct ys as [| y ys]; [discriminate |]. cbn [List.map mask_filter].
  destruct (f a) eqn:Hfa; [discriminate |].
  destruct Hin as [-> | Hin]; [congruence |].
  apply IH; auto.
Qed.

Lemma insert_key_length x l : length (insert_key x l) = S (length l).
Proof.
  induction l as [| y l IH]; [reflexivity |]. cbn [insert_key].
  destruct (key_leb (fst y) (fst x)); cbn [length]; [rewrite IH |]; reflexivity.
Qed.

Lemma length_argsort_datetime keys :
  length (argsort_datetime keys) = length keys.
Proof.
  unfold argsort_datetime. rewrite length_fmap.
  assert (forall (l : list (option instant * nat)) acc,
            length (foldl (fun acc x => insert_key x acc) acc l)
            = (length acc + length l)%nat) as H.
  { induction l as [| x l IH]; intros acc; cbn [foldl length]; [lia |].
    rewrite IH, insert_key_length. lia. }
  rewrite H. cbn [length]. rewrite length_zip_with, length_seq. lia.
Qed.

Lemma column_names_df_filter df mask :
  column_names (df_filter df mask) = column_names df.
Proof.
  unfold column_names, df_filter. cbn [columns].
  induction (columns df) as [| cs cols IH]; [reflexivity | cbn; f_equal; exact IH].
Qed.

Lemma column_names_df_take idx df :
  column_names (df_take idx df) = column_names df.
Proof.
  unfold column_names, df_take. cbn [columns].
  induction (columns df) as [| cs cols IH]; [reflexivity | cbn; f_equal; exact IH].
Qed.

Lemma row_getattr_has_column df i name :
  has_column df name -> exists c, row_getattr (row_at df i) name = Ok c.
Proof.
  unfold has_column, column_names, row_getattr, row_at.
  induction (columns df) as [| [c0 s0] cols IH]; intros Hin; [inversion Hin |].
  cbn [List.map List.find fst snd].
  destruct (String.eqb_spec c0 name) as [-> | Hne]; [eauto |].
  cbn [fmap list_fmap fst] in Hin. apply elem_of_cons in Hin as [-> | Hin];
    [contradiction | exact (IH Hin)].
Qed.

Section ListedUser.

Variable argsort : list pyobj -> result (list nat).

(** X14.  Every user name that [/users-list] returns has a page: on a
    rectangular frame with a parsed column [Timestamp] and the five columns
    of the profile, [user_data] returns for each listed name. *)
Theorem listed_user_has_page df ts l u :
  rectangular df ->
  getitem df "Timestamp" = Ok (DatetimeSeries ts) ->
  has_column df "FullName" ->
  has_column df "Email" ->
  has_column df "RegistrationStatus" ->
  has_column df "InvestmentPlanSelected" ->
  has_column df "RiskOptionSelected" ->
  users_list_of df = Ok l ->
  CObj (PStr u) ∈ l ->
  is_Ok (user_data_of argsort df u) = true.
Proof.
  intros Hr Hg H1 H2 H3 H4 H5 Hl Hu.
  unfold users_list_of in Hl.
  destruct (getattr df "TelegramUsername") as [names | e] eqn:Hn; [| discriminate].
  cbn [mbind result_bind] in Hl. injection Hl as <-.
  unfold dropna_unique in Hu.
  apply list_elem_of_In, unique_from_In, filter_In in Hu as [Hu _].
  destruct names as [v | v]; cbn [series_cells] in Hu;
    apply in_map_iff in Hu as (x & Hx & Hin); [| discriminate].
  injection Hx as ->.
  pose proof (getattr_rectangular _ _ _ Hr Hn) as Lv.
  pose proof (getattr_rectangular _ _ _ Hr (getattr_getitem _ _ _ Hg)) as Lt.
  cbn [series_cells] in Lv, Lt. rewrite length_map in Lv, Lt.
  unfold user_data_of. rewrite Hn. cbn [mbind result_bind series_eq_str].
  set (mask := List.map (fun x => py_eq x (PStr u)) v).
  assert (mask_filter mask ts <> []) as Hne.
  { apply (mask_filter_map_nonempty _ v (PStr u) Hin).
    - cbn [py_eq]. apply String.eqb_refl.
    - congruence. }
  unfold sort_values. rewrite getitem_filter, Hg.
  cbn [fmap result_fmap mbind result_bind series_filter].
  set (sorted := df_take (argsort_datetime (mask_filter mask ts)) (df_filter df mask)).
  assert (exists n, nrows sorted = S n) as [n Hrows].
  { unfold sorted, df_take. cbn [nrows]. rewrite length_argsort_datetime.
    destruct (mask_filter mask ts); [contradiction | cbn; eauto]. }
  unfold iloc_last. rewrite Hrows. cbn [mbind result_bind].
  assert (forall name, has_column df name -> has_column sorted name) as Hcol.
  { intros name H. unfold has_column, sorted.
    rewrite column_names_df_take, column_names_df_filter. exact H. }
  destruct (row_getattr_has_column sorted n _ (Hcol _ H1)) as [c1 ->].
  cbn [mbind result_bind].
  destruct (row_getattr_has_column sorted n _ (Hcol _ H2)) as [c2 ->].
  cbn [mbind result_bind].
  destruct (row_getattr_has_column sorted n _ (Hcol _ H3)) as [c3 ->].
  cbn [mbind result_bind].
  destruct (row_getattr_has_column sorted n _ (Hcol _ H4)) as [c4 ->].
  cbn [mbind result_bind].
  destruct (row_getattr_has_column sorted n _ (Hcol _ H5)) as [c5 ->].
  cbn [mbind result_bind].
  rewrite (getattr_filter _ mask _ _ (getattr_getitem _ _ _ Hg)).
  cbn [mbind result_bind series_filter dt_date]. reflexivity.
Qed.

End ListedUser.

Lemma bob_frame_loaded :
  _parse_timestamp iso_only (pd_DataFrame rows_of_bob) = Ok bob_frame.
Proof. vm_compute. reflexivity. Qed.

Lemma bob_frame_rectangular : rectangular bob_frame.
Proof.
  apply (parse_timestamp_rectangular _ _ _ bob_frame_loaded).
  apply pd_DataFrame_rectangular.
Defined.

Lemma bob_frame_has_column name :
  bool_decide (name ∈ column_names bob_frame) = true -> has_column bob_frame name.
Proof. intros H. unfold has_column. apply bool_decide_eq_true in H. exact H. Defined.

(** [listed_user_has_page] on a concrete input, its hypotheses evaluated. *)
Lemma listed_user_has_page_witness :
  let ts := [Some (mk_instant 2024 1 2 10 0 0 0);
             Some (mk_instant 2024 1 1 10 0 0 0);
             Some (mk_instant 2024 1 2 9 0 0 0)] in
  rectangular bob_frame
  /\ getitem bob_frame "Timestamp" = Ok (DatetimeSeries ts)
  /\ users_list_of bob_frame = Ok [CObj (PStr "bob")]
  /\ is_Ok (user_data_of keep_order bob_frame "bob") = true.
Proof.
  cbv zeta. split; [exact bob_frame_rectangular |].
  split; [vm_compute; reflexivity |]. split; [vm_compute; reflexivity |].
  apply (listed_user_has_page keep_order bob_frame
           [Some (mk_instant 2024 1 2 10 0 0 0);
            Some (mk_instant 2024 1 1 10 0 0 0);
            Some (mk_instant 2024 1 2 9 0 0 0)]
           [CObj (PStr "bob")] "bob").
  - exact bob_frame_rectangular.
  - vm_compute; reflexivity.
  - apply bob_frame_has_column. vm_compute; reflexivity.
  - apply bob_frame_has_column. vm_compute; reflexivity.
  - apply bob_frame_has_column. vm_compute; reflexivity.
  - apply bob_frame_has_column. vm_compute; reflexivity.
  - apply bob_frame_has_column. vm_compute; reflexivity.
  - vm_compute; reflexivity.
  - left.
Defined.

(** *** The timeline of a user *)

Lemma date_ltb_spec (a b : date) :
  date_ltb a b = true
  <-> a.1.1 < b.1.1
      \/ (a.1.1 = b.1.1 /\ (a.1.2 < b.1.2 \/ (a.1.2 = b.1.2 /\ a.2 < b.2))).
Proof.
  destruct a as [[y1 m1] d1], b as [[y2 m2] d2]. unfold date_ltb.
  cbn [lex_leb fst snd].
  destruct (Z.ltb_spec y2 y1), (Z.eqb_spec y2 y1), (Z.ltb_spec m2 m1),
    (Z.eqb_spec m2 m1), (Z.ltb_spec d2 d1), (Z.eqb_spec d2 d1);
    cbn [orb andb negb]; split; intros Hgoal; try discriminate; try reflexivity;
    try lia.
Qed.

Lemma date_lt_irrefl d : ~ date_lt d d.
Proof. unfold date_lt. rewrite date_ltb_spec. lia. Qed.

Lemma date_lt_trans a b c : date_lt a b -> date_lt b c -> date_lt a c.
Proof. unfold date_lt. rewrite !date_ltb_spec. lia. Qed.

Lemma date_lt_total a b : a <> b -> date_ltb a b = false -> date_lt b a.
Proof.
  intros Hne Hf. unfold date_lt. apply date_ltb_spec.
  assert (~ (a.1.1 < b.1.1
             \/ (a.1.1 = b.1.1 /\ (a.1.2 < b.1.2 \/ (a.1.2 = b.1.2 /\ a.2 < b.2)))))
    as Hn by (rewrite <- date_ltb_spec; congruence).
  destruct a as [[y1 m1] d1], b as [[y2 m2] d2]. cbn [fst snd] in *.
  destruct (decide (y1 = y2)) as [-> |]; [| lia].
  destruct (decide (m1 = m2)) as [-> |]; [| lia].
  destruct (decide (d1 = d2)) as [-> |]; [congruence | lia].
Qed.

Lemma count_date_keys d0 acc k :
  k ∈ (count_date d0 acc).*1 -> k = d0 \/ k ∈ acc.*1.
Proof.
  induction acc as [| [d' n] acc IH]; cbn [count_date fmap list_fmap fst].
  - intros H. apply list_elem_of_singleton in H. auto.
  - case_bool_decide as E; [subst d'; cbn [fmap list_fmap fst]; auto |].
    destruct (date_ltb d0 d').
    + cbn [fmap list_fmap fst]. rewrite !elem_of_cons. tauto.
    + cbn [fmap list_fmap fst]. rewrite !elem_of_cons. intros [-> | H]; [auto |].
      destruct (IH H); auto.
Qed.

Lemma count_date_sorted d0 acc :
  StronglySorted date_lt (acc.*1) -> StronglySorted date_lt ((count_date d0 acc).*1).
Proof.
  induction acc as [| [d' n] acc IH]; cbn [count_date fmap list_fmap fst]; intros Hs.
  - repeat constructor.
  - apply StronglySorted_inv in Hs as [Hs Hd'].
    case_bool_decide as E; [subst d'; constructor; assumption |].
    destruct (date_ltb d0 d') eqn:Hlt; cbn [fmap list_fmap fst].
    + constructor; [constructor; assumption |].
      constructor; [exact Hlt |].
      eapply Forall_impl; [exact Hd' |]. intros x Hx.
      exact (date_lt_trans _ _ _ Hlt Hx).
    + constructor; [exact (IH Hs) |].
      apply Forall_forall. intros k Hk.
      destruct (count_date_keys _ _ _ Hk) as [-> | Hin].
      * apply date_lt_total; [congruence | exact Hlt].
      * rewrite Forall_forall in Hd'. exact (Hd' k Hin).
Qed.

Lemma lookup_date_absent d acc :
  Forall (date_lt d) (acc.*1) -> lookup_date d acc = None.
Proof.
  unfold lookup_date. induction acc as [| [d' n] acc IH]; [reflexivity |].
  cbn [fmap list_fmap fst List.find]. intros H. apply Forall_cons in H as [Hd H].
  case_bool_decide as E; [subst d'; destruct (date_lt_irrefl _ Hd) |].
  exact (IH H).
Qed.

Lemma count_date_lookup d0 acc :
  StronglySorted date_lt (acc.*1) ->
  forall d, lookup_date d (count_date d0 acc)
            = if bool_decide (d0 = d)
              then Some (default 0 (lookup_date d0 acc) + 1)
              else lookup_date d acc.
Proof.
  unfold lookup_date.
  induction acc as [| [d' n] acc IH]; cbn [count_date]; intros Hs d.
  - cbn [List.find fst snd]. case_bool_decide; reflexivity.
  - cbn [fmap list_fmap fst] in Hs. apply StronglySorted_inv in Hs as [Hs Hd'].
    case_bool_decide as E.
    + subst d'. cbn [List.find fst snd].
      rewrite (bool_decide_eq_true_2 (d0 = d0)) by reflexivity.
      cbn [fmap option_fmap option_map snd default].
      case_bool_decide; reflexivity.
    + destruct (date_ltb d0 d') eqn:Hlt.
      * cbn [List.find fst snd]. rewrite (bool_decide_eq_false_2 (d' = d0)) by congruence.
        assert (lookup_date d0 acc = None) as Hab.
        { apply lookup_date_absent. eapply Forall_impl; [exact Hd' |].
          intros x Hx. exact (date_lt_trans _ _ _ Hlt Hx). }
        unfold lookup_date in Hab. rewrite Hab. cbn [default].
        case_bool_decide; reflexivity.
      * cbn [List.find fst snd]. rewrite (bool_decide_eq_false_2 (d' = d0)) by congruence.
        case_bool_decide as E1.
        -- subst d. rewrite bool_decide_eq_false_2 by congruence. reflexivity.
        -- rewrite (IH Hs d). reflexivity.
Qed.

Lemma occurrences_cons o d dates :
  occurrences d (o :: dates)
  = (if bool_decide (o = Some d) then 1 else 0) + occurrences d dates.
Proof.
  unfold occurrences. cbn [List.filter]. case_bool_decide; cbn [length]; lia.
Qed.

Lemma occurrences_nonneg d dates : 0 <= occurrences d dates.
Proof. unfold occurrences. lia. Qed.

Lemma fold_count_date dates : forall acc (f : date -> Z),
  StronglySorted date_lt (acc.*1) ->
  (forall d, 0 <= f d) ->
  (forall d, lookup_date d acc = as_entry (f d)) ->
  let out := foldl (fun acc od => match od with
                                  | Some d => count_date d acc
                                  | None => acc
                                  end) acc dates in
  StronglySorted date_lt (out.*1)
  /\ forall d, lookup_date d out = as_entry (f d + occurrences d dates).
Proof.
  induction dates as [| o dates IH]; intros acc f Hs Hf Hl; cbv zeta.
  - cbn [foldl]. split; [exact Hs |]. intros d.
    rewrite Hl. unfold occurrences. cbn. rewrite Z.add_0_r. reflexivity.
  - cbn [foldl]. destruct o as [d0 |].
    + destruct (IH (count_date d0 acc)
                  (fun d => f d + (if bool_decide (d0 = d) then 1 else 0)))
        as [Hs' Hl'].
      * apply count_date_sorted, Hs.
      * intros d. pose proof (Hf d). case_bool_decide; lia.
      * intros d. rewrite (count_date_lookup d0 acc Hs d).
        case_bool_decide as E.
        -- subst d. rewrite Hl. unfold as_entry. pose proof (Hf d0).
           destruct (f d0 =? 0) eqn:E0.
           ++ apply Z.eqb_eq in E0. rewrite E0. reflexivity.
           ++ cbn [default].
              destruct (f d0 + 1 =? 0) eqn:E1; [apply Z.eqb_eq in E1; lia | reflexivity].
        -- rewrite Hl, Z.add_0_r. reflexivity.
      * split; [exact Hs' |]. intros d. rewrite Hl', occurrences_cons. f_equal.
        case_bool_decide as E1; case_bool_decide as E2; try lia; congruence.
    + destruct (IH acc f Hs Hf Hl) as [Hs' Hl'].
      split; [exact Hs' |]. intros d. rewrite Hl', occurrences_cons.
      rewrite bool_decide_eq_false_2 by discriminate. reflexivity.
Qed.

Lemma lookup_date_elem_of acc d n :
  StronglySorted date_lt (acc.*1) ->
  (d, n) ∈ acc <-> lookup_date d acc = Some n.
Proof.
  unfold lookup_date. induction acc as [| [d' m] acc IH]; intros Hs.
  - split; [intros H; inversion H | discriminate].
  - cbn [fmap list_fmap fst] in Hs. apply StronglySorted_inv in Hs as [Hs Hd'].
    cbn [List.find fst snd]. rewrite elem_of_cons. case_bool_decide as E.
    + subst d'. cbn [fmap option_fmap option_map snd]. split.
      * intros [[= ->] | Hin]; [reflexivity |]. exfalso.
        rewrite Forall_forall in Hd'.
        apply (date_lt_irrefl d), Hd', list_elem_of_fmap. exists (d, n). auto.
      * intros [= ->]. left. reflexivity.
    + rewrite <- (IH Hs). split; [intros [[= -> ->] | H]; [contradiction | exact H] | auto].
Qed.

(** [groupby(...).size()] lists the dates in strictly ascending order, each
    date that occurs exactly once with the number of its occurrences. *)
Lemma groupby_size_spec dates :
  StronglySorted date_lt ((groupby_size dates).*1)
  /\ forall d n, (d, n) ∈ groupby_size dates
                 <-> n = occurrences d dates /\ 0 < n.
Proof.
  destruct (fold_count_date dates [] (fun _ => 0)) as [Hs Hl].
  - constructor.
  - intros; lia.
  - intros d. reflexivity.
  - fold (groupby_size dates) in Hs, Hl. split; [exact Hs |].
    intros d n. rewrite (lookup_date_elem_of _ d n Hs), Hl.
    rewrite Z.add_0_l. unfold as_entry. pose proof (occurrences_nonneg d dates).
    destruct (occurrences d dates =? 0) eqn:E.
    + apply Z.eqb_eq in E. split; [discriminate | lia].
    + apply Z.eqb_neq in E. split; [intros [= <-]; lia | intros [-> _]; reflexivity].
Qed.

Section Timeline.

Variable argsort : list pyobj -> result (list nat).

(** X15.  In the result of [user_data], the timeline lists the dates of the
    rows of the user in strictly ascending order, and gives for each of them
    the number of rows of the user on that date; rows without a timestamp
    are not counted. *)
Theorem timeline_counts_rows_per_date df names ts u ud :
  getattr df "TelegramUsername" = Ok names ->
  getitem df "Timestamp" = Ok (DatetimeSeries ts) ->
  user_data_of argsort df u = Ok ud ->
  let dates := List.map (fmap date_of) (mask_filter (series_eq_str names u) ts) in
  StronglySorted date_lt ((timeline ud).*1)
  /\ forall d n, (d, n) ∈ timeline ud <-> n = occurrences d dates /\ 0 < n.
Proof.
  intros Hn Hg Hud dates.
  assert (timeline ud = groupby_size dates) as ->; [| apply groupby_size_spec].
  unfold user_data_of in Hud. rewrite Hn in Hud. cbn [mbind result_bind] in Hud.
  destruct (sort_values argsort _ "Timestamp") as [sorted | e]; [| discriminate].
  cbn [mbind result_bind] in Hud.
  destruct (iloc_last sorted) as [last | e]; [| discriminate].
  cbn [mbind result_bind] in Hud.
  repeat (match type of Hud with
          | context [row_getattr last ?n] =>
              destruct (row_getattr last n); [| discriminate];
              cbn [mbind result_bind] in Hud
          end).
  rewrite (getattr_filter _ (series_eq_str names u) _ _ (getattr_getitem _ _ _ Hg))
    in Hud.
  cbn [mbind result_bind series_filter dt_date] in Hud.
  injection Hud as <-. reflexivity.
Qed.

End Timeline.

(** [timeline_counts_rows_per_date] on a concrete input, its hypotheses evaluated. *)
Lemma timeline_counts_rows_per_date_witness :
  let names := ObjectSeries [PStr "bob"; PStr "bob"; PStr "bob"] in
  let ts := [Some (mk_instant 2024 1 2 10 0 0 0);
             Some (mk_instant 2024 1 1 10 0 0 0);
             Some (mk_instant 2024 1 2 9 0 0 0)] in
  let ud := mk_UserData
              (mk_Profile (CObj (PStr "Bob")) (CObj (PStr "bob@example.org"))
                          (CObj (PStr "Completed")) (CObj (PStr "Gold"))
                          (CObj (PStr "High")))
              [((2024, 1, 1), 1); ((2024, 1, 2), 2)] in
  getattr bob_frame "TelegramUsername" = Ok names
  /\ getitem bob_frame "Timestamp" = Ok (DatetimeSeries ts)
  /\ user_data_of keep_order bob_frame "bob" = Ok ud
  /\ (let dates := List.map (fmap date_of)
                            (mask_filter (series_eq_str names "bob") ts) in
      StronglySorted date_lt ((timeline ud).*1)
      /\ forall d n, (d, n) ∈ timeline ud <-> n = occurrences d dates /\ 0 < n).
Proof.
  cbv zeta. split; [vm_compute; reflexivity |]. split; [vm_compute; reflexivity |].
  split; [vm_compute; reflexivity |].
  apply (timeline_counts_rows_per_date keep_order bob_frame
           (ObjectSeries [PStr "bob"; PStr "bob"; PStr "bob"]) _ "bob");
    vm_compute; reflexivity.
Defined.

(** *** The profile of a user *)

Lemma lex_leb_refl xs : lex_leb xs xs = true.
Proof.
  induction xs as [| x xs IH]; [reflexivity |]. cbn [lex_leb].
  rewrite Z.eqb_refl, IH. apply orb_true_r.
Qed.

Lemma lex_leb_total xs : forall ys,
  length xs = length ys -> lex_leb xs ys = false -> lex_leb ys xs = true.
Proof.
  induction xs as [| x xs IH]; intros [| y ys] Hl; try discriminate.
  cbn [lex_leb].
  destruct (Z.ltb_spec x y), (Z.eqb_spec x y), (Z.ltb_spec y x), (Z.eqb_spec y x);
    cbn [orb andb]; try discriminate; try reflexivity; try lia.
  apply IH. cbn in Hl. lia.
Qed.

Lemma lex_leb_trans xs : forall ys zs,
  length xs = length ys -> length ys = length zs ->
  lex_leb xs ys = true -> lex_leb ys zs = true -> lex_leb xs zs = true.
Proof.
  induction xs as [| x xs IH]; intros [| y ys] [| z zs] H1 H2; try discriminate;
    try reflexivity.
  cbn [lex_leb].
  destruct (Z.ltb_spec x y), (Z.eqb_spec x y), (Z.ltb_spec y z), (Z.eqb_spec y z),
    (Z.ltb_spec x z), (Z.eqb_spec x z);
    cbn [orb andb]; try discriminate; try reflexivity; try lia.
  apply IH; cbn in H1, H2; lia.
Qed.

Lemma not_later_refl a : not_later a a.
Proof. destruct a; cbn; [apply lex_leb_refl | reflexivity]. Qed.

Lemma not_later_total a b : key_leb a b = false -> not_later b a.
Proof.
  unfold not_later. destruct a, b; cbn [key_leb]; try discriminate; try reflexivity.
  apply lex_leb_total. reflexivity.
Qed.

Lemma not_later_trans a b c : not_later a b -> not_later b c -> not_later a c.
Proof.
  unfold not_later. destruct a, b, c; cbn [key_leb]; try discriminate;
    try reflexivity.
  apply lex_leb_trans; reflexivity.
Qed.

Lemma insert_key_perm x l : insert_key x l ≡ₚ x :: l.
Proof.
  induction l as [| y l IH]; [reflexivity |]. cbn [insert_key].
  destruct (key_leb (fst y) (fst x)); [| reflexivity].
  rewrite IH. apply perm_swap.
Qed.

Lemma insert_key_sorted x l :
  StronglySorted (fun a b => not_later (fst a) (fst b)) l ->
  StronglySorted (fun a b => not_later (fst a) (fst b)) (insert_key x l).
Proof.
  induction 1 as [| y l Hs IH Hy]; cbn [insert_key].
  - constructor; constructor.
  - destruct (key_leb (fst y) (fst x)) eqn:E.
    + constructor; [exact IH |]. rewrite insert_key_perm.
      constructor; [exact E | exact Hy].
    + apply not_later_total in E.
      constructor; [constructor; assumption |].
      constructor; [exact E |].
      eapply Forall_impl; [exact Hy |]. intros z Hz.
      exact (not_later_trans _ _ _ E Hz).
Qed.

Lemma fold_insert_key l : forall acc,
  StronglySorted (fun a b => not_later (fst a) (fst b)) acc ->
  let out := foldl (fun acc x => insert_key x acc) acc l in
  out ≡ₚ acc ++ l
  /\ StronglySorted (fun a b => not_later (fst a) (fst b)) out.
Proof.
  induction l as [| x l IH]; intros acc Hacc; cbv zeta; cbn [foldl].
  - rewrite app_nil_r. split; [reflexivity | exact Hacc].
  - destruct (IH (insert_key x acc) (insert_key_sorted x acc Hacc)) as [Hp Hs].
    split; [| exact Hs]. rewrite Hp, insert_key_perm. apply Permutation_middle.
Qed.

Lemma sorted_nth {A} (R : A -> A -> Prop) (l : list A) d :
  StronglySorted R l ->
  forall m n, (m < n)%nat -> (n < length l)%nat -> R (nth m l d) (nth n l d).
Proof.
  induction 1 as [| x l Hs IH Hx]; intros m n Hmn Hn; [cbn in Hn; lia |].
  destruct n as [| n]; [lia |]. cbn [length] in Hn.
  destruct m as [| m]; cbn [nth].
  - rewrite Forall_forall in Hx. apply Hx, list_elem_of_In, nth_In. lia.
  - apply IH; lia.
Qed.

Lemma zip_seq_elem_of (keys : list (option instant)) : forall a k i,
  (k, i) ∈ zip keys (seq a (length keys))
  <-> (a <= i < a + length keys)%nat /\ nth (i - a) keys None = k.
Proof.
  induction keys as [| k0 keys IH]; intros a k i.
  - cbn. split; [intros H; inversion H | lia].
  - cbn [length seq zip zip_with]. rewrite elem_of_cons, IH. split.
    + intros [[= -> ->] | [Hr Hk]].
      * split; [lia |]. rewrite Nat.sub_diag. reflexivity.
      * split; [lia |]. replace (i - a)%nat with (S (i - S a)) by lia. exact Hk.
    + intros [Hr Hk]. destruct (decide (i = a)) as [-> | Hne].
      * left. rewrite Nat.sub_diag in Hk. cbn in Hk. congruence.
      * right. split; [lia |].
        replace (i - a)%nat with (S (i - S a)) in Hk by lia. exact Hk.
Qed.

Lemma nth_fmap_snd {A B} (l : list (A * B)) n d :
  nth n (l.*2) (snd d) = snd (nth n l d).
Proof.
  revert n. induction l as [| p l IH]; intros [| n]; cbn [fmap list_fmap nth];
    auto.
Qed.

(** The last position of the sorted order is a row whose timestamp no other
    row exceeds. *)
Lemma argsort_datetime_last keys n :
  length keys = S n ->
  let i := nth n (argsort_datetime keys) O in
  (i < length keys)%nat
  /\ forall j, (j < length keys)%nat ->
       not_later (nth j keys None) (nth i keys None).
Proof.
  intros Hlen. cbv zeta. unfold argsort_datetime.
  destruct (fold_insert_key (zip keys (seq 0 (length keys))) [])
    as [Hp Hs]; [constructor |].
  cbn [app] in Hp.
  set (L := foldl (fun acc x => insert_key x acc) []
                  (zip keys (seq 0 (length keys)))) in *.
  assert (length L = S n) as HL.
  { rewrite (Permutation_length Hp), length_zip_with, length_seq. lia. }
  assert (nth n (L.*2) O = snd (nth n L (None, O))) as Hnth
    by exact (nth_fmap_snd L n (None, O)).
  rewrite Hnth. clear Hnth.
  destruct (nth n L (None, O)) as [k i] eqn:Hlast. cbn [snd].
  assert ((k, i) ∈ L) as Hin.
  { rewrite <- Hlast. apply list_elem_of_In, nth_In. lia. }
  rewrite Hp in Hin. apply zip_seq_elem_of in Hin as [Hr Hk].
  rewrite Nat.sub_0_r in Hk. split; [lia |].
  intros j Hj.
  assert ((nth j keys None, j) ∈ L) as Hj'.
  { rewrite Hp. apply zip_seq_elem_of. split; [lia |].
    rewrite Nat.sub_0_r. reflexivity. }
  apply list_elem_of_In, (In_nth _ _ (None, O)) in Hj' as (m & Hm & Hq).
  rewrite Hk.
  destruct (decide (m = n)) as [-> | Hne].
  - rewrite Hlast in Hq. injection Hq as <- _. apply not_later_refl.
  - pose proof (sorted_nth _ L (None, O) Hs m n ltac:(lia) ltac:(lia)) as Hle.
    rewrite Hq, Hlast in Hle. exact Hle.
Qed.

Lemma cell_at_series_take idx s n :
  (n < length idx)%nat ->
  cell_at (series_take idx s) n = cell_at s (nth n idx O).
Proof.
  intros Hn. destruct s as [v | v]; cbn [series_take cell_at]; f_equal.
  - rewrite (nth_indep _ PNaN (nth O v PNaN)) by (rewrite length_map; exact Hn).
    apply (map_nth (fun i => nth i v PNaN)).
  - rewrite (nth_indep _ None (nth O v None)) by (rewrite length_map; exact Hn).
    apply (map_nth (fun i => nth i v None)).
Qed.

Lemma row_at_df_take idx df n :
  (n < length idx)%nat ->
  row_at (df_take idx df) n = row_at df (nth n idx O).
Proof.
  intros Hn. unfold row_at, df_take. cbn [columns]. rewrite List.map_map.
  apply map_ext. intros [c s]. cbn [fst snd]. f_equal.
  apply cell_at_series_take, Hn.
Qed.

Section LatestProfile.

Variable argsort : list pyobj -> result (list nat).

(** X16.  In the result of [user_data], the five fields of the profile are
    read from one row of the user, and no row of the user has a later
    timestamp than that row (a row without timestamp counts as latest). *)
Theorem profile_from_latest_row df names ts u ud :
  getattr df "TelegramUsername" = Ok names ->
  getitem df "Timestamp" = Ok (DatetimeSeries ts) ->
  user_data_of argsort df u = Ok ud ->
  let mask := series_eq_str names u in
  let rows := df_filter df mask in
  let stamps := mask_filter mask ts in
  exists i,
    (i < length stamps)%nat
    /\ row_getattr (row_at rows i) "FullName" = Ok (name (profile ud))
    /\ row_getattr (row_at rows i) "Email" = Ok (email (profile ud))
    /\ row_getattr (row_at rows i) "RegistrationStatus" = Ok (status (profile ud))
    /\ row_getattr (row_at rows i) "InvestmentPlanSelected" = Ok (plan (profile ud))
    /\ row_getattr (row_at rows i) "RiskOptionSelected" = Ok (risk (profile ud))
    /\ forall j, (j < length stamps)%nat ->
         not_later (nth j stamps None) (nth i stamps None).
Proof.
  intros Hn Hg Hud. cbv zeta.
  unfold user_data_of in Hud. rewrite Hn in Hud. cbn [mbind result_bind] in Hud.
  unfold sort_values in Hud. rewrite getitem_filter, Hg in Hud.
  cbn [fmap result_fmap mbind result_bind series_filter] in Hud.
  set (mask := series_eq_str names u) in *.
  set (rows := df_filter df mask) in *.
  set (stamps := mask_filter mask ts) in *.
  set (idx := argsort_datetime stamps) in *.
  unfold iloc_last in Hud. cbn [df_take nrows] in Hud.
  destruct (length idx) as [| n] eqn:Hlen; [discriminate |].
  cbn [mbind result_bind] in Hud.
  fold (df_take idx rows) in Hud.
  rewrite (row_at_df_take idx rows n) in Hud by lia.
  assert (length stamps = S n) as Hs
    by (rewrite <- Hlen; symmetry; apply length_argsort_datetime).
  destruct (argsort_datetime_last stamps n Hs) as [Hi Hmax]. fold idx in Hi, Hmax.
  exists (nth n idx O). split; [exact Hi |].
  destruct (row_getattr (row_at rows (nth n idx O)) "FullName") as [c1 | e];
    [| discriminate]. cbn [mbind result_bind] in Hud.
  destruct (row_getattr (row_at rows (nth n idx O)) "Email") as [c2 | e];
    [| discriminate]. cbn [mbind result_bind] in Hud.
  destruct (row_getattr (row_at rows (nth n idx O)) "RegistrationStatus")
    as [c3 | e]; [| discriminate]. cbn [mbind result_bind] in Hud.
  destruct (row_getattr (row_at rows (nth n idx O)) "InvestmentPlanSelected")
    as [c4 | e]; [| discriminate]. cbn [mbind result_bind] in Hud.
  destruct (row_getattr (row_at rows (nth n idx O)) "RiskOptionSelected")
    as [c5 | e]; [| discriminate]. cbn [mbind result_bind] in Hud.
  destruct (getattr rows "Timestamp") as [st | e]; [| discriminate].
  cbn [mbind result_bind] in Hud.
  destruct (dt_date st) as [ds | e]; [| discriminate].
  cbn [mbind result_bind] in Hud. injection Hud as <-.
  cbn [profile name email status plan risk]. repeat split; try reflexivity.
  exact Hmax.
Qed.

End LatestProfile.

(** [profile_from_latest_row] on a concrete input, its hypotheses evaluated. *)
Lemma profile_from_latest_row_witness :
  let names := ObjectSeries [PStr "bob"; PStr "bob"; PStr "bob"] in
  let ts := [Some (mk_instant 2024 1 2 10 0 0 0);
             Some (mk_instant 2024 1 1 10 0 0 0);
             Some (mk_instant 2024 1 2 9 0 0 0)] in
  let ud := mk_UserData
              (mk_Profile (CObj (PStr "Bob")) (CObj (PStr "bob@example.org"))
                          (CObj (PStr "Completed")) (CObj (PStr "Gold"))
                          (CObj (PStr "High")))
              [((2024, 1, 1), 1); ((2024, 1, 2), 2)] in
  getattr bob_frame "TelegramUsername" = Ok names
  /\ getitem bob_frame "Timestamp" = Ok (DatetimeSeries ts)
  /\ user_data_of keep_order bob_frame "bob" = Ok ud
  /\ (let mask := series_eq_str names "bob" in
      let rows := df_filter bob_frame mask in
      let stamps := mask_filter mask ts in
      exists i,
        (i < length stamps)%nat
        /\ row_getattr (row_at rows i) "FullName" = Ok (name (profile ud))
        /\ row_getattr (row_at rows i) "Email" = Ok (email (profile ud))
        /\ row_getattr (row_at rows i) "RegistrationStatus" = Ok (status (profile ud))
        /\ row_getattr (row_at rows i) "InvestmentPlanSelected" = Ok (plan (profile ud))
        /\ row_getattr (row_at rows i) "RiskOptionSelected" = Ok (risk (profile ud))
        /\ forall j, (j < length stamps)%nat ->
             not_later (nth j stamps None) (nth i stamps None)).
Proof.
  cbv zeta. split; [vm_compute; reflexivity |]. split; [vm_compute; reflexivity |].
  split; [vm_compute; reflexivity |].
  apply (profile_from_latest_row keep_order bob_frame
           (ObjectSeries [PStr "bob"; PStr "bob"; PStr "bob"]) _ "bob");
    vm_compute; reflexivity.
Defined.

(** ** [normalizeKey] and [findColumn] for any dataset *)

Lemma to_lower_alnum c : JS.is_a_z_0_9 c = true -> JS.to_lower c = c.
Proof.
  destruct c as [[] [] [] [] [] [] [] []]; vm_compute;
    intros H; first [reflexivity | discriminate H].
Qed.

Lemma to_lower_idem c : JS.to_lower (JS.to_lower c) = JS.to_lower c.
Proof. destruct c as [[] [] [] [] [] [] [] []]; vm_compute; reflexivity. Qed.

Lemma toLowerCase_idem s : JS.toLowerCase (JS.toLowerCase s) = JS.toLowerCase s.
Proof.
  unfold JS.toLowerCase. rewrite list_ascii_of_string_of_list_ascii.
  rewrite List.map_map. f_equal. apply List.map_ext. intros c. apply to_lower_idem.
Qed.

Lemma normalizeKey_chars k :
  list_ascii_of_string (JS.normalizeKey k)
  = List.filter JS.is_a_z_0_9 (List.map JS.to_lower (list_ascii_of_string k)).
Proof.
  unfold JS.normalizeKey, JS.toLowerCase.
  rewrite !list_ascii_of_string_of_list_ascii. reflexivity.
Qed.

Lemma filter_lower_fixed l :
  Forall (fun c => JS.is_a_z_0_9 c = true) l ->
  List.filter JS.is_a_z_0_9 (List.map JS.to_lower l) = l.
Proof.
  induction 1 as [| c l Hc _ IH]; [reflexivity |].
  cbn [List.map List.filter]. rewrite (to_lower_alnum c Hc), Hc, IH. reflexivity.
Qed.

Lemma filter_all {A} (p : A -> bool) (l : list A) :
  Forall (fun x => p x = true) (List.filter p l).
Proof.
  induction l as [| x l IH]; [constructor |].
  cbn [List.filter]. destruct (p x) eqn:E; [constructor |]; assumption.
Qed.

(** X17.  [normalizeKey] returns only characters of [[a-z0-9]], leaves its
    own results as they are, and does not see the case of its argument. *)
Theorem normalizeKey_normal_form k :
  Forall (fun c => JS.is_a_z_0_9 c = true) (list_ascii_of_string (JS.normalizeKey k))
  /\ JS.normalizeKey (JS.normalizeKey k) = JS.normalizeKey k
  /\ JS.normalizeKey (JS.toLowerCase k) = JS.normalizeKey k.
Proof.
  assert (Forall (fun c => JS.is_a_z_0_9 c = true)
                 (list_ascii_of_string (JS.normalizeKey k))) as Hall.
  { rewrite normalizeKey_chars. apply filter_all. }
  split; [exact Hall |]. split.
  - rewrite <- (string_of_list_ascii_of_string (JS.normalizeKey (JS.normalizeKey k))).
    rewrite normalizeKey_chars, (filter_lower_fixed _ Hall).
    apply string_of_list_ascii_of_string.
  - unfold JS.normalizeKey. rewrite toLowerCase_idem. reflexivity.
Qed.

Lemma first_hit_sound keys candidates col :
  (forall c, c ∈ candidates -> JS.normalizeKey c ∉ inherited_names) ->
  JS.first_hit (JS.key_map keys) candidates = Some col ->
  col ∈ keys /\ col <> ""
  /\ exists c, c ∈ candidates /\ JS.normalizeKey col = JS.normalizeKey c.
Proof.
  induction candidates as [| c rest IH]; intros Hc; [discriminate |].
  assert (forall c', c' ∈ rest -> JS.normalizeKey c' ∉ inherited_names) as Hrest
    by (intros c' Hc'; apply Hc; right; exact Hc').
  cbn [JS.first_hit]. rewrite key_map_lookup.
  destruct (List.find _ (rev keys)) as [hit |] eqn:Hf.
  - destruct (String.eqb_spec hit "") as [-> | Hne].
    + intros H. destruct (IH Hrest H) as (Hin & Hcol & c' & Hc' & Hn).
      split; [exact Hin |]. split; [exact Hcol |].
      exists c'. split; [right; exact Hc' | exact Hn].
    + intros [= <-]. destruct (find_rev_some _ _ _ Hf) as (_ & Hin & Hp).
      split; [apply list_elem_of_In, Hin |]. split; [exact Hne |].
      exists c. split; [left | apply String.eqb_eq, Hp].
  - rewrite bool_decide_eq_false_2 by (apply Hc; left).
    intros H. destruct (IH Hrest H) as (Hin & Hcol & c' & Hc' & Hn).
    split; [exact Hin |]. split; [exact Hcol |].
    exists c'. split; [right; exact Hc' | exact Hn].
Qed.

(** What [findColumn] returns is never the empty string. *)
Lemma first_hit_nonempty (m : gmap string string) candidates col :
  JS.first_hit m candidates = Some col -> col <> "".
Proof.
  induction candidates as [| c rest IH]; [discriminate |].
  cbn [JS.first_hit]. destruct (m !! JS.normalizeKey c) as [hit |].
  - destruct (String.eqb_spec hit "") as [-> | Hne]; [exact IH |].
    intros [= <-]. exact Hne.
  - case_bool_decide; [| exact IH].
    intros [= <-]. unfold JS.inherited_text.
    destruct (String.eqb _ "__proto__"); discriminate.
Qed.

(** X18.  Whatever the dataset, a column that [findColumn] returns is a
    property of the first record, is not the empty string (so that [!col] is
    false for it), and has the normalized form of one of the candidates; the
    records after the first one play no part. The candidates are taken not
    to normalize to a name inherited from [Object.prototype]. *)
Theorem findColumn_sound rows candidates col :
  (forall c, c ∈ candidates -> JS.normalizeKey c ∉ inherited_names) ->
  JS.findColumn rows candidates = Some col ->
  exists row0 rest c,
    rows = row0 :: rest
    /\ col ∈ row0.*1
    /\ Dashboard.unresolved (Some col) = false
    /\ c ∈ candidates
    /\ JS.normalizeKey col = JS.normalizeKey c
    /\ JS.findColumn [row0] candidates = Some col.
Proof.
  intros Hcand H. destruct rows as [| row0 rest]; [discriminate |].
  cbn [JS.findColumn] in H.
  destruct (first_hit_sound _ _ _ Hcand H) as (Hin & Hne & c & Hc & Hn).
  exists row0, rest, c. repeat split; try assumption.
  cbn. destruct (String.eqb_spec col ""); [contradiction | reflexivity].
Qed.

Lemma not_inherited (s : string) :
  bool_decide (s ∉ inherited_names) = true -> s ∉ inherited_names.
Proof. apply bool_decide_eq_true. Qed.

Lemma findColumn_sound_witness :
  let candidates := ["InvestmentPlanSelected"; "Plan"; "plan"] in
  (forall c, c ∈ candidates -> JS.normalizeKey c ∉ inherited_names)
  /\ JS.findColumn plan_rows candidates = Some "Investment_Plan Selected"
  /\ exists row0 rest c,
       plan_rows = row0 :: rest
       /\ "Investment_Plan Selected" ∈ row0.*1
       /\ Dashboard.unresolved (Some "Investment_Plan Selected") = false
       /\ c ∈ candidates
       /\ JS.normalizeKey "Investment_Plan Selected" = JS.normalizeKey c
       /\ JS.findColumn [row0] candidates = Some "Investment_Plan Selected".
Proof.
  cbv zeta.
  assert (forall c, c ∈ ["InvestmentPlanSelected"; "Plan"; "plan"] ->
                    JS.normalizeKey c ∉ inherited_names) as Hc.
  { intros c Hc. rewrite !elem_of_cons in Hc.
    destruct Hc as [-> | [-> | [-> | Hc]]];
      [apply not_inherited; vm_compute; reflexivity .. | inversion Hc]. }
  split; [exact Hc |]. split; [vm_compute; reflexivity |].
  apply (findColumn_sound plan_rows ["InvestmentPlanSelected"; "Plan"; "plan"]
           "Investment_Plan Selected" Hc).
  vm_compute; reflexivity.
Defined.

(** ** The indicators: [uniqueCount] and [countMatch] *)

Lemma size_list_to_set_le (l : list string) :
  (size (list_to_set l : gset string) <= length l)%nat.
Proof.
  induction l as [| x l IH]; [rewrite list_to_set_nil, size_empty; cbn; lia |].
  rewrite list_to_set_cons, size_union_alt, size_singleton. cbn [length].
  pose proof (subseteq_size (list_to_set l ∖ {[x]} : gset string) (list_to_set l))
    as Hle.
  assert ((list_to_set l ∖ {[x]} : gset string) ⊆ list_to_set l) as Hsub.
  { intros y Hy. apply elem_of_difference in Hy. tauto. }
  specialize (Hle Hsub). lia.
Qed.

Lemma size_list_to_set_pos (x : string) (l : list string) :
  (1 <= size (list_to_set (x :: l) : gset string))%nat.
Proof.
  rewrite list_to_set_cons, size_union_alt, size_singleton. lia.
Qed.

(** X19.  [uniqueCount] lies between 0 and the number of records and is 0
    only for a dataset without records, so the conversion of line 653 is the
    text ["--"] exactly when there is no record. *)
Theorem uniqueCount_bounds rows col completed :
  0 <= Dashboard.uniqueCount rows col <= Z.of_nat (length rows)
  /\ (Dashboard.uniqueCount rows col = 0 <-> rows = [])
  /\ (JS.conversion completed (Dashboard.uniqueCount rows col) = JS.Dashes
      <-> rows = []).
Proof.
  assert (0 <= Dashboard.uniqueCount rows col <= Z.of_nat (length rows)) as Hb.
  { unfold Dashboard.uniqueCount. destruct (Dashboard.unresolved col); [lia |].
    pose proof (size_list_to_set_le
                  (List.map (fun r => Dashboard.text_of r (default "" col)) rows)) as H.
    rewrite length_map in H. cbv zeta. lia. }
  assert (Dashboard.uniqueCount rows col = 0 <-> rows = []) as Hz.
  { split.
    - intros H0. destruct rows as [| r rows]; [reflexivity | exfalso].
      unfold Dashboard.uniqueCount in H0.
      destruct (Dashboard.unresolved col); [cbn [length] in H0; lia |].
      cbv zeta in H0. cbn [List.map] in H0.
      pose proof (size_list_to_set_pos
                    (Dashboard.text_of r (default "" col))
                    (List.map (fun r => Dashboard.text_of r (default "" col)) rows)).
      lia.
    - intros ->. unfold Dashboard.uniqueCount.
      destruct (Dashboard.unresolved col); reflexivity. }
  split; [exact Hb |]. split; [exact Hz |].
  unfold JS.conversion. rewrite <- Hz.
  destruct (Z.eqb_spec (Dashboard.uniqueCount rows col) 0) as [E | E].
  - split; [intros _; exact E | reflexivity].
  - split; [discriminate | contradiction].
Qed.

Lemma uniqueCount_bounds_witness :
  0 <= Dashboard.uniqueCount risk_rows (Some "Risk") <= 3
  /\ (Dashboard.uniqueCount risk_rows (Some "Risk") = 0 <-> risk_rows = [])
  /\ (JS.conversion 1 (Dashboard.uniqueCount risk_rows (Some "Risk")) = JS.Dashes
      <-> risk_rows = []).
Proof. exact (uniqueCount_bounds risk_rows (Some "Risk") 1). Defined.

Lemma filter_length_le {A} (p : A -> bool) (l : list A) :
  (length (List.filter p l) <= length l)%nat.
Proof.
  induction l as [| x l IH]; [cbn; lia |].
  cbn [List.filter]. destruct (p x); cbn [length]; lia.
Qed.

(** X20.  [countMatch] lies between 0 and the number of records, and the
    case of the accepted values plays no part: lowering them beforehand
    gives the same count. *)
Theorem countMatch_bounds_and_case rows col values :
  0 <= Dashboard.countMatch rows col values <= Z.of_nat (length rows)
  /\ Dashboard.countMatch rows col (List.map lowered values)
     = Dashboard.countMatch rows col values
  /\ Dashboard.countMatch rows col [] = 0.
Proof.
  split; [| split].
  - unfold Dashboard.countMatch. destruct (Dashboard.unresolved col); [lia |].
    cbv zeta.
    pose proof (filter_length_le
      (fun r => existsb (String.eqb (JS.toLowerCase
                                       (Dashboard.text_of r (default "" col))))
                        (List.map (fun v => JS.toLowerCase (JS.String_ v)) values))
      rows). lia.
  - unfold Dashboard.countMatch. destruct (Dashboard.unresolved col); [reflexivity |].
    cbv zeta. rewrite List.map_map.
    rewrite (List.map_ext (fun v => JS.toLowerCase (JS.String_ (lowered v)))
                          (fun v => JS.toLowerCase (JS.String_ v))); [reflexivity |].
    intros v. unfold lowered. cbn [JS.String_]. apply toLowerCase_idem.
  - unfold Dashboard.countMatch. destruct (Dashboard.unresolved col); [reflexivity |].
    cbv zeta. cbn [List.map existsb].
    induction rows as [| r rows IH]; [reflexivity | exact IH].
Qed.

(** ** [groupCounts] and the charts *)

Lemma total_count_insert (m : gmap string JS.value) k v :
  m !! k = None -> total_count (<[k := v]> m) = count_of v + total_count m.
Proof.
  intros Hk. unfold total_count.
  apply (map_fold_insert_L (fun _ v acc => count_of v + acc) 0 k v m); [| exact Hk].
  intros; lia.
Qed.

Lemma total_count_bump counts key :
  key ∉ inherited_names ->
  map_Forall (fun _ v => exists n, v = JS.Num n) counts ->
  total_count (JS.bump counts key) = total_count counts + 1
  /\ map_Forall (fun _ v => exists n, v = JS.Num n) (JS.bump counts key).
Proof.
  intros Hkey Hnum. destruct (not_inherited_name key Hkey) as [Hi Hp].
  unfold JS.bump. destruct (String.eqb_spec key "__proto__") as [Hp' | _]; [contradiction |].
  destruct (counts !! key) as [v |] eqn:E.
  - destruct (Hnum key v E) as [n ->]. cbn [JS.plus_one].
    assert ((if n =? 0 then 0 else n) = n) as ->.
    { destruct (Z.eqb_spec n 0); lia. }
    split; [| apply map_Forall_insert_2; [eexists; reflexivity | exact Hnum]].
    rewrite <- (insert_delete_eq counts key (JS.Num (n + 1))).
    rewrite total_count_insert by apply lookup_delete_eq.
    rewrite <- (insert_delete_id counts key (JS.Num n) E) at 2.
    rewrite total_count_insert by apply lookup_delete_eq. cbn [count_of]. lia.
  - rewrite Hi. cbn [JS.plus_one].
    split; [| apply map_Forall_insert_2; [eexists; reflexivity | exact Hnum]].
    rewrite total_count_insert by exact E. cbn [count_of]. lia.
Qed.

Lemma total_count_fold col rows : forall counts,
  (forall r, r ∈ rows -> JS.group_key (JS.get r col) ∉ inherited_names) ->
  map_Forall (fun _ v => exists n, v = JS.Num n) counts ->
  total_count
    (foldl (fun counts r => JS.bump counts (JS.group_key (JS.get r col))) counts rows)
  = total_count counts + Z.of_nat (length rows).
Proof.
  induction rows as [| r rows IH]; intros counts Hrows Hnum.
  - cbn. lia.
  - cbn [foldl length].
    destruct (total_count_bump counts (JS.group_key (JS.get r col)))
      as [Ht Hn]; [apply Hrows; left | exact Hnum |].
    rewrite IH; [lia | intros r' Hr'; apply Hrows; right; exact Hr' | exact Hn].
Qed.

Lemma group_key_clean raw :
  JS.group_key raw <> "" /\ JS.trim (JS.group_key raw) = JS.group_key raw.
Proof.
  unfold JS.group_key. cbv zeta.
  match goal with
  | |- context [String.eqb ?k ""] => destruct (String.eqb_spec k "") as [E | E]
  end.
  - split; [discriminate | vm_compute; reflexivity].
  - split; [exact E | apply trim_idem].
Qed.

Lemma label_count_pos rows col label :
  label_count rows col label <> 0 ->
  1 <= label_count rows col label
  /\ exists r, r ∈ rows /\ JS.group_key (JS.get r col) = label.
Proof.
  intros Hn. split; [pose proof (label_count_nonneg rows col label); lia |].
  unfold label_count in Hn.
  destruct (List.filter _ rows) as [| r l] eqn:E; [cbn in Hn; lia |].
  assert (In r (List.filter
                  (fun r => bool_decide (JS.group_key (JS.get r col) = label)) rows))
    as Hin by (rewrite E; left; reflexivity).
  apply filter_In in Hin as [Hin Hl]. apply bool_decide_eq_true in Hl.
  exists r. split; [apply list_elem_of_In, Hin | exact Hl].
Qed.

(** X21.  [groupCounts] splits the records among its labels: every property
    is a number, the counts add up to the number of records, every count is
    at least 1, and every label is the label of some record, is not empty
    and has no white space around it. The column and the labels are taken
    not to be names inherited from [Object.prototype]. *)
Theorem groupCounts_partitions_rows rows col counts :
  plain_labels rows (Some col) ->
  JS.groupCounts rows (Some col) = Some counts ->
  total_count counts = Z.of_nat (length rows)
  /\ forall label v,
       counts !! label = Some v ->
       exists n,
         v = JS.Num n
         /\ 1 <= n
         /\ label <> ""
         /\ JS.trim label = label
         /\ exists r, r ∈ rows /\ JS.group_key (JS.get r col) = label.
Proof.
  intros Hplain H. split.
  - unfold JS.groupCounts in H. destruct (String.eqb col ""); [discriminate |].
    injection H as <-.
    rewrite total_count_fold; [reflexivity | exact (proj2 Hplain) |].
    apply map_Forall_empty.
  - intros label v Hl. rewrite (groupCounts_lookup _ _ _ label Hplain H) in Hl.
    unfold as_property in Hl.
    destruct (Z.eqb_spec (label_count rows col label) 0) as [E | E]; [discriminate |].
    injection Hl as <-. exists (label_count rows col label).
    destruct (label_count_pos rows col label E) as (Hpos & r & Hr & Hk).
    split; [reflexivity |]. split; [exact Hpos |].
    destruct (group_key_clean (JS.get r col)) as [Hne Ht]. rewrite Hk in Hne, Ht.
    split; [exact Hne |]. split; [exact Ht |].
    exists r. split; assumption.
Qed.

Lemma groupCounts_partitions_rows_witness :
  let counts : gmap string JS.value :=
    <["High" := JS.Num 1]> (<["Unknown" := JS.Num 2]> ∅) in
  plain_labels risk_rows (Some "Risk")
  /\ JS.groupCounts risk_rows (Some "Risk") = Some counts
  /\ total_count counts = 3
  /\ forall label v,
       counts !! label = Some v ->
       exists n,
         v = JS.Num n
         /\ 1 <= n
         /\ label <> ""
         /\ JS.trim label = label
         /\ exists r, r ∈ risk_rows /\ JS.group_key (JS.get r "Risk") = label.
Proof.
  cbv zeta.
  assert (JS.groupCounts risk_rows (Some "Risk")
          = Some (<["High" := JS.Num 1]> (<["Unknown" := JS.Num 2]> ∅))) as Hg
    by (vm_compute; reflexivity).
  split; [exact risk_rows_plain |]. split; [exact Hg |].
  exact (groupCounts_partitions_rows risk_rows "Risk" _ risk_rows_plain Hg).
Defined.

Lemma chart_empty_groupCounts rows col :
  plain_labels rows col ->
  Dashboard.chart_empty (JS.groupCounts rows col) = true
  <-> Dashboard.unresolved col = true \/ rows = [].
Proof.
  destruct col as [c |]; [| cbn; tauto]. intros Hplain.
  destruct (JS.groupCounts rows (Some c)) as [counts |] eqn:Hg.
  - assert (Dashboard.unresolved (Some c) = false) as Hu.
    { unfold JS.groupCounts in Hg. cbn. destruct (String.eqb c ""); congruence. }
    rewrite Hu. cbn [Dashboard.chart_empty]. rewrite Nat.eqb_eq, map_size_empty_iff.
    split.
    + intros ->. right. destruct rows as [| r rows]; [reflexivity | exfalso].
      pose proof (groupCounts_lookup _ _ _ (JS.group_key (JS.get r c)) Hplain Hg)
        as Hl.
      rewrite lookup_empty, label_count_cons in Hl.
      rewrite bool_decide_eq_true_2 in Hl by reflexivity.
      pose proof (label_count_nonneg rows c (JS.group_key (JS.get r c))) as Hpos.
      unfold as_property in Hl.
      destruct (Z.eqb_spec (1 + label_count rows c (JS.group_key (JS.get r c))) 0);
        [lia | discriminate].
    + intros [Hf | ->]; [discriminate |].
      unfold JS.groupCounts in Hg. destruct (String.eqb c ""); [discriminate |].
      injection Hg as <-. reflexivity.
  - unfold JS.groupCounts in Hg. cbn.
    destruct (String.eqb c ""); [tauto | discriminate].
Qed.

(** X22.  A chart is replaced by its placeholder exactly when its column is
    not resolved or the dataset has no record; for a column taken from
    [findColumn], exactly when [findColumn] returned [null]. The column and
    the labels are taken not to be names inherited from [Object.prototype]. *)
Theorem chart_placeholder_iff_unresolved rows col candidates :
  plain_labels rows col ->
  (Dashboard.chart_empty (JS.groupCounts rows col) = true
   <-> Dashboard.unresolved col = true \/ rows = [])
  /\ (col = JS.findColumn rows candidates ->
      (Dashboard.chart_empty (JS.groupCounts rows col) = true <-> col = None)).
Proof.
  intros Hplain. split; [apply chart_empty_groupCounts, Hplain |].
  intros Hcol. rewrite (chart_empty_groupCounts _ _ Hplain).
  destruct col as [col' |]; [| cbn; tauto].
  symmetry in Hcol.
  destruct rows as [| row0 rest]; [discriminate |].
  cbn [JS.findColumn] in Hcol.
  pose proof (first_hit_nonempty _ _ _ Hcol) as Hne.
  cbn. destruct (String.eqb_spec col' ""); [contradiction |].
  split; [intros [H | H]; discriminate | discriminate].
Qed.

Lemma chart_placeholder_iff_unresolved_witness :
  plain_labels risk_rows (Some "Risk")
  /\ Some "Risk" = JS.findColumn risk_rows ["RiskOptionSelected"; "Risk"; "risk"]
  /\ (Dashboard.chart_empty (JS.groupCounts risk_rows (Some "Risk")) = true
      <-> Dashboard.unresolved (Some "Risk") = true \/ risk_rows = [])
  /\ (Dashboard.chart_empty (JS.groupCounts risk_rows (Some "Risk")) = true
      <-> Some "Risk" = None).
Proof.
  split; [exact risk_rows_plain |].
  assert (Some "Risk"
          = JS.findColumn risk_rows ["RiskOptionSelected"; "Risk"; "risk"]) as Hf
    by (vm_compute; reflexivity).
  split; [exact Hf |].
  destruct (chart_placeholder_iff_unresolved
              risk_rows (Some "Risk") ["RiskOptionSelected"; "Risk"; "risk"]
              risk_rows_plain) as [H1 H2].
  split; [exact H1 | exact (H2 Hf)].
Defined.

(** ** The allowed origins (lines 15-18) *)

Lemma split_commas_not_nil cs : split_commas cs <> [].
Proof.
  destruct cs as [| c cs]; [discriminate |]. cbn [split_commas].
  destruct (split_commas cs); [discriminate |].
  destruct (Ascii.eqb c ","); discriminate.
Qed.

(** The pieces hold no comma. *)
Lemma split_commas_no_comma cs :
  Forall (fun piece => ","%char ∉ piece) (split_commas cs).
Proof.
  induction cs as [| c cs IH].
  - constructor; [apply not_elem_of_nil | constructor].
  - cbn [split_commas]. destruct (split_commas cs) as [| piece pieces] eqn:E.
    + exfalso. exact (split_commas_not_nil cs E).
    + inversion IH as [| ? ? Hp Hps]; subst.
      destruct (Ascii.eqb_spec c ",") as [-> | Hc].
      * constructor; [apply not_elem_of_nil | constructor; assumption].
      * constructor; [| assumption].
        rewrite not_elem_of_cons. split; [congruence | assumption].
Qed.

(** The pieces are white space only exactly when the text holds nothing but
    commas and white space. *)
Lemma split_commas_all_space cs :
  Forall (Forall (fun c => py_isspace c = true)) (split_commas cs)
  <-> Forall (fun c => c = ","%char \/ py_isspace c = true) cs.
Proof.
  induction cs as [| c cs IH].
  - split; intros _; repeat constructor.
  - cbn [split_commas]. destruct (split_commas cs) as [| piece pieces] eqn:E.
    + exfalso. exact (split_commas_not_nil cs E).
    + destruct (Ascii.eqb_spec c ",") as [-> | Hc].
      * split.
        -- intros H. inversion H as [| ? ? _ Hrest]; subst.
           constructor; [left; reflexivity | apply IH, Hrest].
        -- intros H. inversion H as [| ? ? _ Hrest]; subst.
           constructor; [constructor | apply IH, Hrest].
      * split.
        -- intros H. inversion H as [| ? ? Hp Hps]; subst.
           inversion Hp as [| ? ? Hc' Hp']; subst.
           constructor; [right; exact Hc' |].
           apply IH. constructor; assumption.
        -- intros H. inversion H as [| ? ? Hc' Hrest]; subst.
           apply IH in Hrest. inversion Hrest as [| ? ? Hp Hps]; subst.
           destruct Hc' as [-> | Hc']; [contradiction |].
           constructor; [constructor; assumption | assumption].
Qed.

Lemma map_eq_nil_filter {A B} (f : A -> B) (p : A -> bool) (l : list A) :
  List.map f (List.filter p l) = [] <-> Forall (fun x => p x = false) l.
Proof.
  induction l as [| x l IH].
  - split; [constructor | reflexivity].
  - cbn [List.filter]. destruct (p x) eqn:E.
    + split; [discriminate |]. intros H. inversion H. congruence.
    + rewrite IH. split.
      * intros H. constructor; assumption.
      * intros H. inversion H. assumption.
Qed.

(** X23.  Every allowed origin is a piece of the variable between commas
    with the white space around it removed: it is not empty, holds no comma
    and has no white space at either end. The list is empty exactly when the
    variable holds nothing but commas and white space, and is [["*"]] when
    the variable is not set. *)
Theorem allow_origins_clean env :
  (forall o, o ∈ allow_origins env ->
     o <> ""
     /\ (","%char ∉ list_ascii_of_string o)
     /\ clean_ends py_isspace (list_ascii_of_string o))
  /\ (allow_origins env = [] <-> only_separators (default "*" env))
  /\ allow_origins None = ["*"].
Proof.
  split; [| split; [| reflexivity]].
  - intros o Ho. unfold allow_origins in Ho. cbv zeta in Ho.
    apply list_elem_of_In, in_map_iff in Ho as (piece & <- & Hin).
    apply filter_In in Hin as [Hin Hne].
    apply negb_true_iff, bool_decide_eq_false in Hne.
    rewrite list_ascii_of_string_of_list_ascii. split; [| split].
    + intros H. apply Hne.
      rewrite <- (list_ascii_of_string_of_list_ascii (strip piece)), H. reflexivity.
    + pose proof (split_commas_no_comma (list_ascii_of_string (default "*" env)))
        as Hall.
      rewrite Forall_forall in Hall.
      specialize (Hall piece (proj2 (list_elem_of_In _ _) Hin)).
      intros Hc. apply Hall. rewrite strip_strip_with in Hc.
      destruct (strip_with_infix py_isspace piece) as (pre & post & Hp & _).
      rewrite Hp, !elem_of_app. right. left. exact Hc.
    + rewrite strip_strip_with. apply strip_with_clean.
  - unfold allow_origins, only_separators. cbv zeta.
    rewrite map_eq_nil_filter, <- split_commas_all_space.
    split; intros H; eapply Forall_impl; try exact H; cbv beta; intros piece Hp.
    + apply negb_false_iff, bool_decide_eq_true in Hp.
      rewrite strip_strip_with in Hp. apply strip_with_nil in Hp. exact Hp.
    + apply negb_false_iff, bool_decide_eq_true.
      rewrite strip_strip_with. apply strip_with_nil. exact Hp.
Qed.

Lemma allow_origins_clean_witness :
  let env := Some " https://a.example , ,https://b.example" in
  allow_origins env = ["https://a.example"; "https://b.example"]
  /\ (forall o, o ∈ allow_origins env ->
        o <> ""
        /\ (","%char ∉ list_ascii_of_string o)
        /\ clean_ends py_isspace (list_ascii_of_string o))
  /\ (allow_origins env = [] <-> only_separators (default "*" env))
  /\ allow_origins None = ["*"].
Proof.
  cbv zeta. split; [vm_compute; reflexivity |].
  exact (allow_origins_clean (Some " https://a.example , ,https://b.example")).
Defined.
